(** * Mandelbrot explorer: the scalar render path, its numerics and its
      band partitioning

    An embedding of [mandelbrot-explorer.js] (the application object: wheel
    handler, iteration budget, dispatch of bands to workers, assembly of
    their results) and of the worker script [mandelbrot-worker.js]
    (coordinate mapping, escape-time evaluation, palettes, pixel stores).

    - JavaScript Numbers are IEEE-754 binary64 values, so the embedding
      computes with Rocq's primitive floats: [+], [-], [*], [/], [sqrt] and
      the comparisons are the operations the engine performs.
    - [Math.cos], [Math.log2] and the like are left to the host: the
      program is a function of a [MathLib].
    - Quantities the program only uses as counts and indices (canvas
      sizes, row bounds, loop counters, the iteration budget once it has
      been computed, buffer indices) are kept in [Z].
    - Typed arrays are lists of byte values updated by index.
    - The DOM, the WebGL calls, the transport of messages and the progress
      reports are outside the embedding; [Promise.all] is the list of
      results in dispatch order.

    A second part, "The rest of the application", adds the start-up code,
    the mouse, touch, wheel and command handlers as a machine over events,
    and the GLSL shaders, over an interface for the GPU's arithmetic. *)

From Stdlib Require Import ZArith Floats Reals Lra Lia Bool List.
From stdpp Require Import base list.

Set Warnings "-inexact-float".

Local Open Scope Z_scope.

(** ** JavaScript Number helpers *)

Module JS.

(** An integer as a Number (exact below 2^53, which covers every count and
    canvas coordinate of the program). *)
Definition num (z : Z) : float :=
  if z <? 0 then PrimFloat.opp (PrimFloat.of_uint63 (Uint63.of_Z (- z)))
  else PrimFloat.of_uint63 (Uint63.of_Z z).

(** [Math.floor] as an integer: the largest integer not above a finite
    [x]; 0 for NaN, the infinities and the zeros. *)
Definition floorZ (x : float) : Z :=
  match Prim2SF x with
  | S754_finite s m e =>
      let n := if 0 <=? e then Z.pos m * 2 ^ e else Z.pos m / 2 ^ (- e) in
      let exact := if 0 <=? e then true else Z.pos m mod 2 ^ (- e) =? 0 in
      if s then (if exact then - n else - n - 1) else n
  | _ => 0
  end.

(** [Math.floor].  Zeros, infinities and NaN are returned unchanged, and so
    is every finite value whose binary exponent is not negative (from 2^52
    on, all of them integers). *)
Definition Math_floor (x : float) : float :=
  match Prim2SF x with
  | S754_finite s m e =>
      if 0 <=? e then x else num (floorZ x)
  | _ => x
  end.

(** [Math.max] and [Math.min] of two Numbers: NaN when either is NaN, and
    [+0] is larger than [-0]. *)
Definition Math_max (a b : float) : float :=
  if is_nan a || is_nan b then nan
  else if PrimFloat.ltb a b then b
  else if PrimFloat.ltb b a then a
  else if get_sign a then b else a.

Definition Math_min (a b : float) : float :=
  if is_nan a || is_nan b then nan
  else if PrimFloat.ltb a b then a
  else if PrimFloat.ltb b a then b
  else if get_sign a then a else b.

(** [x % 1]: the fractional part with the sign of [x].  The difference
    between a binary64 value and its truncation is representable, so the
    subtraction is exact. *)
Definition trunc (x : float) : float :=
  if PrimFloat.ltb x 0 then PrimFloat.opp (Math_floor (PrimFloat.opp x))
  else Math_floor x.

Definition rem1 (x : float) : float :=
  let r := PrimFloat.sub x (trunc x) in
  if is_zero r then (if get_sign x then neg_zero else zero) else r.

(** The conversion a [Uint8ClampedArray] applies on every store: NaN
    becomes 0, the value is clamped to [0, 255] and rounded to the nearest
    integer, ties to even. *)
Definition ToUint8Clamp (x : float) : Z :=
  if is_nan x then 0
  else if PrimFloat.leb x 0 then 0
  else if PrimFloat.leb 255 x then 255
  else
    let f := floorZ x in
    let half := PrimFloat.add (num f) 0.5 in
    if PrimFloat.ltb half x then f + 1
    else if PrimFloat.ltb x half then f
    else if Z.even f then f else f + 1.

(** Typed-array element access.  A read outside the array is [undefined],
    which a clamped store turns into 0; a write outside the array is
    ignored. *)
Definition get (buf : list Z) (i : Z) : Z :=
  if i <? 0 then 0 else default 0 (buf !! Z.to_nat i).

Definition set (buf : list Z) (i : Z) (v : Z) : list Z :=
  if i <? 0 then buf else <[Z.to_nat i := v]> buf.

End JS.


(** ** The arithmetic the coordinate formulas are written in

    The pixel/complex-plane formulas use only [+ - * /] and literals.  They
    are stated once over this interface and read at two instances: binary64,
    which is what the program computes, and the real numbers, which is the
    exact-arithmetic reading of the same expressions. *)

Class Arith (F : Type) : Type := {
  n_add : F -> F -> F;
  n_sub : F -> F -> F;
  n_mul : F -> F -> F;
  n_div : F -> F -> F;
  n_neg : F -> F;
  n_int : Z -> F;          (* an integer-valued Number *)
  n_lit : Z -> Z -> F      (* the decimal literal n/d, e.g. 0.9 as [n_lit 9 10] *)
}.

Declare Scope arith_scope.
Delimit Scope arith_scope with ar.
Infix "+" := n_add : arith_scope.
Infix "-" := n_sub : arith_scope.
Infix "*" := n_mul : arith_scope.
Infix "/" := n_div : arith_scope.
Notation "- x" := (n_neg x) : arith_scope.

#[export] Instance binary64 : Arith float := {
  n_add := PrimFloat.add; n_sub := PrimFloat.sub; n_mul := PrimFloat.mul;
  n_div := PrimFloat.div; n_neg := PrimFloat.opp;
  n_int := JS.num;
  n_lit := fun n d => PrimFloat.div (JS.num n) (JS.num d)
}.

#[export] Instance exact_reals : Arith R := {
  n_add := Rplus; n_sub := Rminus; n_mul := Rmult;
  n_div := Rdiv; n_neg := Ropp;
  n_int := IZR;
  n_lit := fun n d => Rdiv (IZR n) (IZR d)
}.


(** ** The host's [Math] functions

    [Math.cos], [Math.sin], [Math.log], [Math.log2] and [Math.log10] are
    implementation-approximated: the program is embedded over whatever the
    host provides. *)

Class MathLib : Type := {
  Math_cos : float -> float;
  Math_sin : float -> float;
  Math_log : float -> float;
  Math_log2 : float -> float;
  Math_log10 : float -> float
}.

(** A reference host, used where a statement has to be evaluated on concrete
    inputs: logarithms from the binary exponent and the series of [atanh],
    cosine from its Taylor series after reduction to [-pi, pi].  The
    logarithms are exact at 1 and [ref_log2] is exact at powers of two. *)
Module RefMath.
Local Open Scope float_scope.

Definition LN2 : float := 0.6931471805599453.
Definition LN10 : float := 2.302585092994046.
Definition PI : float := 3.141592653589793.

Fixpoint atanh_series (k : nat) (n : Z) (p s2 acc : float) : float :=
  match k with
  | O => acc
  | S k' => atanh_series k' (n + 2) (p * s2) s2 (acc + p / JS.num n)
  end.

(** [x = m * 2^e] with [1 <= m < 2], and [ln m = 2 atanh ((m-1)/(m+1))]. *)
Definition ln_parts (x : float) : Z * float :=
  let '(m, e) := Floats.FloatOps.Z.frexp x in
  let m2 := m * 2 in
  let s := (m2 - 1) / (m2 + 1) in
  ((e - 1)%Z, 2 * atanh_series 24 1 s (s * s) 0).

Definition defined_log (x : float) (v : float) : float :=
  if is_nan x || (x <? 0) then nan
  else if is_zero x then neg_infinity
  else if is_infinity x then infinity
  else v.

Definition ref_log (x : float) : float :=
  let '(e, l) := ln_parts x in defined_log x (JS.num e * LN2 + l).
Definition ref_log2 (x : float) : float :=
  let '(e, l) := ln_parts x in defined_log x (JS.num e + l / LN2).
Definition ref_log10 (x : float) : float :=
  let '(e, l) := ln_parts x in defined_log x ((JS.num e * LN2 + l) / LN10).

Fixpoint cos_series (k : nat) (n : Z) (term r2 acc : float) : float :=
  match k with
  | O => acc
  | S k' =>
      cos_series k' (n + 2) (- (term * r2) / JS.num ((n + 1) * (n + 2))) r2 (acc + term)
  end.

Definition ref_cos (x : float) : float :=
  if is_nan x || is_infinity x then nan
  else
    let r := x - 2 * PI * JS.Math_floor (x / (2 * PI) + 0.5) in
    cos_series 16 0 1 (r * r) 0.

Definition ref_sin (x : float) : float := ref_cos (x - PI / 2).

Definition host : MathLib := {|
  Math_cos := ref_cos; Math_sin := ref_sin; Math_log := ref_log;
  Math_log2 := ref_log2; Math_log10 := ref_log10
|}.
End RefMath.



(** ** Pixel to complex-plane coordinates

    The worker's per-sample conversion ([calculateMandelbrot], the two lines
    under "Convert pixel to complex coordinates"). *)

Section Coordinates.
Context {F : Type} `{Arith F}.
Local Open Scope arith_scope.

Definition pixelToComplexX (px ox width zoom centerX : F) : F :=
  (px + ox - width / n_int 2) / (zoom * width / n_int 4) + centerX.

Definition pixelToComplexY (py oy height zoom centerY : F) : F :=
  (- (py + oy - height / n_int 2)) / (zoom * height / n_int 4) + centerY.
End Coordinates.

(** ** The worker script, [mandelbrot-worker.js] *)

Module Worker.
Local Open Scope float_scope.

Record Params : Type := {
  startX : Z; endX : Z; startY : Z; endY : Z;
  width : Z; height : Z;
  centerX : float; centerY : float; zoom : float;
  maxIterations : Z; colorScheme : Z;
  smoothing : bool; antialiasing : bool
}.

(** The message posted back: the buffer and the bounds of the request. *)
Record Result : Type := {
  imageData : list Z;
  r_startX : Z; r_endX : Z; r_startY : Z; r_endY : Z
}.

Definition complexSquare (zr zi : float) : float * float :=
  (zr * zr - zi * zi, 2 * zr * zi).

Definition complexMagnitude (zr zi : float) : float :=
  PrimFloat.sqrt (zr * zr + zi * zi).

(** The two closed-form interior tests of [calculateMandelbrot]. *)
Definition cardioidTest (x y : float) : bool :=
  let q := (x - 0.25) * (x - 0.25) + y * y in
  q * (q + (x - 0.25)) <=? 0.25 * y * y.

Definition bulbTest (x y : float) : bool :=
  (x + 1) * (x + 1) + y * y <=? 0.0625.

(** What one sample's evaluation leaves behind: either a [continue] at one
    of the interior tests, or the variables [iterations], [zr], [zi] after
    the iteration loop.  [steps] is a ghost counter of executed loop
    bodies; the program does not read it. *)
Inductive Sample : Type :=
| Skipped
| Iterated (iterations : Z) (zr zi : float) (steps : nat).

(** [for (let i = 0; i < maxIterations; i++)]: [fuel] is the number of
    values of [i] still to visit.  Leaving by [break] keeps
    [iterations = i]; running out leaves [iterations] at the last [i + 1]
    (or at its initial 0 when the loop never ran), which is the current
    [i]. *)
Fixpoint mandelbrotLoop (x y : float) (fuel : nat) (i : Z) (zr zi : float)
    (steps : nat) : Sample :=
  match fuel with
  | O => Iterated i zr zi steps
  | S fuel' =>
      let '(newZr, newZi) := complexSquare zr zi in
      let zr := newZr + x in
      let zi := newZi + y in
      let magnitude := zr * zr + zi * zi in
      if 256 <? magnitude then Iterated i zr zi (S steps)
      else mandelbrotLoop x y fuel' (i + 1)%Z zr zi (S steps)
  end.

Definition evaluate (x y : float) (maxIterations : Z) : Sample :=
  if cardioidTest x y then Skipped
  else if bulbTest x y then Skipped
  else mandelbrotLoop x y (Z.to_nat maxIterations) 0%Z 0 0 O.

(** [iterations < maxIterations] after the loop: the orbit left the
    escape disc within the budget. *)
Definition escaped (maxIterations : Z) (s : Sample) : bool :=
  match s with
  | Skipped => false
  | Iterated iterations _ _ _ => (iterations <? maxIterations)%Z
  end.

Definition loopSteps (s : Sample) : nat :=
  match s with
  | Skipped => O
  | Iterated _ _ _ steps => steps
  end.

Definition sampleOffsets (antialiasing : bool) : list (float * float) :=
  if antialiasing
  then [(-0.25, -0.25); (0.25, -0.25); (-0.25, 0.25); (0.25, 0.25)]
  else [(0, 0)].

Definition samples (antialiasing : bool) : float :=
  if antialiasing then 4 else 1.

Definition channels (r g b : float) : float * float * float :=
  (JS.Math_floor (r * 255), JS.Math_floor (g * 255), JS.Math_floor (b * 255)).

Section Host.
Context {M : MathLib}.

Definition getSmoothIteration (zr zi : float) (iterations maxIterations : Z)
    : float :=
  if (maxIterations - 1 <=? iterations)%Z then JS.num iterations
  else
    let modulus := complexMagnitude zr zi in
    let nu := Math_log2 (Math_log2 modulus) in
    JS.num iterations + 1 - nu.

(** One round of the "Ultra smooth" accumulation loop. *)
Definition ultraSmoothStep (t : float)
    (acc : float * float * float * float * float) (i : Z)
    : float * float * float * float * float :=
  let '(c0, c1, c2, freq, amp) := acc in
  let phase := JS.num i * 0.1 in
  (c0 + amp * (0.5 + 0.5 * Math_cos (6.28318 * freq * (t + phase))),
   c1 + amp * (0.5 + 0.5 * Math_cos (6.28318 * freq * (t + 0.1 + phase))),
   c2 + amp * (0.5 + 0.5 * Math_cos (6.28318 * freq * (1.5 * t + 0.2 + phase))),
   freq * 2, amp * 0.5).

Definition getColor (t : float) (colorScheme : Z) : float * float * float :=
  let t := JS.Math_max 0 (JS.Math_min 1 t) in
  match colorScheme with
  | 0%Z =>
      channels (0.5 + 0.5 * Math_cos (6.28318 * (t + 0.0)))
               (0.5 + 0.5 * Math_cos (6.28318 * (t + 0.1)))
               (0.5 + 0.5 * Math_cos (6.28318 * (t + 0.2)))
  | 1%Z =>
      let t := JS.rem1 (t * 3) in
      if t <? 0.33 then channels (t * 3 * 0.8) 0 0
      else if t <? 0.66 then
        let p := (t - 0.33) * 3 in
        channels (0.8 + 0.2 * p) (0.8 * p) 0
      else
        let p := (t - 0.66) * 3 in
        channels 1.0 (0.8 + 0.2 * p) (0.8 * p)
  | 2%Z => channels 0.0 (0.07 + 0.43 * t) (0.15 + 0.65 * t)
  | 3%Z =>
      channels (0.5 + 0.5 * Math_cos (6.28318 * t * 3))
               (0.5 + 0.5 * Math_cos (6.28318 * (t * 3 + 0.33)))
               (0.5 + 0.5 * Math_cos (6.28318 * (t * 3 + 0.67)))
  | 4%Z => channels t t t
  | _ =>
      let '(c0, c1, c2, _, _) :=
        fold_left (ultraSmoothStep t) [0; 1; 2; 3]%Z (0, 0, 0, 1, 1) in
      channels (c0 / 1.875) (c1 / 1.875) (c2 / 1.875)
  end.

(** "Color calculation": the value bound to [smoothIter], and what a
    sample adds to the running totals, if anything. *)
Definition smoothIter (p : Params) (zr zi : float) (iterations : Z) : float :=
  if smoothing p
  then getSmoothIteration zr zi iterations (maxIterations p)
  else JS.num iterations.

Definition sampleColor (p : Params) (s : Sample)
    : option (float * float * float) :=
  match s with
  | Skipped => None
  | Iterated iterations zr zi _ =>
      if (iterations <? maxIterations p)%Z then
        let normalized :=
          smoothIter p zr zi iterations / JS.num (maxIterations p) in
        Some (getColor normalized (colorScheme p))
      else None
  end.

Definition samplePoint (p : Params) (px py : Z) (off : float * float)
    : float * float :=
  (pixelToComplexX (JS.num px) (fst off) (JS.num (width p)) (zoom p) (centerX p),
   pixelToComplexY (JS.num py) (snd off) (JS.num (height p)) (zoom p) (centerY p)).

Definition addSample (p : Params) (px py : Z)
    (total : float * float * float) (off : float * float)
    : float * float * float :=
  let '(x, y) := samplePoint p px py off in
  match sampleColor p (evaluate x y (maxIterations p)) with
  | Some (r, g, b) =>
      let '(totalR, totalG, totalB) := total in
      (totalR + r, totalG + g, totalB + b)
  | None => total
  end.

(** The four stores of "Average samples". *)
Definition pixelBytes (p : Params) (px py : Z) : Z * Z * Z * Z :=
  let '(totalR, totalG, totalB) :=
    fold_left (addSample p px py) (sampleOffsets (antialiasing p)) (0, 0, 0) in
  let n := samples (antialiasing p) in
  (JS.ToUint8Clamp (totalR / n), JS.ToUint8Clamp (totalG / n),
   JS.ToUint8Clamp (totalB / n), 255%Z).

Definition writePixel (p : Params) (py : Z) (buf : list Z) (px : Z) : list Z :=
  let '(r, g, b, a) := pixelBytes p px py in
  let idx := ((py * width p + px) * 4)%Z in
  JS.set (JS.set (JS.set (JS.set buf idx r) (idx + 1) g) (idx + 2) b) (idx + 3) a.

Definition writeRow (p : Params) (buf : list Z) (py : Z) : list Z :=
  fold_left (writePixel p py) (seqZ (startX p) (endX p - startX p)) buf.

(** The buffer is allocated for the whole canvas and the requested rows
    are written at their canvas position.  The progress messages posted
    every tenth row are not part of the result. *)
Definition calculateMandelbrot (p : Params) : list Z :=
  fold_left (writeRow p) (seqZ (startY p) (endY p - startY p))
            (replicate (Z.to_nat (width p * height p * 4)) 0%Z).

(** [self.onmessage] for a ['calculate'] message. *)
Definition onmessage (p : Params) : Result :=
  {| imageData := calculateMandelbrot p;
     r_startX := startX p; r_endX := endX p;
     r_startY := startY p; r_endY := endY p |}.
End Host.
End Worker.


(** ** The application object, [MandelbrotExplorer]

    The fields the render path and the wheel handler read.  The record is
    parametrised by the type of the view coordinates so that the wheel
    handler, which only uses [+ - * /], can also be read over the reals. *)

Module Explorer.

Record State (F : Type) : Type := {
  centerX : F; centerY : F; zoom : F;
  colorScheme : Z;
  smoothing : bool; antialiasing : bool;
  adaptiveQuality : bool;
  qualityIterations : Z;      (* qualitySettings[currentQuality].iterations *)
  maxIterations : Z;          (* performanceLevel.maxIterations *)
  useWebGL : bool;
  isRendering : bool;
  numWorkers : Z;             (* also the length of [workers] *)
  canvasWidth : Z; canvasHeight : Z
}.
Arguments centerX {F}. Arguments centerY {F}. Arguments zoom {F}.
Arguments colorScheme {F}. Arguments smoothing {F}. Arguments antialiasing {F}.
Arguments adaptiveQuality {F}. Arguments qualityIterations {F}.
Arguments maxIterations {F}. Arguments useWebGL {F}. Arguments isRendering {F}.
Arguments numWorkers {F}. Arguments canvasWidth {F}. Arguments canvasHeight {F}.

Definition withView {F} (st : State F) (cx cy z : F) : State F :=
  {| centerX := cx; centerY := cy; zoom := z;
     colorScheme := colorScheme st;
     smoothing := smoothing st; antialiasing := antialiasing st;
     adaptiveQuality := adaptiveQuality st;
     qualityIterations := qualityIterations st;
     maxIterations := maxIterations st;
     useWebGL := useWebGL st; isRendering := isRendering st;
     numWorkers := numWorkers st;
     canvasWidth := canvasWidth st; canvasHeight := canvasHeight st |}.

Definition withAntialiasing {F} (st : State F) (a : bool) : State F :=
  {| centerX := centerX st; centerY := centerY st; zoom := zoom st;
     colorScheme := colorScheme st;
     smoothing := smoothing st; antialiasing := a;
     adaptiveQuality := adaptiveQuality st;
     qualityIterations := qualityIterations st;
     maxIterations := maxIterations st;
     useWebGL := useWebGL st; isRendering := isRendering st;
     numWorkers := numWorkers st;
     canvasWidth := canvasWidth st; canvasHeight := canvasHeight st |}.

(** *** [handleWheel] *)

Record WheelEvent (F : Type) : Type := {
  deltaY_positive : bool;     (* e.deltaY > 0 *)
  clientX : F; clientY : F
}.
Arguments deltaY_positive {F}. Arguments clientX {F}. Arguments clientY {F}.

Section Wheel.
Context {F : Type} `{Arith F}.
Local Open Scope arith_scope.

(** The cursor's complex coordinate, as [handleWheel] computes
    [complexX] and [complexY] from the current view. *)
Definition cursorToComplex (st : State F) (mouseX mouseY : F) : F * F :=
  let w := n_int (canvasWidth st) in
  let h := n_int (canvasHeight st) in
  ((mouseX - w / n_int 2) / (zoom st * w / n_int 4) + centerX st,
   centerY st - (mouseY - h / n_int 2) / (zoom st * h / n_int 4)).

(** The view after a wheel event (the [render] call that follows does
    not change it). *)
Definition handleWheel (st : State F) (e : WheelEvent F) : State F :=
  let w := n_int (canvasWidth st) in
  let h := n_int (canvasHeight st) in
  let zoomFactor := if deltaY_positive e then n_lit 9 10 else n_lit 11 10 in
  let mouseX := clientX e in
  let mouseY := clientY e in
  let '(complexX, complexY) := cursorToComplex st mouseX mouseY in
  let zoom' := zoom st * zoomFactor in
  withView st
    (complexX - (mouseX - w / n_int 2) / (zoom' * w / n_int 4))
    (complexY + (mouseY - h / n_int 2) / (zoom' * h / n_int 4))
    zoom'.
End Wheel.

(** *** Rendering *)

Local Open Scope float_scope.

Definition shouldUseGPU (st : State float) : bool :=
  useWebGL st && (zoom st <? 1e14).

(** The outcome of a CPU render: nothing when a render is already under
    way; an exception from the [ImageData] constructor, which rejects an
    empty canvas; an exception from the first use of [this.ctx] when it is
    [null]; or the image handed to [putImageData].

    [this.ctx] is assigned in the constructor only, by
    [getContext('2d')]: on a canvas that already holds a WebGL context
    that call returns [null].  So the 2d context is missing exactly on the
    objects with [useWebGL] set. *)
Inductive Outcome : Type :=
| Busy
| IndexSizeError
| TypeError
| Drawn (image : list Z).

Definition blankImage (width height : Z) : list Z :=
  replicate (Z.to_nat (width * height * 4)) 0%Z.

(** [Math.ceil(height / numWorkers)] on the integers, for a positive
    [numWorkers]. *)
Definition rowsPerWorker (height numWorkers : Z) : Z :=
  (- ((- height) / numWorkers))%Z.

(** The dispatch loop's row bounds: [fuel] counts the remaining values of
    [i]; the [break] ends the list at the first band starting past the
    canvas. *)
Fixpoint bandLoop (fuel : nat) (i rows height : Z) : list (Z * Z) :=
  match fuel with
  | O => []
  | S fuel' =>
      let startY := (i * rows)%Z in
      let endY := Z.min ((i + 1) * rows) height in
      if (height <=? startY)%Z then []
      else (startY, endY) :: bandLoop fuel' (i + 1)%Z rows height
  end.

Definition bands (height numWorkers : Z) : list (Z * Z) :=
  bandLoop (Z.to_nat numWorkers) 0%Z (rowsPerWorker height numWorkers) height.

(** "Combine results": one result copied into the image. *)
Definition copyPixel (width : Z) (result : Worker.Result) (y : Z)
    (image : list Z) (x : Z) : list Z :=
  let data := Worker.imageData result in
  let startY := Worker.r_startY result in
  let srcIdx := (((y - startY) * width + x) * 4)%Z in
  let dstIdx := ((y * width + x) * 4)%Z in
  let image := JS.set image dstIdx (JS.get data srcIdx) in
  let image := JS.set image (dstIdx + 1) (JS.get data (srcIdx + 1)) in
  let image := JS.set image (dstIdx + 2) (JS.get data (srcIdx + 2)) in
  JS.set image (dstIdx + 3) (JS.get data (srcIdx + 3)).

Definition copyRow (width : Z) (result : Worker.Result) (image : list Z)
    (y : Z) : list Z :=
  fold_left (copyPixel width result y) (seqZ 0 width) image.

Definition copyResult (width : Z) (image : list Z) (result : Worker.Result)
    : list Z :=
  fold_left (copyRow width result)
    (seqZ (Worker.r_startY result) (Worker.r_endY result - Worker.r_startY result))
    image.

(** The [params] object of a ['calculate'] message, as posted. *)
Record Message : Type := {
  p_startX : Z; p_endX : Z; p_startY : Z; p_endY : Z;
  p_width : Z; p_height : Z;
  p_centerX : float; p_centerY : float; p_zoom : float;
  p_maxIterations : float;      (* a Number: integer-valued, or NaN *)
  p_colorScheme : Z;
  p_smoothing : bool; p_antialiasing : bool
}.

(** The same object as the worker reads it.  The worker only compares its
    loop counter and its iteration count with the budget
    ([i < maxIterations], [iterations < maxIterations],
    [iterations >= maxIterations - 1]) and, after an escape, divides by
    it.  The budget [renderCPU] posts comes out of [Math.floor] and
    [Math.min] with a whole number, so it is integer-valued or NaN.  For
    an integer-valued budget the comparisons are those with that integer.
    Against NaN each of them is false, and the first one fails at [i = 0]:
    the loop does not run, [iterations] stays 0 and the sample counts as
    not escaped, which is what happens against the budget 0.
    [Worker.Params] keeps the budget as that integer. *)
Definition received (m : Message) : Worker.Params :=
  {| Worker.startX := p_startX m;
     Worker.endX := p_endX m;
     Worker.startY := p_startY m;
     Worker.endY := p_endY m;
     Worker.width := p_width m;
     Worker.height := p_height m;
     Worker.centerX := p_centerX m;
     Worker.centerY := p_centerY m;
     Worker.zoom := p_zoom m;
     Worker.maxIterations := JS.floorZ (p_maxIterations m);
     Worker.colorScheme := p_colorScheme m;
     Worker.smoothing := p_smoothing m;
     Worker.antialiasing := p_antialiasing m |}.

Section Host.
Context {M : MathLib}.

(** The iteration budget of [renderWebGL] (also shown by [updateUI] and
    used by [simpleCPURender]). *)
Definition iterationsWebGL (st : State float) : float :=
  if adaptiveQuality st then
    let zoomFactor := JS.Math_max 1 (Math_log10 (zoom st)) in
    JS.Math_min (JS.num (maxIterations st))
      (JS.Math_max 500 (JS.Math_floor (500 + zoomFactor * 500)))
  else JS.num (qualityIterations st).

(** The iteration budget of [renderCPU]. *)
Definition iterationsCPU (st : State float) : float :=
  if adaptiveQuality st then
    let zoomFactor := JS.Math_max 1 (Math_log10 (zoom st)) in
    JS.Math_min (JS.num (maxIterations st))
      (JS.Math_max 1000 (JS.Math_floor (1000 + zoomFactor * 1000)))
  else JS.num (qualityIterations st).

(** The [params] object of the message posted to worker [i], field by
    field as [renderCPU] computes it.  The budget is posted as the Number
    it is, NaN included. *)
Definition posted (st : State float) (band : Z * Z) : Message :=
  {| p_startX := 0;
     p_endX := canvasWidth st;
     p_startY := fst band;
     p_endY := snd band;
     p_width := canvasWidth st;
     p_height := canvasHeight st;
     p_centerX := centerX st;
     p_centerY := centerY st;
     p_zoom := zoom st * 200;
     p_maxIterations := iterationsCPU st;
     p_colorScheme := colorScheme st;
     p_smoothing := smoothing st;
     p_antialiasing := false |}.

(** The request of worker [i] as the worker reads it: [received] of what
    was [posted]. *)
Definition workerParams (st : State float) (band : Z * Z) : Worker.Params :=
  received (posted st band).

(** The requests of one render, in dispatch order. *)
Definition dispatched (st : State float) : list Worker.Params :=
  map (workerParams st) (bands (canvasHeight st) (numWorkers st)).

(** *** [simpleCPURender], the single-threaded fallback *)

Fixpoint simpleLoop (fuel : nat) (cX cY maxIter zx zy : float) (iter : Z)
    : Z * float * float :=
  match fuel with
  | O => (iter, zx, zy)
  | S fuel' =>
      if (zx * zx + zy * zy <? 4) && (JS.num iter <? maxIter) then
        let tmp := zx * zx - zy * zy + cX in
        let zy := 2 * zx * zy + cY in
        simpleLoop fuel' cX cY maxIter tmp zy (iter + 1)%Z
      else (iter, zx, zy)
  end.

Definition simplePixel (st : State float) (y : Z) (data : list Z) (x : Z)
    : list Z :=
  let width := JS.num (canvasWidth st) in
  let height := JS.num (canvasHeight st) in
  let cX := (JS.num x - width / 2) / (zoom st * width / 4) + centerX st in
  let cY := centerY st - (JS.num y - height / 2) / (zoom st * height / 4) in
  let maxIter := iterationsWebGL st in
  let '(iter, zx, zy) :=
    simpleLoop (Z.to_nat (JS.floorZ maxIter + 1)) cX cY maxIter 0 0 0%Z in
  let idx := ((y * canvasWidth st + x) * 4)%Z in
  let data :=
    if JS.num iter =? maxIter then
      JS.set (JS.set (JS.set data idx 0%Z) (idx + 1) 0%Z) (idx + 2) 0%Z
    else
      let t := JS.num iter / maxIter in
      let smoothT :=
        t + (1 - Math_log (Math_log (PrimFloat.sqrt (zx * zx + zy * zy)))
                 / Math_log 2) / maxIter in
      let r := JS.Math_floor (255 * (0.5 + 0.5 * Math_sin (smoothT * 6.28))) in
      let g := JS.Math_floor (255 * (0.5 + 0.5 * Math_sin (smoothT * 6.28 + 2.09))) in
      let b := JS.Math_floor (255 * (0.5 + 0.5 * Math_sin (smoothT * 6.28 + 4.18))) in
      JS.set (JS.set (JS.set data idx (JS.ToUint8Clamp r))
                     (idx + 1) (JS.ToUint8Clamp g))
             (idx + 2) (JS.ToUint8Clamp b) in
  JS.set data (idx + 3) 255%Z.

Definition simpleCPURender (st : State float) : Outcome :=
  let width := canvasWidth st in
  let height := canvasHeight st in
  (* [this.ctx.fillStyle = '#000'] comes first *)
  if useWebGL st then TypeError
  else if (width <=? 0)%Z || (height <=? 0)%Z then IndexSizeError
  else
    Drawn (fold_left
             (fun data y => fold_left (simplePixel st y) (seqZ 0 width) data)
             (seqZ 0 height) (blankImage width height)).

(** *** [renderCPU] *)

(** [Promise.all] delivers the results in dispatch order, whatever the
    order in which the workers answer. *)
Definition results (st : State float) : list Worker.Result :=
  map Worker.onmessage (dispatched st).

Definition renderCPU (st : State float) : Outcome :=
  if isRendering st then Busy
  else if (numWorkers st <=? 0)%Z then simpleCPURender st
  else
    let width := canvasWidth st in
    let height := canvasHeight st in
    let rs := results st in
    if (width <=? 0)%Z || (height <=? 0)%Z then IndexSizeError
    else
      let image := fold_left (copyResult width) rs (blankImage width height) in
      (* [this.ctx.putImageData(imageData, 0, 0)] *)
      if useWebGL st then TypeError else Drawn image.
End Host.
End Explorer.


(** ** Specification-side definitions *)

Module Spec.
(** The coordinate mapper as the design document writes it, for a pixel,
    a sample offset, a canvas size and a viewport
    [(centerReal, centerImag, zoom)]. *)
Section Mapper.
Context {F : Type} `{Arith F}.
Local Open Scope arith_scope.

Definition mapPixelToComplex (px py offsetX offsetY width height : F)
    (viewport : F * F * F) : F * F :=
  let '(centerReal, centerImag, zoom) := viewport in
  ((px + offsetX - width / n_int 2) / (zoom * width / n_int 4) + centerReal,
   (- (py + offsetY - height / n_int 2)) / (zoom * height / n_int 4) + centerImag).
End Mapper.

(** The two closed-form interior regions as the design document states
    them: with [q = (x - 0.25)^2 + y^2], the main cardioid is
    [q * (q + (x - 0.25)) <= 0.25 * y^2], and the period-2 bulb is
    [(x + 1)^2 + y^2 <= 0.0625].  A square is a product, products
    associate to the left, and [le] is the [<=] of the arithmetic at
    hand. *)
Section Interior.
Context {F : Type} `{Arith F}.
Variable le : F -> F -> bool.
Local Open Scope arith_scope.

Definition inCardioid (x y : F) : bool :=
  let q := (x - n_lit 25 100) * (x - n_lit 25 100) + y * y in
  le (q * (q + (x - n_lit 25 100))) (n_lit 25 100 * y * y).

Definition inBulb (x y : F) : bool :=
  le ((x + n_int 1) * (x + n_int 1) + y * y) (n_lit 625 10000).
End Interior.

(** The orbit [z_0 = 0], [z_{n+1} = z_n^2 + c] in any arithmetic, the
    square of [z = (zx, zy)] being [(zx^2 - zy^2, 2 zx zy)]; and the
    escape condition of the accelerated path, [|z|^2 > 256 * 256], for a
    given [<] and a given inner product. *)
Section Orbit.
Context {F : Type} `{Arith F}.
Local Open Scope arith_scope.

Fixpoint orbitOver (c : F * F) (n : nat) : F * F :=
  match n with
  | O => (n_int 0, n_int 0)
  | S n' =>
      let '(zx, zy) := orbitOver c n' in
      (zx * zx - zy * zy + fst c, n_int 2 * zx * zy + snd c)
  end.

Definition beyond (lt : F -> F -> bool) (dot : F * F -> F * F -> F)
    (z : F * F) : bool :=
  lt (n_int 256 * n_int 256) (dot z z).

(** No point of the orbit from [z] on is beyond the radius for [n]
    steps. *)
Fixpoint staysWithin (lt : F -> F -> bool) (dot : F * F -> F * F -> F)
    (c z : F * F) (n : nat) : bool :=
  match n with
  | O => true
  | S n' =>
      let z' := (fst z * fst z - snd z * snd z + fst c,
                 n_int 2 * fst z * snd z + snd c) in
      negb (beyond lt dot z') && staysWithin lt dot c z' n'
  end.
End Orbit.

Local Open Scope float_scope.

(** The orbit [z_0 = 0], [z_{n+1} = z_n^2 + c] of [c = (x, y)], in the
    program's arithmetic. *)
Fixpoint orbit (x y : float) (n : nat) : float * float :=
  match n with
  | O => (0, 0)
  | S n' =>
      let '(zr, zi) := orbit x y n' in
      (zr * zr - zi * zi + x, 2 * zr * zi + y)
  end.

(** [|z|^2 > 256]. *)
Definition outside (z : float * float) : bool :=
  256 <? fst z * fst z + snd z * snd z.

(** How far one wheel event moves the complex coordinate under the
    cursor, per axis, in binary64. *)
Definition wheelDrift (st : Explorer.State float) (e : Explorer.WheelEvent float)
    : float * float :=
  let before :=
    Explorer.cursorToComplex st (Explorer.clientX e) (Explorer.clientY e) in
  let after :=
    Explorer.cursorToComplex (Explorer.handleWheel st e)
      (Explorer.clientX e) (Explorer.clientY e) in
  (abs (fst before - fst after), abs (snd before - snd after)).

(** A coordinate of moderate size: at most [2^23 - 1] in magnitude, where
    neighbouring binary64 values are less than 1e-9 apart. *)
Definition moderate (v : float) : bool := abs v <=? 8388607.

(** A host value that is the correctly rounded [x] or one of its two
    neighbours. *)
Definition within_one_ulp (v x : float) : Prop :=
  v = x \/ v = next_down x \/ v = next_up x.
End Spec.

(** ** Concrete inputs *)

Module Inputs.
Local Open Scope float_scope.

(** The application as its constructor leaves it, on an 800 x 600 canvas
    of a four-core host without WebGL. *)
Definition initial : Explorer.State float := {|
  Explorer.centerX := -0.5; Explorer.centerY := 0; Explorer.zoom := 0.5;
  Explorer.colorScheme := 0;
  Explorer.smoothing := true; Explorer.antialiasing := false;
  Explorer.adaptiveQuality := true;
  Explorer.qualityIterations := 2000;
  Explorer.maxIterations := 2000;
  Explorer.useWebGL := false;
  Explorer.isRendering := false;
  Explorer.numWorkers := 4;
  Explorer.canvasWidth := 800; Explorer.canvasHeight := 600
|}.

Definition withZoom (st : Explorer.State float) (z : float) : Explorer.State float :=
  Explorer.withView st (Explorer.centerX st) (Explorer.centerY st) z.

(** A wheel event with the cursor on a pixel. *)
Definition wheelAt (x y : Z) (out : bool) : Explorer.WheelEvent float := {|
  Explorer.deltaY_positive := out;
  Explorer.clientX := JS.num x; Explorer.clientY := JS.num y
|}.

(** A wheel-out event with the cursor on pixel (1, 1), and the view
    reached from [initial] by 144 of them. *)
Definition wheelOut : Explorer.WheelEvent float := wheelAt 1 1 true.

Definition zoomedOut : Explorer.State float :=
  Nat.iter 144 (fun st => Explorer.handleWheel st wheelOut) initial.

(** A canvas one pixel wide and two pixels high, rendered by two workers
    in the Ocean palette around the point 0.5 + 0.5i, outside the
    set. *)
Definition tiny : Explorer.State float := {|
  Explorer.centerX := 0.5; Explorer.centerY := 0.5; Explorer.zoom := 0.5;
  Explorer.colorScheme := 2;
  Explorer.smoothing := true; Explorer.antialiasing := false;
  Explorer.adaptiveQuality := true;
  Explorer.qualityIterations := 2000;
  Explorer.maxIterations := 2000;
  Explorer.useWebGL := false;
  Explorer.isRendering := false;
  Explorer.numWorkers := 2;
  Explorer.canvasWidth := 1; Explorer.canvasHeight := 2
|}.

(** A worker request for a canvas of a single pixel at zoom 1: pixel (0, 0)
    is sampled at [(cx - 2, cy + 2)]. *)
Definition onePixel (cx cy : float) (maxIterations : Z) (smoothing : bool)
    : Worker.Params := {|
  Worker.startX := 0; Worker.endX := 1; Worker.startY := 0; Worker.endY := 1;
  Worker.width := 1; Worker.height := 1;
  Worker.centerX := cx; Worker.centerY := cy; Worker.zoom := 1;
  Worker.maxIterations := maxIterations; Worker.colorScheme := 0;
  Worker.smoothing := smoothing; Worker.antialiasing := false
|}.

(** A pixel at the origin, one at the point -1 (the centre of the
    period-2 bulb), and one at the point 0.3 + 0.5i (up to rounding), which
    lies outside both interior regions and stays in the escape disc for 50
    steps. *)
Definition originPixel : Worker.Params := onePixel 2 (-2) 1000 true.
Definition bulbPixel : Worker.Params := onePixel 1 (-2) 1000 true.
Definition slowPixel : Worker.Params := onePixel 2.3 (-1.5) 50 true.
Definition slowPoint : float * float := Worker.samplePoint slowPixel 0 0 (0, 0).

(** A deep view on a 1920 x 1080 canvas, and a wheel-in event off its
    centre. *)
Definition deepView : Explorer.State float := {|
  Explorer.centerX := -0.743643887037151; Explorer.centerY := 0.13182590420533;
  Explorer.zoom := 1e6;
  Explorer.colorScheme := 0;
  Explorer.smoothing := true; Explorer.antialiasing := false;
  Explorer.adaptiveQuality := true;
  Explorer.qualityIterations := 2000;
  Explorer.maxIterations := 8000;
  Explorer.useWebGL := false;
  Explorer.isRendering := false;
  Explorer.numWorkers := 8;
  Explorer.canvasWidth := 1920; Explorer.canvasHeight := 1080
|}.

Definition deepWheel : Explorer.WheelEvent float := wheelAt 1234 567 false.
End Inputs.


(** ** Vocabulary of the statements *)

(** What it means for the dispatch loop's bands to partition the rows
    [0 .. height) among [n] workers. *)
Definition BandsPartition (height n : Z) : Prop :=
  let rows := Explorer.rowsPerWorker height n in
  let bs := Explorer.bands height n in
  (* [rows] is the ceiling of [height / n], and at most [n] bands are sent *)
  (n * (rows - 1) < height <= n * rows /\ Z.of_nat (length bs) <= n) /\
  (* each band is a non-empty row range of at most [rows] rows, of exactly
     [rows] rows unless it is the last one *)
  (forall k s e, bs !! k = Some (s, e) ->
     s = Z.of_nat k * rows /\ 0 <= s < e /\ e <= height /\ e - s <= rows /\
     (is_Some (bs !! S k) -> e - s = rows)) /\
  (* the bands are contiguous: the first starts at row 0, each next one
     starts where the previous one ends, and the last ends at [height] *)
  (forall s e, bs !! 0%nat = Some (s, e) -> s = 0) /\
  (forall k s e s' e', bs !! k = Some (s, e) -> bs !! S k = Some (s', e') -> s' = e) /\
  (forall s e, last bs = Some (s, e) -> e = height) /\
  (* every row of the canvas lies in a band, and nothing else does *)
  (forall r, 0 <= r < height <-> exists k s e, bs !! k = Some (s, e) /\ s <= r < e) /\
  (* no row lies in two bands *)
  (forall r k1 k2 s1 e1 s2 e2,
     bs !! k1 = Some (s1, e1) -> bs !! k2 = Some (s2, e2) ->
     s1 <= r < e1 -> s2 <= r < e2 -> k1 = k2).

(** The tolerance of the zoom-at-cursor property, on both axes. *)
Definition withinTolerance (d : float * float) : bool :=
  (fst d <=? 1e-9)%float && (snd d <=? 1e-9)%float.

(** A buffer sized for the whole canvas of a request. *)
Definition InCanvas (p : Worker.Params) (buf : list Z) : Prop :=
  length buf = Z.to_nat (Worker.width p * Worker.height p * 4).

(** An image that is still zero from byte [T] on, and a buffer that is
    still zero below byte [T]. *)
Definition BlankFrom (T : Z) (image : list Z) : Prop :=
  forall j, T <= j -> JS.get image j = 0.

Definition ZeroBelow (T : Z) (data : list Z) : Prop :=
  forall j, j < T -> JS.get data j = 0.

(** A result that the copy cannot bring below row [rows] of the image:
    the first band, which ends there, or a later band, whose buffer is
    still zero over its first [rows] rows. *)
Definition Harmless (width rows : Z) (result : Worker.Result) : Prop :=
  (Worker.r_startY result = 0 /\ Worker.r_endY result <= rows) \/
  (0 <= Worker.r_startY result /\
   Worker.r_endY result - Worker.r_startY result <= rows /\
   ZeroBelow (rows * width * 4) (Worker.imageData result)).

(** What [renderCPU] draws below the first band: every later result
    carries a canvas-sized buffer and its band's bounds, holds its band's
    pixels at their canvas rows, and leaves no trace in the image. *)
Definition LowerBandsBlank {M : MathLib} (st : Explorer.State float) : Prop :=
  let w := Explorer.canvasWidth st in
  let h := Explorer.canvasHeight st in
  exists image,
    Explorer.renderCPU st = Explorer.Drawn image /\
    forall (k : nat) (r : Worker.Result),
      (1 <= k)%nat -> Explorer.results st !! k = Some r ->
      Explorer.bands h (Explorer.numWorkers st) !! k
        = Some (Worker.r_startY r, Worker.r_endY r) /\
      length (Worker.imageData r) = Z.to_nat (w * h * 4) /\
      forall y x,
        Worker.r_startY r <= y < Worker.r_endY r -> 0 <= x < w ->
        JS.get (Worker.imageData r) ((y * w + x) * 4 + 3) = 255 /\
        forall c, 0 <= c < 4 -> JS.get image ((y * w + x) * 4 + c) = 0.


(** * The rest of the application *)

(** ** Start-up: [detectPerformance] and the constructor *)

Module Startup.
Local Open Scope float_scope.

Inductive Level : Type := low | medium | high | ultra.

Record Performance : Type := {
  level : Level;
  maxIterations : Z;
  cores : Z;
  memory : float
}.

(** [navigator.hardwareConcurrency || 4]: 4 when the property is missing
    or 0. *)
Definition coresOr4 (hardwareConcurrency : option Z) : Z :=
  match hardwareConcurrency with
  | Some c => if (c =? 0)%Z then 4%Z else c
  | None => 4%Z
  end.

(** [navigator.deviceMemory || 4]: 4 when the property is missing, a zero
    or NaN. *)
Definition memoryOr4 (deviceMemory : option float) : float :=
  match deviceMemory with
  | Some m => if is_nan m || is_zero m then 4 else m
  | None => 4
  end.

Definition detectPerformance (hardwareConcurrency : option Z)
    (deviceMemory : option float) : Performance :=
  let cores := coresOr4 hardwareConcurrency in
  let memory := memoryOr4 deviceMemory in
  if (8 <=? cores)%Z && (8 <=? memory) then
    {| level := ultra; maxIterations := 8000; cores := cores; memory := memory |}
  else if (6 <=? cores)%Z && (6 <=? memory) then
    {| level := high; maxIterations := 4000; cores := cores; memory := memory |}
  else if (4 <=? cores)%Z && (4 <=? memory) then
    {| level := medium; maxIterations := 2000; cores := cores; memory := memory |}
  else
    {| level := low; maxIterations := 1000; cores := cores; memory := memory |}.

(** The fields the constructor sets, for a host with or without a WebGL
    context and a canvas already sized by [resizeCanvas]. *)
Definition construct (hardwareConcurrency : option Z) (deviceMemory : option float)
    (webgl : bool) (width height : Z) : Explorer.State float := {|
  Explorer.centerX := -0.5; Explorer.centerY := 0; Explorer.zoom := 0.5;
  Explorer.colorScheme := 0;
  Explorer.smoothing := true; Explorer.antialiasing := false;
  Explorer.adaptiveQuality := true;
  Explorer.qualityIterations := 2000;
  Explorer.maxIterations :=
    maxIterations (detectPerformance hardwareConcurrency deviceMemory);
  Explorer.useWebGL := webgl;
  Explorer.isRendering := false;
  Explorer.numWorkers := coresOr4 hardwareConcurrency;
  Explorer.canvasWidth := width; Explorer.canvasHeight := height
|}.
End Startup.

(** ** The event handlers

    Mouse, touch and wheel handlers, and the commands behind the buttons and
    keys.  Like [handleWheel] they only use [+ - * /], so they are stated
    over the arithmetic interface.  Every handler that changes the picture
    ends with [render]; of the fields modelled here a render can only
    change [isRendering], and [renderBusy] gives the flag a render leaves
    behind.  Workers are taken to answer before the next event. *)

Module Handlers.
Import Explorer.

Definition withColorScheme {F} (st : State F) (scheme : Z) : State F :=
  {| centerX := centerX st; centerY := centerY st; zoom := zoom st;
     colorScheme := scheme;
     smoothing := smoothing st; antialiasing := antialiasing st;
     adaptiveQuality := adaptiveQuality st;
     qualityIterations := qualityIterations st;
     maxIterations := maxIterations st;
     useWebGL := useWebGL st; isRendering := isRendering st;
     numWorkers := numWorkers st;
     canvasWidth := canvasWidth st; canvasHeight := canvasHeight st |}.

Definition withSmoothing {F} (st : State F) (s : bool) : State F :=
  {| centerX := centerX st; centerY := centerY st; zoom := zoom st;
     colorScheme := colorScheme st;
     smoothing := s; antialiasing := antialiasing st;
     adaptiveQuality := adaptiveQuality st;
     qualityIterations := qualityIterations st;
     maxIterations := maxIterations st;
     useWebGL := useWebGL st; isRendering := isRendering st;
     numWorkers := numWorkers st;
     canvasWidth := canvasWidth st; canvasHeight := canvasHeight st |}.

Definition withRendering {F} (st : State F) (busy : bool) : State F :=
  {| centerX := centerX st; centerY := centerY st; zoom := zoom st;
     colorScheme := colorScheme st;
     smoothing := smoothing st; antialiasing := antialiasing st;
     adaptiveQuality := adaptiveQuality st;
     qualityIterations := qualityIterations st;
     maxIterations := maxIterations st;
     useWebGL := useWebGL st; isRendering := busy;
     numWorkers := numWorkers st;
     canvasWidth := canvasWidth st; canvasHeight := canvasHeight st |}.

Definition withCanvas {F} (st : State F) (width height : Z) : State F :=
  {| centerX := centerX st; centerY := centerY st; zoom := zoom st;
     colorScheme := colorScheme st;
     smoothing := smoothing st; antialiasing := antialiasing st;
     adaptiveQuality := adaptiveQuality st;
     qualityIterations := qualityIterations st;
     maxIterations := maxIterations st;
     useWebGL := useWebGL st; isRendering := isRendering st;
     numWorkers := numWorkers st;
     canvasWidth := width; canvasHeight := height |}.

(** The drag bookkeeping: [isDragging], [lastMouseX], [lastMouseY]. *)
Record Drag (F : Type) : Type := {
  isDragging : bool;
  lastMouseX : F; lastMouseY : F
}.
Arguments isDragging {F}. Arguments lastMouseX {F}. Arguments lastMouseY {F}.

(** The commands behind the buttons and keys.  A colour scheme is the
    whole number a key stands for or a button carries in [data-scheme]. *)
Inductive Command : Type :=
| Reset
| SetColorScheme (scheme : Z)
| ToggleSmoothing
| ToggleAntialiasing.

Inductive Event (F : Type) : Type :=
| MouseDown (x y : F)
| MouseMove (x y : F)
| MouseUp                                  (* mouseup and mouseleave *)
| Wheel (e : WheelEvent F)
| TouchStart (touches : list (F * F))
| TouchMove (touches : list (F * F))
| TouchEnd
| Resize (innerWidth innerHeight : Z)      (* the window's new size *)
| Do (c : Command).
Arguments MouseDown {F}. Arguments MouseMove {F}. Arguments MouseUp {F}.
Arguments Wheel {F}. Arguments TouchStart {F}. Arguments TouchMove {F}.
Arguments TouchEnd {F}. Arguments Resize {F}. Arguments Do {F}.

Section Machine.
Context {F : Type} `{Arith F}.
Variable renderBusy : State F -> bool.
(* whether the page has a button with this [data-scheme] *)
Variable hasThemeButton : Z -> bool.
Local Open Scope arith_scope.

(** [this.render()], as far as the state goes. *)
Definition rendered (st : State F) : State F :=
  withRendering st (renderBusy st).

(** The two updates of [handleMouseMove] and [handleTouchMove]. *)
Definition pan (st : State F) (deltaX deltaY : F) : State F :=
  let w := n_int (canvasWidth st) in
  let h := n_int (canvasHeight st) in
  withView st
    (centerX st - deltaX / (zoom st * w / n_int 4))
    (centerY st + deltaY / (zoom st * h / n_int 4))
    (zoom st).

Definition handleMouseDown (d : Drag F) (x y : F) : Drag F :=
  {| isDragging := true; lastMouseX := x; lastMouseY := y |}.

Definition handleMouseMove (st : State F) (d : Drag F) (x y : F)
    : State F * Drag F :=
  if isDragging d then
    let deltaX := x - lastMouseX d in
    let deltaY := y - lastMouseY d in
    (rendered (pan st deltaX deltaY),
     {| isDragging := isDragging d; lastMouseX := x; lastMouseY := y |})
  else (st, d).

Definition handleMouseUp (d : Drag F) : Drag F :=
  {| isDragging := false; lastMouseX := lastMouseX d; lastMouseY := lastMouseY d |}.

Definition handleTouchStart (d : Drag F) (touches : list (F * F)) : Drag F :=
  match touches with
  | [(x, y)] => {| isDragging := true; lastMouseX := x; lastMouseY := y |}
  | _ => d
  end.

Definition handleTouchMove (st : State F) (d : Drag F) (touches : list (F * F))
    : State F * Drag F :=
  match touches with
  | [(x, y)] => handleMouseMove st d x y
  | _ => (st, d)
  end.

Definition reset (st : State F) : State F :=
  rendered (withView st (- n_lit 5 10) (n_int 0) (n_lit 5 10)).

(** Without a button for the scheme, [querySelector] gives [null] and the
    handler throws after the assignment, before [render]. *)
Definition setColorScheme (st : State F) (scheme : Z) : State F :=
  let st := withColorScheme st scheme in
  if hasThemeButton scheme then rendered st else st.

(** [resizeCanvas], with the quality scale 1.0. *)
Definition resizeCanvas (st : State F) (innerWidth innerHeight : Z) : State F :=
  rendered (withCanvas st innerWidth innerHeight).

Definition toggleSmoothing (st : State F) : State F :=
  rendered (withSmoothing st (negb (smoothing st))).

Definition toggleAntialiasing (st : State F) : State F :=
  rendered (withAntialiasing st (negb (antialiasing st))).

Definition command (st : State F) (c : Command) : State F :=
  match c with
  | Reset => reset st
  | SetColorScheme scheme => setColorScheme st scheme
  | ToggleSmoothing => toggleSmoothing st
  | ToggleAntialiasing => toggleAntialiasing st
  end.

Definition step (s : State F * Drag F) (ev : Event F) : State F * Drag F :=
  let '(st, d) := s in
  match ev with
  | MouseDown x y => (st, handleMouseDown d x y)
  | MouseMove x y => handleMouseMove st d x y
  | MouseUp => (st, handleMouseUp d)
  | Wheel e => (rendered (handleWheel st e), d)
  | TouchStart touches => (st, handleTouchStart d touches)
  | TouchMove touches => handleTouchMove st d touches
  | TouchEnd => (st, handleMouseUp d)
  | Resize w h => (resizeCanvas st w h, d)
  | Do c => (command st c, d)
  end.

Definition run (s : State F * Drag F) (evs : list (Event F)) : State F * Drag F :=
  fold_left step evs s.
End Machine.

(** *** What a render leaves in [isRendering] *)

Section Host.
Context {M : MathLib}.

(** [renderWebGL] does not touch the flag.  [renderCPU] returns at once
    when it is set; otherwise it sets it and clears it again after
    [putImageData], which an exception on the way prevents. *)
Definition renderBusy (st : State float) : bool :=
  if shouldUseGPU st then isRendering st
  else
    match renderCPU st with
    | Busy => true
    | IndexSizeError => true
    | TypeError => true
    | Drawn _ => false
    end.

(** The explorer once the constructor has run: [init] sizes the canvas,
    which renders, and schedules one more render.  The size the canvas
    element had before is not read. *)
Definition start (hardwareConcurrency : option Z) (deviceMemory : option float)
    (webgl : bool) (innerWidth innerHeight : Z) : State float * Drag float :=
  let st := Startup.construct hardwareConcurrency deviceMemory webgl 0 0 in
  let st := resizeCanvas renderBusy st innerWidth innerHeight in
  (rendered renderBusy st,
   {| isDragging := false; lastMouseX := 0%float; lastMouseY := 0%float |}).
End Host.
End Handlers.

(** ** The fragment shader

    The GLSL program of [setupWebGL].  A GPU's [highp] arithmetic is not
    bound to IEEE rounding, so the shader is stated over the arithmetic
    interface and a second interface for the comparisons and built-in
    functions it calls; what is proved holds for any implementation. *)

Module Shader.

Class GLSL (F : Type) : Type := {
  gl_ltb : F -> F -> bool;
  gl_leb : F -> F -> bool;
  gl_cos : F -> F;
  gl_log : F -> F;
  gl_mod : F -> F -> F;
  gl_mix : F -> F -> F -> F;
  gl_smoothstep : F -> F -> F -> F;
  gl_length : F * F -> F;
  gl_dot : F * F -> F * F -> F;
  (* what [uniform1f]/[uniform2f] and [uniform1i] make of a JS number *)
  gl_float_of_number : float -> F;
  gl_int_of_number : float -> Z
}.

Record Uniforms (F : Type) : Type := {
  u_resolution : F * F;
  u_center : F * F;
  u_zoom : F;
  u_iterations : Z;
  u_colorScheme : Z;
  u_smoothing : bool;
  u_time : F
}.
Arguments u_resolution {F}. Arguments u_center {F}. Arguments u_zoom {F}.
Arguments u_iterations {F}. Arguments u_colorScheme {F}.
Arguments u_smoothing {F}. Arguments u_time {F}.

Section Program.
Context {F : Type} {A : Arith F} {G : GLSL F}.
Local Open Scope arith_scope.

Definition vec2 : Type := F * F.
Definition vec3 : Type := F * F * F.
Definition vec4 : Type := F * F * F * F.

Definition vec3_of (x y z : F) : vec3 := (x, y, z).
Definition map3 (f : F -> F) (v : vec3) : vec3 :=
  let '(x, y, z) := v in (f x, f y, f z).
Definition zip3 (f : F -> F -> F) (u v : vec3) : vec3 :=
  let '(a, b, c) := u in let '(x, y, z) := v in (f a x, f b y, f c z).

Definition ESCAPE_RADIUS : F := n_int 256.
Definition LOG_2 : F := n_lit 6931471805599453 10000000000000000.

Definition complexSquare (z : vec2) : vec2 :=
  let '(x, y) := z in (x * x - y * y, n_int 2 * x * y).

Definition getSmoothIteration (u : Uniforms F) (z : vec2) (iterations : Z) : F :=
  if negb (u_smoothing u) then n_int iterations
  else
    let modulus := gl_length z in
    if gl_ltb (n_int 1) modulus then
      let nu := gl_log (gl_log modulus) / gl_log (n_int 2) in
      n_int iterations + n_int 1 - nu
    else n_int iterations.

Definition getClassicColor (t : F) : vec3 :=
  let a := vec3_of (n_lit 5 10) (n_lit 5 10) (n_lit 5 10) in
  let b := vec3_of (n_lit 5 10) (n_lit 5 10) (n_lit 5 10) in
  let c := vec3_of (n_int 1) (n_int 1) (n_int 1) in
  let d := vec3_of (n_int 0) (n_lit 10 100) (n_lit 20 100) in
  zip3 n_add a
    (zip3 n_mul b
       (map3 gl_cos
          (map3 (fun x => n_lit 628318 100000 * x)
             (zip3 n_add (map3 (fun x => x * t) c) d)))).

Definition mix3 (u v : vec3) (a : F) : vec3 :=
  zip3 (fun x y => gl_mix x y a) u v.

Definition getFireColor (t : F) : vec3 :=
  let t := gl_mod (t * n_int 3) (n_int 1) in
  if gl_ltb t (n_lit 33 100) then
    mix3 (vec3_of (n_int 0) (n_int 0) (n_int 0))
         (vec3_of (n_lit 8 10) (n_int 0) (n_int 0)) (t * n_int 3)
  else if gl_ltb t (n_lit 66 100) then
    mix3 (vec3_of (n_lit 8 10) (n_int 0) (n_int 0))
         (vec3_of (n_int 1) (n_lit 8 10) (n_int 0))
         ((t - n_lit 33 100) * n_int 3)
  else
    mix3 (vec3_of (n_int 1) (n_lit 8 10) (n_int 0))
         (vec3_of (n_int 1) (n_int 1) (n_lit 8 10))
         ((t - n_lit 66 100) * n_int 3).

Definition getOceanColor (t : F) : vec3 :=
  zip3 n_add
    (mix3 (vec3_of (n_int 0) (n_lit 7 100) (n_lit 15 100))
          (vec3_of (n_int 0) (n_lit 5 10) (n_lit 8 10))
          (gl_smoothstep (n_int 0) (n_int 1) t))
    (map3 (fun x => x * gl_cos (t * n_lit 1256 100))
          (vec3_of (n_int 0) (n_lit 2 10) (n_lit 3 10))).

Definition getPsychedelicColor (t : F) : vec3 :=
  map3 (fun x => n_lit 5 10 + x)
    (map3 (fun x => n_lit 5 10 * x)
       (map3 gl_cos
          (map3 (fun x => n_lit 628318 100000 * x)
             (map3 (fun x => t * n_int 3 + x)
                (vec3_of (n_int 0) (n_lit 33 100) (n_lit 67 100)))))).

Definition getMonochromeColor (t : F) : vec3 :=
  let s := gl_smoothstep (n_int 0) (n_int 1) t in (s, s, s).

(** One round of the loop of [getUltraSmoothColor], on [(color, freq, amp)]. *)
Definition ultraSmoothStep (t : F) (acc : vec3 * F * F) (i : Z) : vec3 * F * F :=
  let '(color, freq, amp) := acc in
  let a := vec3_of (n_lit 5 10) (n_lit 5 10) (n_lit 5 10) in
  let b := vec3_of (n_lit 5 10) (n_lit 5 10) (n_lit 5 10) in
  let c := vec3_of (n_int 1) (n_int 1) (n_lit 15 10) in
  let d := map3 (fun x => x + n_int i * n_lit 1 10)
             (vec3_of (n_int 0) (n_lit 1 10) (n_lit 2 10)) in
  let wave :=
    map3 (fun x => amp * x)
      (zip3 n_add a
         (zip3 n_mul b
            (map3 gl_cos
               (map3 (fun x => n_lit 628318 100000 * freq * x)
                  (zip3 n_add (map3 (fun x => x * t) c) d))))) in
  (zip3 n_add color wave, freq * n_int 2, amp * n_lit 5 10).

Definition getUltraSmoothColor (t : F) : vec3 :=
  let start := (vec3_of (n_int 0) (n_int 0) (n_int 0), n_int 1, n_int 1) in
  fst (fst (fold_left (ultraSmoothStep t) (seqZ 0 4) start)).

Definition getColor (u : Uniforms F) (t : F) : vec3 :=
  if u_colorScheme u =? 0 then getClassicColor t
  else if u_colorScheme u =? 1 then getFireColor t
  else if u_colorScheme u =? 2 then getOceanColor t
  else if u_colorScheme u =? 3 then getPsychedelicColor t
  else if u_colorScheme u =? 4 then getMonochromeColor t
  else getUltraSmoothColor t.

Definition black : vec4 := (n_int 0, n_int 0, n_int 0, n_int 1).

Definition cardioidTest (c : vec2) : bool :=
  let '(cx, cy) := c in
  let q := (cx - n_lit 25 100) * (cx - n_lit 25 100) + cy * cy in
  gl_leb (q * (q + (cx - n_lit 25 100))) (n_lit 25 100 * cy * cy).

Definition bulbTest (c : vec2) : bool :=
  let '(cx, cy) := c in
  gl_leb ((cx + n_int 1) * (cx + n_int 1) + cy * cy) (n_lit 625 10000).

Definition outside (z : vec2) : bool :=
  gl_ltb (ESCAPE_RADIUS * ESCAPE_RADIUS) (gl_dot z z).

Definition next (c z : vec2) : vec2 :=
  let '(x, y) := complexSquare z in (x + fst c, y + snd c).

(** The main loop: [fuel] rounds are left, [i] is the loop variable; the
    result is the final [iterations] and the number of rounds run. *)
Fixpoint mandelbrotLoop (c : vec2) (fuel : nat) (i : Z) (z : vec2)
    (iterations : Z) (steps : nat) : Z * nat :=
  match fuel with
  | O => (iterations, steps)
  | S fuel' =>
      let z := next c z in
      if outside z then (i, S steps)
      else mandelbrotLoop c fuel' (i + 1) z i (S steps)
  end.

(** [mandelbrot(c)], with the number of loop rounds it ran. *)
Definition mandelbrot (u : Uniforms F) (c : vec2) : vec4 * nat :=
  if cardioidTest c then (black, O)
  else if bulbTest c then (black, O)
  else
    let '(iterations, steps) :=
      mandelbrotLoop c (Z.to_nat 8000) 0 (n_int 0, n_int 0) 0 O in
    if 7999 <=? iterations then (black, steps)
    else
      let normalized := n_int iterations / n_int 8000 in
      let '(r, g, b) := getColor u normalized in
      ((r, g, b, n_int 1), steps).

(** The vertex shader's [main]: [gl_Position] and the varying
    [v_texCoord]. *)
Definition vertexMain (position : vec2) : vec4 * vec2 :=
  ((fst position, snd position, n_int 0, n_int 1),
   ((fst position + n_int 1) * n_lit 5 10, (snd position + n_int 1) * n_lit 5 10)).

(** The point [c] that the fragment shader's [main] computes for the
    fragment at [v_texCoord] ... *)
Definition fragmentPoint (u : Uniforms F) (v_texCoord : vec2) : vec2 :=
  let '(rx, ry) := u_resolution u in
  let aspectRatio := (rx / ry, n_int 1) in
  let uv := ((fst v_texCoord - n_lit 5 10) * n_int 2 * fst aspectRatio,
             (snd v_texCoord - n_lit 5 10) * n_int 2 * snd aspectRatio) in
  (fst (u_center u) + fst uv / u_zoom u,
   snd (u_center u) + snd uv / u_zoom u).

(** ... and [main] itself: [gl_FragColor = mandelbrot(c)]. *)
Definition main (u : Uniforms F) (v_texCoord : vec2) : vec4 * nat :=
  mandelbrot u (fragmentPoint u v_texCoord).

(** The uniforms [renderWebGL] sets, [now] being [performance.now()]. *)
Definition uniforms {M : MathLib} (st : Explorer.State float) (now : float)
    : Uniforms F := {|
  u_resolution := (gl_float_of_number (JS.num (Explorer.canvasWidth st)),
                   gl_float_of_number (JS.num (Explorer.canvasHeight st)));
  u_center := (gl_float_of_number (Explorer.centerX st),
               gl_float_of_number (Explorer.centerY st));
  u_zoom := gl_float_of_number (Explorer.zoom st);
  u_iterations := gl_int_of_number (Explorer.iterationsWebGL st);
  u_colorScheme := Explorer.colorScheme st;
  u_smoothing := Explorer.smoothing st;
  u_time := gl_float_of_number (PrimFloat.div now 1000%float)
|}.

(** The colour [renderWebGL] puts at a fragment. *)
Definition renderWebGL {M : MathLib} (st : Explorer.State float) (now : float)
    (v_texCoord : vec2) : vec4 :=
  fst (main (uniforms st now) v_texCoord).
End Program.
End Shader.

(** ** Vocabulary of the further statements *)

(** The four bytes of pixel [(x, y)] in a buffer of rows [width] pixels
    wide. *)
Definition pixelAt (width : Z) (buf : list Z) (x y : Z) : Z * Z * Z * Z :=
  let idx := (y * width + x) * 4 in
  (JS.get buf idx, JS.get buf (idx + 1), JS.get buf (idx + 2), JS.get buf (idx + 3)).

(** Whether a pixel lies in the rectangle a worker was asked for. *)
Definition inRequest (p : Worker.Params) (x y : Z) : bool :=
  (Worker.startX p <=? x) && (x <? Worker.endX p) &&
  (Worker.startY p <=? y) && (y <? Worker.endY p).

(** Events that come without a button or a single finger held down:
    pointer motion, releases, and touches with any number of fingers
    but one. *)
Definition hovering {F : Type} (ev : Handlers.Event F) : bool :=
  match ev with
  | Handlers.MouseMove _ _ | Handlers.MouseUp | Handlers.TouchEnd => true
  | Handlers.TouchStart touches | Handlers.TouchMove touches =>
      negb (length touches =? 1)%nat
  | _ => false
  end.

(** Events that leave the canvas with pixels: every event but a resize to
    a window without width or height. *)
Definition keepsPixels {F : Type} (ev : Handlers.Event F) : bool :=
  match ev with
  | Handlers.Resize innerWidth innerHeight => (1 <=? innerWidth) && (1 <=? innerHeight)
  | _ => true
  end.

(** A state in which a CPU render draws: no render marked as running, a
    2d context, and pixels. *)
Definition ready (st : Explorer.State float) : Prop :=
  Explorer.isRendering st = false /\ Explorer.useWebGL st = false /\
  1 <= Explorer.canvasWidth st /\ 1 <= Explorer.canvasHeight st.

(** The fields no handler assigns. *)
Definition settings {F : Type} (st : Explorer.State F) : Z * bool * Z * Z * bool :=
  (Explorer.numWorkers st, Explorer.adaptiveQuality st,
   Explorer.maxIterations st, Explorer.qualityIterations st,
   Explorer.useWebGL st).

(** The clip-space position of the canvas point [(x, y)], for a quad and a
    viewport that cover the canvas: [x] runs from 0 at the left edge to
    [width] at the right one, [y] from 0 at the top to [height] at the
    bottom, and clip space has its second axis pointing up. *)
Definition clipPosition (width height x y : R) : R * R :=
  (2 * x / width - 1, 1 - 2 * y / height)%R.

(** ** Further concrete inputs *)

(** The drag state the constructor sets. *)
Definition idle {F : Type} `{Arith F} : Handlers.Drag F :=
  {| Handlers.isDragging := false;
     Handlers.lastMouseX := n_int 0; Handlers.lastMouseY := n_int 0 |}.

(** The initial view on an 800 x 600 canvas, with exact coordinates. *)
Definition exactInitial : Explorer.State R := {|
  Explorer.centerX := (- (1 / 2))%R; Explorer.centerY := 0%R;
  Explorer.zoom := (1 / 2)%R;
  Explorer.colorScheme := 0;
  Explorer.smoothing := true; Explorer.antialiasing := false;
  Explorer.adaptiveQuality := true;
  Explorer.qualityIterations := 2000;
  Explorer.maxIterations := 2000;
  Explorer.useWebGL := false;
  Explorer.isRendering := false;
  Explorer.numWorkers := 4;
  Explorer.canvasWidth := 800; Explorer.canvasHeight := 600
|}.

(** A reference GPU for evaluating the shader on concrete inputs: binary64
    arithmetic, and the built-in functions by the formulas of the GLSL
    specification. *)
Module RefGLSL.
Local Open Scope float_scope.

Definition clamp01 (x : float) : float := JS.Math_min (JS.Math_max x 0) 1.

#[export] Instance gpu : Shader.GLSL float := {
  Shader.gl_ltb := PrimFloat.ltb;
  Shader.gl_leb := PrimFloat.leb;
  Shader.gl_cos := RefMath.ref_cos;
  Shader.gl_log := RefMath.ref_log;
  Shader.gl_mod := fun x y => x - y * JS.Math_floor (x / y);
  Shader.gl_mix := fun x y a => x * (1 - a) + y * a;
  Shader.gl_smoothstep := fun e0 e1 x =>
    let t := clamp01 ((x - e0) / (e1 - e0)) in t * t * (3 - 2 * t);
  Shader.gl_length := fun v => PrimFloat.sqrt (fst v * fst v + snd v * snd v);
  Shader.gl_dot := fun u v => fst u * fst v + snd u * snd v;
  Shader.gl_float_of_number := fun x => x;
  Shader.gl_int_of_number := JS.floorZ
}.
End RefGLSL.

(** ** Binary64 values as whole numbers

    Every finite binary64 value is a whole multiple of [2^-1074].  The
    rounding analysis of the wheel handler measures values and rounding
    errors in that unit. *)
Module Binary64.
Local Open Scope Z_scope.

Definition scaledSF (x : spec_float) : Z :=
  match x with
  | S754_finite s m e => cond_Zopp s (Z.pos m * 2 ^ (e + 1074))
  | _ => 0
  end.

Definition finiteSF (x : spec_float) : bool :=
  match x with
  | S754_finite _ _ _ | S754_zero _ => true
  | _ => false
  end.

Definition exponentSF (x : spec_float) : Z :=
  match x with
  | S754_finite _ _ e => e
  | _ => - 1074
  end.

(** The value of a Number in units of [2^-1074] (0 for NaN and the
    infinities), [Number.isFinite], and the binary exponent of the last
    place. *)
Definition scaled (x : float) : Z := scaledSF (Prim2SF x).
Definition isFinite (x : float) : bool := finiteSF (Prim2SF x).
Definition exponent (x : float) : Z := exponentSF (Prim2SF x).

(** [r] is what rounding to nearest makes of the exact value [V]: for the
    exponent [t] of the last place that [V] calls for, either the result
    overflows, or it is finite and within half a unit of that place. *)
Definition roundsTo (V : Z) (r : spec_float) : Prop :=
  exists t,
    - 1074 <= t /\
    (t = - 1074 \/ 2 ^ (52 + t + 1074) <= Z.abs V) /\
    (((exists s, r = S754_infinity s) /\ 971 <= t) \/
     (finiteSF r = true /\
      2 * Z.abs (scaledSF r - V) <= 2 ^ (t + 1074) /\
      t <= exponentSF r)).
End Binary64.


(** * Properties *)

(** ** Sanity checks of the Number helpers on literals *)

Example floor_ex1 : JS.Math_floor 2.5 = 2%float. Proof. reflexivity. Qed.
Example floor_ex2 : JS.Math_floor (-2.5) = (-3)%float. Proof. reflexivity. Qed.
Example floor_ex3 : JS.Math_floor (-0.5) = (-1)%float. Proof. reflexivity. Qed.
Example floor_ex4 : JS.Math_floor 255.9 = 255%float. Proof. reflexivity. Qed.
Example floor_ex5 : JS.Math_floor 1e300 = 1e300%float. Proof. reflexivity. Qed.
Example floor_ex6 : JS.Math_floor 0.3 = 0%float. Proof. reflexivity. Qed.
Example rem_ex1 : JS.rem1 2.75 = 0.75%float. Proof. reflexivity. Qed.
Example rem_ex2 : JS.rem1 3 = 0%float. Proof. reflexivity. Qed.
Example clamp_ex : map JS.ToUint8Clamp [0.5; 1.5; 2.5; 300; (-3); 254.6]%float = [0; 2; 2; 255; 0; 255].
Proof. reflexivity. Qed.
Example max_ex : JS.Math_max 1 0 = 1%float /\ JS.Math_min 2000 3500 = 2000%float. Proof. split; reflexivity. Qed.
Example lit_09 : n_lit 9 10 = 0.9%float. Proof. reflexivity. Qed.
Example lit_11 : n_lit 11 10 = 1.1%float. Proof. reflexivity. Qed.
Example lit_025 : n_lit 25 100 = 0.25%float. Proof. reflexivity. Qed.
Example lit_00625 : n_lit 625 10000 = 0.0625%float. Proof. reflexivity. Qed.
Example ref_log2_256 : RefMath.ref_log2 256 = 8%float. Proof. reflexivity. Qed.
Example ref_log2_8 : RefMath.ref_log2 8 = 3%float. Proof. reflexivity. Qed.
Example ref_log10_1 : RefMath.ref_log10 1 = 0%float. Proof. reflexivity. Qed.

(** ** The evaluator and the palette on the design document's test points *)

Example origin_is_interior :
  Worker.escaped 1 (Worker.evaluate 0 0 1) = false /\
  Worker.escaped 1000 (Worker.evaluate 0 0 1000) = false.
Proof. split; reflexivity. Qed.

Example far_point_escapes :
  Worker.evaluate 2 2 1000 = Worker.Iterated 2 (-94) 42 3 /\
  Worker.escaped 1000 (Worker.evaluate 2 2 1000) = true.
Proof. split; reflexivity. Qed.

Example monochrome_ends (M : MathLib) :
  Worker.getColor 0 4 = (0, 0, 0)%float /\
  Worker.getColor 1 4 = (255, 255, 255)%float.
Proof. split; reflexivity. Qed.

(** ** Band partition *)

Section Bands.
Import Explorer.
Local Open Scope Z_scope.

Lemma rowsPerWorker_ceil height n :
  0 < n ->
  n * (rowsPerWorker height n - 1) < height <= n * rowsPerWorker height n.
Proof.
  intros Hn. unfold rowsPerWorker.
  pose proof (Z.div_mod (- height) n ltac:(lia)) as Hd.
  pose proof (Z.mod_pos_bound (- height) n Hn) as Hm.
  nia.
Qed.

(** The [k]-th element of the dispatch loop's list, when it exists. *)
Lemma bandLoop_lookup fuel : forall i rows height k s e,
  0 <= rows -> 0 <= i ->
  bandLoop fuel i rows height !! k = Some (s, e) <->
  (k < fuel)%nat /\ s = (i + Z.of_nat k) * rows /\
  e = Z.min ((i + Z.of_nat k + 1) * rows) height /\ s < height.
Proof.
  induction fuel as [|fuel IH]; intros i rows height k s e Hrows Hi; simpl.
  - split; [discriminate | lia].
  - destruct (Z.leb_spec height (i * rows)) as [Hbreak|Hgo].
    + split; [discriminate|]. intros (_ & -> & _ & Hs). nia.
    + destruct k as [|k]; simpl.
      * split.
        -- intros [= <- <-]. repeat split; try lia; f_equal; lia.
        -- intros (_ & -> & -> & _). do 2 f_equal; lia.
      * rewrite IH by lia. split.
        -- intros (Hk & -> & -> & Hs). repeat split; try lia; f_equal; lia.
        -- intros (Hk & -> & -> & Hs). repeat split; try lia; f_equal; lia.
Qed.

Lemma bandLoop_length_le fuel : forall i rows height,
  (length (bandLoop fuel i rows height) <= fuel)%nat.
Proof.
  induction fuel as [|fuel IH]; intros i rows height; simpl; [lia|].
  destruct (height <=? i * rows); simpl; [lia|]. specialize (IH (i + 1) rows height). lia.
Qed.

Lemma bands_lookup height n k s e :
  0 <= height -> 1 <= n ->
  bands height n !! k = Some (s, e) <->
  Z.of_nat k < n /\ s = Z.of_nat k * rowsPerWorker height n /\
  e = Z.min ((Z.of_nat k + 1) * rowsPerWorker height n) height /\ s < height.
Proof.
  intros Hh Hn. unfold bands.
  pose proof (rowsPerWorker_ceil height n ltac:(lia)) as Hc.
  rewrite bandLoop_lookup by nia.
  rewrite !Z.add_0_l. split; intros (? & ? & ? & ?); repeat split; auto; lia.
Qed.
End Bands.

(** C7: for every [height >= 0] and [parallelism >= 1] the dispatch loop of
    [renderCPU] produces contiguous, non-overlapping bands of
    [ceil(height / parallelism)] rows (the last one possibly shorter, bands
    starting past the end not sent) whose union is exactly [0 .. height). *)
Theorem C7_bands_partition (height n : Z) :
  0 <= height -> 1 <= n -> BandsPartition height n.
Proof.
  intros Hh Hn. unfold BandsPartition.
  set (rows := Explorer.rowsPerWorker height n).
  pose proof (rowsPerWorker_ceil height n ltac:(lia)) as Hc. fold rows in Hc.
  assert (Hlook : forall k s e,
    Explorer.bands height n !! k = Some (s, e) <->
    Z.of_nat k < n /\ s = Z.of_nat k * rows /\
    e = Z.min ((Z.of_nat k + 1) * rows) height /\ s < height)
    by (intros; apply bands_lookup; lia).
  assert (Hrows : 0 <= rows) by nia.
  repeat split.
  - lia.
  - lia.
  - pose proof (bandLoop_length_le (Z.to_nat n) 0 rows height). unfold Explorer.bands. fold rows. lia.
  - apply Hlook in H. lia.
  - apply Hlook in H. nia.
  - apply Hlook in H. nia.
  - apply Hlook in H. lia.
  - apply Hlook in H. nia.
  - apply Hlook in H. intros [[s' e'] H']. apply Hlook in H'. nia.
  - intros s e H. apply Hlook in H. lia.
  - intros k s e s' e' H H'. apply Hlook in H, H'. nia.
  - intros s e H. rewrite last_lookup in H.
    set (k := Nat.pred (length (Explorer.bands height n))) in *.
    assert (Hnext : Explorer.bands height n !! S k = None)
      by (apply lookup_ge_None; lia).
    apply Hlook in H as (Hk & -> & -> & Hs).
    destruct (Z_lt_le_dec ((Z.of_nat k + 1) * rows) height) as [Hlt|Hge]; [|lia].
    exfalso.
    assert (Hsome : Explorer.bands height n !! S k =
            Some (Z.of_nat (S k) * rows,
                  Z.min ((Z.of_nat (S k) + 1) * rows) height)).
    { apply Hlook. repeat split; try nia. }
    congruence.
  - intros Hr.
    assert (0 < rows) by nia.
    exists (Z.to_nat (r / rows)), (r / rows * rows), (Z.min ((r / rows + 1) * rows) height).
    pose proof (Z.div_mod r rows ltac:(lia)) as Hd.
    pose proof (Z.mod_pos_bound r rows ltac:(lia)) as Hm.
    assert (0 <= r / rows) by (apply Z.div_pos; lia).
    split.
    + apply Hlook. rewrite Z2Nat.id by lia. repeat split; nia.
    + nia.
  - destruct H as (k & s & e & H & Hr). apply Hlook in H. nia.
  - destruct H as (k & s & e & H & Hr). apply Hlook in H. nia.
  - intros r k1 k2 s1 e1 s2 e2 H1 H2 Hr1 Hr2.
    apply Hlook in H1, H2.
    assert (0 < rows) by nia.
    assert (Z.of_nat k1 = Z.of_nat k2) by nia. lia.
Qed.

(** An 800 x 600 canvas on four workers satisfies the hypotheses. *)
Lemma C7_bands_partition_witness : BandsPartition 600 4.
Proof. apply C7_bands_partition; lia. Defined.

(** ** The scalar path never antialiases *)

(** C10: [renderCPU] does not read the [antialiasing] field.  Changing the
    flag of an application state changes neither the outcome of the CPU
    render nor any dispatched message; every message carries
    [antialiasing: false], so each worker takes the single sample offset
    (0, 0) and never the four-sample list. *)
Theorem C10_cpu_render_ignores_antialiasing (M : MathLib)
    (st : Explorer.State float) (a : bool) :
  Explorer.withAntialiasing st (Explorer.antialiasing st) = st /\
  Explorer.renderCPU (Explorer.withAntialiasing st a) = Explorer.renderCPU st /\
  Explorer.dispatched (Explorer.withAntialiasing st a) = Explorer.dispatched st /\
  Forall (fun p => Worker.antialiasing p = false /\
                   Worker.sampleOffsets (Worker.antialiasing p) = [(0, 0)%float])
         (Explorer.dispatched st).
Proof.
  split; [destruct st; reflexivity|].
  split; [reflexivity|].
  split; [reflexivity|].
  unfold Explorer.dispatched. apply Forall_map, Forall_true.
  intros band. split; reflexivity.
Qed.

(** ** The escape-time evaluator *)

Section Evaluator.
Import Worker Spec.
Local Open Scope float_scope.

Lemma orbit_S x y m :
  orbit x y (S m) =
  (fst (orbit x y m) * fst (orbit x y m) - snd (orbit x y m) * snd (orbit x y m) + x,
   2 * fst (orbit x y m) * snd (orbit x y m) + y).
Proof. simpl. destruct (orbit x y m); reflexivity. Qed.

Lemma mandelbrotLoop_S x y fuel i zr zi steps :
  mandelbrotLoop x y (S fuel) i zr zi steps =
  let z := (zr * zr - zi * zi + x, 2 * zr * zi + y) in
  if outside z then Iterated i (fst z) (snd z) (S steps)
  else mandelbrotLoop x y fuel (i + 1)%Z (fst z) (snd z) (S steps).
Proof. reflexivity. Qed.

(** The loop walks along the orbit: started on [z_m] with counter [m], it
    stops on the first [z_(n+1)] outside the escape disc with
    [iterations = n] ... *)
Lemma mandelbrotLoop_escape x y : forall fuel m n,
  (m <= n < m + fuel)%nat ->
  (forall k, (m <= k < n)%nat -> outside (orbit x y (S k)) = false) ->
  outside (orbit x y (S n)) = true ->
  mandelbrotLoop x y fuel (Z.of_nat m) (fst (orbit x y m)) (snd (orbit x y m)) m =
  Iterated (Z.of_nat n) (fst (orbit x y (S n))) (snd (orbit x y (S n))) (S n).
Proof.
  induction fuel as [|fuel IH]; intros m n Hn Hin Hout; [lia|].
  rewrite mandelbrotLoop_S, <- orbit_S. cbv zeta.
  destruct (Nat.eq_dec m n) as [->|Hne].
  - rewrite Hout. reflexivity.
  - rewrite Hin by lia.
    replace (Z.of_nat m + 1)%Z with (Z.of_nat (S m)) by lia.
    apply IH; [lia | intros; apply Hin; lia | assumption].
Qed.

(** ... and otherwise runs for the whole budget, leaving
    [iterations = m + fuel]. *)
Lemma mandelbrotLoop_exhaust x y : forall fuel m,
  (forall k, (m <= k < m + fuel)%nat -> outside (orbit x y (S k)) = false) ->
  mandelbrotLoop x y fuel (Z.of_nat m) (fst (orbit x y m)) (snd (orbit x y m)) m =
  Iterated (Z.of_nat (m + fuel)) (fst (orbit x y (m + fuel)))
           (snd (orbit x y (m + fuel))) (m + fuel).
Proof.
  induction fuel as [|fuel IH]; intros m Hin.
  - rewrite Nat.add_0_r. reflexivity.
  - rewrite mandelbrotLoop_S, <- orbit_S. cbv zeta.
    rewrite Hin by lia.
    replace (Z.of_nat m + 1)%Z with (Z.of_nat (S m)) by lia.
    rewrite IH by (intros; apply Hin; lia).
    replace (S m + fuel)%nat with (m + S fuel)%nat by lia. reflexivity.
Qed.

Lemma mandelbrotLoop_escape0 x y fuel n :
  (n < fuel)%nat ->
  (forall k, (k < n)%nat -> outside (orbit x y (S k)) = false) ->
  outside (orbit x y (S n)) = true ->
  mandelbrotLoop x y fuel 0%Z 0 0 O =
  Iterated (Z.of_nat n) (fst (orbit x y (S n))) (snd (orbit x y (S n))) (S n).
Proof.
  intros Hn Hin Hout.
  apply (mandelbrotLoop_escape x y fuel O n); [lia | intros; apply Hin; lia | assumption].
Qed.

Lemma mandelbrotLoop_exhaust0 x y fuel :
  (forall k, (k < fuel)%nat -> outside (orbit x y (S k)) = false) ->
  mandelbrotLoop x y fuel 0%Z 0 0 O =
  Iterated (Z.of_nat fuel) (fst (orbit x y fuel)) (snd (orbit x y fuel)) fuel.
Proof.
  intros Hin.
  apply (mandelbrotLoop_exhaust x y fuel O). intros; apply Hin; lia.
Qed.

Lemma evaluate_loop x y maxIterations :
  cardioidTest x y = false -> bulbTest x y = false ->
  evaluate x y maxIterations =
  mandelbrotLoop x y (Z.to_nat maxIterations) 0%Z 0 0 O.
Proof. intros Hc Hb. unfold evaluate. rewrite Hc, Hb. reflexivity. Qed.

(** A pixel whose only sample adds nothing to the totals is stored as
    opaque black. *)
Lemma pixelBytes_black (M : MathLib) p px py :
  antialiasing p = false ->
  sampleColor p (evaluate (fst (samplePoint p px py (0, 0)))
                          (snd (samplePoint p px py (0, 0)))
                          (maxIterations p)) = None ->
  pixelBytes p px py = (0, 0, 0, 255)%Z.
Proof.
  intros Ha Hs. unfold pixelBytes. rewrite Ha. simpl fold_left.
  unfold addSample. destruct (samplePoint p px py (0, 0)) as [x y].
  simpl in Hs. rewrite Hs. reflexivity.
Qed.
End Evaluator.

(** The worker's two tests are the regions of the design document, in
    binary64. *)
Lemma cardioidTest_is_inCardioid x y :
  Worker.cardioidTest x y = Spec.inCardioid PrimFloat.leb x y.
Proof. reflexivity. Qed.

Lemma bulbTest_is_inBulb x y :
  Worker.bulbTest x y = Spec.inBulb PrimFloat.leb x y.
Proof. reflexivity. Qed.

(** C5: a point [(x, y)] in the main cardioid,
    [q * (q + (x - 0.25)) <= 0.25 * y^2] with [q = (x - 0.25)^2 + y^2], or
    in the period-2 bulb, [(x + 1)^2 + y^2 <= 0.0625], both read in
    binary64, is left by [continue] before the iteration loop: no loop body
    runs, the sample is not escaped, it adds nothing to the colour totals,
    and a pixel sampled at that point alone is stored as opaque black. *)
Theorem C5_interior_tests_skip_loop (M : MathLib) (x y : float) (maxIterations : Z) :
  Spec.inCardioid PrimFloat.leb x y = true \/ Spec.inBulb PrimFloat.leb x y = true ->
  Worker.evaluate x y maxIterations = Worker.Skipped /\
  Worker.escaped maxIterations (Worker.evaluate x y maxIterations) = false /\
  Worker.loopSteps (Worker.evaluate x y maxIterations) = O /\
  (forall p, Worker.sampleColor p (Worker.evaluate x y maxIterations) = None) /\
  (forall p px py,
     Worker.maxIterations p = maxIterations ->
     Worker.antialiasing p = false ->
     Worker.samplePoint p px py (0, 0)%float = (x, y) ->
     Worker.pixelBytes p px py = (0, 0, 0, 255)).
Proof.
  intros Htest.
  rewrite <- cardioidTest_is_inCardioid, <- bulbTest_is_inBulb in Htest.
  assert (Hskip : Worker.evaluate x y maxIterations = Worker.Skipped).
  { unfold Worker.evaluate.
    destruct Htest as [-> | Hb]; [reflexivity|].
    rewrite Hb. destruct (Worker.cardioidTest x y); reflexivity. }
  rewrite Hskip. repeat split; try reflexivity.
  intros p px py Hmax Ha Hpt.
  apply pixelBytes_black; [assumption|].
  rewrite Hpt, Hmax. simpl. rewrite Hskip. reflexivity.
Qed.

(** The origin lies in the cardioid; the point -1 lies in the bulb and
    not in the cardioid.  For each, a one-pixel canvas centred so that its
    pixel is that point is stored as opaque black, after no loop step. *)
Lemma C5_interior_tests_skip_loop_witness :
  (Spec.inCardioid PrimFloat.leb 0%float 0%float = true /\
   Worker.evaluate 0%float 0%float 1000 = Worker.Skipped /\
   Worker.loopSteps (Worker.evaluate 0%float 0%float 1000) = O /\
   Worker.pixelBytes (M := RefMath.host) Inputs.originPixel 0 0 = (0, 0, 0, 255)) /\
  (Spec.inCardioid PrimFloat.leb (-1)%float 0%float = false /\
   Spec.inBulb PrimFloat.leb (-1)%float 0%float = true /\
   Worker.evaluate (-1)%float 0%float 1000 = Worker.Skipped /\
   Worker.loopSteps (Worker.evaluate (-1)%float 0%float 1000) = O /\
   Worker.pixelBytes (M := RefMath.host) Inputs.bulbPixel 0 0 = (0, 0, 0, 255)).
Proof.
  split.
  - split; [reflexivity|].
    pose proof (C5_interior_tests_skip_loop RefMath.host 0%float 0%float 1000 (or_introl eq_refl))
      as (H1 & _ & H3 & _ & H5).
    exact (conj H1 (conj H3 (H5 Inputs.originPixel 0 0 eq_refl eq_refl eq_refl))).
  - split; [reflexivity|]. split; [reflexivity|].
    pose proof (C5_interior_tests_skip_loop RefMath.host (-1)%float 0%float 1000 (or_intror eq_refl))
      as (H1 & _ & H3 & _ & H5).
    exact (conj H1 (conj H3 (H5 Inputs.bulbPixel 0 0 eq_refl eq_refl eq_refl))).
Defined.

(** C4: for a point that neither interior test catches, [evaluate] runs
    the loop along the orbit [z_0 = 0], [z_(n+1) = z_n^2 + c], counting one
    step per iteration.  It stops at the first [z_(n+1)] with
    [|z|^2 > 256], leaving [iterations = n < maxIterations] (escaped), or
    after [maxIterations] steps; in the latter case the sample is not
    escaped, no colour is computed for it, and its pixel is stored as opaque
    black. *)
Theorem C4_escape_time_loop (M : MathLib) (x y : float) (maxIterations : Z) :
  Worker.cardioidTest x y = false -> Worker.bulbTest x y = false ->
  0 <= maxIterations ->
  (forall n : nat,
     Z.of_nat n < maxIterations ->
     (forall k, (k < n)%nat -> Spec.outside (Spec.orbit x y (S k)) = false) ->
     Spec.outside (Spec.orbit x y (S n)) = true ->
     Worker.evaluate x y maxIterations =
       Worker.Iterated (Z.of_nat n) (fst (Spec.orbit x y (S n)))
                       (snd (Spec.orbit x y (S n))) (S n) /\
     Worker.escaped maxIterations (Worker.evaluate x y maxIterations) = true) /\
  ((forall k, Z.of_nat k < maxIterations ->
              Spec.outside (Spec.orbit x y (S k)) = false) ->
   Worker.evaluate x y maxIterations =
     Worker.Iterated maxIterations
       (fst (Spec.orbit x y (Z.to_nat maxIterations)))
       (snd (Spec.orbit x y (Z.to_nat maxIterations))) (Z.to_nat maxIterations) /\
   Worker.escaped maxIterations (Worker.evaluate x y maxIterations) = false /\
   (forall p, Worker.maxIterations p = maxIterations ->
      Worker.sampleColor p (Worker.evaluate x y maxIterations) = None) /\
   (forall p px py,
      Worker.maxIterations p = maxIterations ->
      Worker.antialiasing p = false ->
      Worker.samplePoint p px py (0, 0)%float = (x, y) ->
      Worker.pixelBytes p px py = (0, 0, 0, 255))).
Proof.
  intros Hc Hb Hmax. rewrite (evaluate_loop x y maxIterations Hc Hb). split.
  - intros n Hn Hin Hout.
    rewrite (mandelbrotLoop_escape0 x y (Z.to_nat maxIterations) n);
      [ | lia | assumption | assumption ].
    split; [reflexivity|]. simpl. lia.
  - intros Hin.
    rewrite (mandelbrotLoop_exhaust0 x y (Z.to_nat maxIterations))
      by (intros k Hk; apply Hin; lia).
    rewrite Z2Nat.id by lia.
    assert (Hnone : forall p, Worker.maxIterations p = maxIterations ->
      Worker.sampleColor p
        (Worker.Iterated maxIterations
           (fst (Spec.orbit x y (Z.to_nat maxIterations)))
           (snd (Spec.orbit x y (Z.to_nat maxIterations)))
           (Z.to_nat maxIterations)) = None).
    { intros p Hp. simpl. rewrite Hp, Z.ltb_irrefl. reflexivity. }
    split; [reflexivity|]. split; [simpl; lia|]. split; [exact Hnone|].
    intros p px py Hp Ha Hpt.
    apply pixelBytes_black; [assumption|].
    rewrite Hpt, Hp. simpl fst. simpl snd.
    rewrite (evaluate_loop x y maxIterations Hc Hb).
    rewrite (mandelbrotLoop_exhaust0 x y (Z.to_nat maxIterations))
      by (intros k Hk; apply Hin; lia).
    rewrite Z2Nat.id by lia.
    apply Hnone, Hp.
Qed.

(** The orbit of [Inputs.slowPoint] stays in the escape disc for 50
    steps. *)
Lemma slowPoint_stays k :
  Z.of_nat k < 50 ->
  Spec.outside (Spec.orbit (fst Inputs.slowPoint) (snd Inputs.slowPoint) (S k)) = false.
Proof.
  intros Hk.
  assert (Hall : forallb
            (fun k => negb (Spec.outside
               (Spec.orbit (fst Inputs.slowPoint) (snd Inputs.slowPoint) (S k))))
            (seq 0 50) = true) by (vm_compute; reflexivity).
  rewrite forallb_forall in Hall.
  apply negb_true_iff, Hall, in_seq. lia.
Qed.

(** The point (2, 2) leaves the escape disc at its third step; the pixel at
    [Inputs.slowPoint] exhausts its budget of 50 and is stored as opaque
    black. *)
Lemma C4_escape_time_loop_witness :
  (Worker.evaluate 2 2 3 = Worker.Iterated 2 (-94) 42 3 /\
   Worker.escaped 3 (Worker.evaluate 2 2 3) = true) /\
  (Worker.escaped 50
     (Worker.evaluate (fst Inputs.slowPoint) (snd Inputs.slowPoint) 50) = false /\
   Worker.loopSteps
     (Worker.evaluate (fst Inputs.slowPoint) (snd Inputs.slowPoint) 50) = 50%nat /\
   Worker.pixelBytes (M := RefMath.host) Inputs.slowPixel 0 0 = (0, 0, 0, 255)).
Proof.
  split.
  - refine (proj1 (C4_escape_time_loop RefMath.host 2 2 3 eq_refl eq_refl _) 2%nat _ _ _).
    + lia.
    + lia.
    + intros [|[|k]] Hk; [reflexivity | reflexivity | lia].
    + reflexivity.
  - destruct (proj2 (C4_escape_time_loop RefMath.host
                       (fst Inputs.slowPoint) (snd Inputs.slowPoint) 50
                       eq_refl eq_refl ltac:(lia)) slowPoint_stays)
      as (Hev & Hesc & _ & Hpix).
    split; [exact Hesc|]. split; [rewrite Hev; reflexivity|].
    exact (Hpix Inputs.slowPixel 0 0 eq_refl eq_refl eq_refl).
Defined.

(** ** Smooth iteration count *)

(** The claim as stated fails at the guard of [getSmoothIteration]: the
    point (256, 0) escapes at its first step, within a budget of one
    iteration, and with smoothing enabled its smooth count is the raw count
    0, not [0 + 1 - log2 (log2 256) = -2]. *)
Lemma C6_smooth_count_counterexample :
  Worker.evaluate 256 0 1 = Worker.Iterated 0 256 0 1 /\
  Worker.escaped 1 (Worker.evaluate 256 0 1) = true /\
  Worker.smoothIter (M := RefMath.host) (Inputs.onePixel 0 0 1 true) 256 0 0 = 0%float /\
  (0 + 1 - RefMath.ref_log2 (RefMath.ref_log2 (Worker.complexMagnitude 256 0))
   = -2)%float /\
  PrimFloat.eqb
    (Worker.smoothIter (M := RefMath.host) (Inputs.onePixel 0 0 1 true) 256 0 0)
    (0 + 1 - RefMath.ref_log2 (RefMath.ref_log2 (Worker.complexMagnitude 256 0)))
  = false.
Proof. repeat split; reflexivity. Qed.

(** C6 (amended): for an evaluation that escapes with
    [iterations < maxIterations], the colour is taken at
    [smoothIter / maxIterations], where with smoothing enabled [smoothIter]
    is [iterations + 1 - log2 (log2 |z|)] when
    [iterations < maxIterations - 1] and the raw count when
    [iterations = maxIterations - 1], and with smoothing disabled it is the
    raw count; [|z|] is the modulus of the value the loop stopped on. *)
Theorem C6_smooth_iteration_count (M : MathLib) (p : Worker.Params)
    (x y : float) (iterations : Z) (zr zi : float) (steps : nat) :
  Worker.evaluate x y (Worker.maxIterations p) = Worker.Iterated iterations zr zi steps ->
  iterations < Worker.maxIterations p ->
  (Worker.smoothing p = true -> iterations < Worker.maxIterations p - 1 ->
   Worker.smoothIter p zr zi iterations =
   (JS.num iterations + 1 - Math_log2 (Math_log2 (Worker.complexMagnitude zr zi)))%float) /\
  (Worker.smoothing p = true -> iterations = Worker.maxIterations p - 1 ->
   Worker.smoothIter p zr zi iterations = JS.num iterations) /\
  (Worker.smoothing p = false ->
   Worker.smoothIter p zr zi iterations = JS.num iterations) /\
  Worker.sampleColor p (Worker.evaluate x y (Worker.maxIterations p)) =
  Some (Worker.getColor
          (Worker.smoothIter p zr zi iterations / JS.num (Worker.maxIterations p))%float
          (Worker.colorScheme p)).
Proof.
  intros Hev Hlt. unfold Worker.smoothIter, Worker.getSmoothIteration.
  repeat split.
  - intros -> Hlt1.
    destruct (Z.leb_spec (Worker.maxIterations p - 1) iterations); [lia | reflexivity].
  - intros -> Heq.
    destruct (Z.leb_spec (Worker.maxIterations p - 1) iterations); [reflexivity | lia].
  - intros ->. reflexivity.
  - rewrite Hev. simpl.
    destruct (Z.ltb_spec iterations (Worker.maxIterations p)); [reflexivity | lia].
Qed.

(** The point (2, 2) under a budget of 100 iterations escapes with
    [iterations = 2]. *)
Lemma C6_smooth_iteration_count_witness :
  Worker.smoothIter (M := RefMath.host) (Inputs.onePixel 0 0 100 true) (-94) 42 2 =
  (JS.num 2 + 1 - RefMath.ref_log2 (RefMath.ref_log2 (Worker.complexMagnitude (-94) 42)))%float.
Proof.
  refine (proj1 (C6_smooth_iteration_count RefMath.host (Inputs.onePixel 0 0 100 true)
                   2 2 2 (-94) 42 3 eq_refl _) eq_refl _).
  - simpl. lia.
  - simpl. lia.
Defined.

(** ** Iteration budget *)

(** At [zoom = 1] under a ceiling of 2000 the accelerated path's budget is
    1000, not its lower bound 500, and the software path's budget is 2000,
    not its lower bound 1000. *)
Lemma C3_lower_bound_counterexample :
  Explorer.iterationsWebGL (M := RefMath.host) (Inputs.withZoom Inputs.initial 1) = 1000%float /\
  Explorer.iterationsCPU (M := RefMath.host) (Inputs.withZoom Inputs.initial 1) = 2000%float /\
  PrimFloat.eqb (Explorer.iterationsWebGL (M := RefMath.host) (Inputs.withZoom Inputs.initial 1)) 500 = false /\
  PrimFloat.eqb (Explorer.iterationsCPU (M := RefMath.host) (Inputs.withZoom Inputs.initial 1)) 1000 = false.
Proof. repeat split; reflexivity. Qed.

(** C3 (amended): with the adaptive policy on and a ceiling of 2000, on a
    host whose [Math.log10] returns 0 at 1 and 6 to within one unit in the
    last place at 1e6: at [zoom = 1] the budget is [base + step], that is
    1000 on the accelerated path and 2000 on the software path; at
    [zoom = 1e6] it is the ceiling 2000 on both. *)
Theorem C3_iteration_budget (M : MathLib) (st : Explorer.State float) :
  Explorer.adaptiveQuality st = true ->
  Explorer.maxIterations st = 2000 ->
  Math_log10 1 = 0%float ->
  Spec.within_one_ulp (Math_log10 1e6) 6 ->
  Explorer.iterationsWebGL (Inputs.withZoom st 1) = 1000%float /\
  Explorer.iterationsCPU (Inputs.withZoom st 1) = 2000%float /\
  Explorer.iterationsWebGL (Inputs.withZoom st 1e6) = 2000%float /\
  Explorer.iterationsCPU (Inputs.withZoom st 1e6) = 2000%float.
Proof.
  intros Ha Hmax H1 H6.
  unfold Explorer.iterationsWebGL, Explorer.iterationsCPU, Inputs.withZoom, Explorer.withView.
  simpl. rewrite Ha, Hmax, H1.
  destruct H6 as [-> | [-> | ->]]; repeat split; reflexivity.
Qed.

Lemma C3_iteration_budget_witness :
  Explorer.iterationsWebGL (M := RefMath.host) (Inputs.withZoom Inputs.initial 1) = 1000%float /\
  Explorer.iterationsCPU (M := RefMath.host) (Inputs.withZoom Inputs.initial 1) = 2000%float /\
  Explorer.iterationsWebGL (M := RefMath.host) (Inputs.withZoom Inputs.initial 1e6) = 2000%float /\
  Explorer.iterationsCPU (M := RefMath.host) (Inputs.withZoom Inputs.initial 1e6) = 2000%float.
Proof.
  apply (C3_iteration_budget RefMath.host Inputs.initial).
  - reflexivity.
  - reflexivity.
  - reflexivity.
  - right. left. reflexivity.
Defined.

(** ** Coordinate mapping *)

(** C2: the worker evaluates the design's mapping formula, but on the
    [zoom] it is sent, and [renderCPU] sends two hundred times the
    viewport's zoom.  On the initial 800 x 600 view (centre (-0.5, 0),
    zoom 0.5) pixel (0, 0) is sampled at (-0.52, 0.02), where the formula
    with the viewport's zoom gives (-4.5, 4). *)
Theorem C2_worker_maps_with_scaled_zoom (M : MathLib) :
  (forall (st : Explorer.State float) band px py off,
     Worker.samplePoint (Explorer.workerParams st band) px py off =
     Spec.mapPixelToComplex (JS.num px) (JS.num py) (fst off) (snd off)
       (JS.num (Explorer.canvasWidth st)) (JS.num (Explorer.canvasHeight st))
       (Explorer.centerX st, Explorer.centerY st, (Explorer.zoom st * 200)%float)) /\
  Worker.samplePoint (Explorer.workerParams Inputs.initial (0, 150)) 0 0 (0, 0)%float
  = (-0.52, 0.02)%float /\
  Spec.mapPixelToComplex (JS.num 0) (JS.num 0) 0%float 0%float
    (JS.num (Explorer.canvasWidth Inputs.initial))
    (JS.num (Explorer.canvasHeight Inputs.initial))
    (Explorer.centerX Inputs.initial, Explorer.centerY Inputs.initial,
     Explorer.zoom Inputs.initial)
  = (-4.5, 4)%float.
Proof. repeat split; reflexivity. Qed.

(** The same divergence in exact arithmetic: read over the reals, the
    worker's formula on the dispatched zoom and the design's formula on the
    viewport's zoom differ at that pixel. *)
Lemma worker_mapping_differs_over_reals :
  (pixelToComplexX (F := R) 0 0 800 (0.5 * 200) (-0.5) = -0.52)%R /\
  (fst (Spec.mapPixelToComplex (F := R) 0 0 0 0 800 600 (-0.5, 0, 0.5)) = -4.5)%R.
Proof. unfold pixelToComplexX, Spec.mapPixelToComplex; simpl; split; lra. Qed.

(** ** Palette range *)

(** C9: the Fire palette leaves the range.  At [t = 0.3333] the ramp
    position is [(3 t) % 1 = 0.9999], the last branch computes
    [p = (0.9999 - 0.66) * 3 > 1], and the green channel is
    [floor ((0.8 + 0.2 p) * 255) = 256].  The input is inside [0, 1], so
    the clamp does not change it. *)
Theorem C9_fire_palette_leaves_range (M : MathLib) :
  JS.Math_max 0%float (JS.Math_min 1%float 0.3333%float) = 0.3333%float /\
  Worker.getColor 0.3333%float 1 = (255, 256, 208)%float /\
  PrimFloat.ltb 255%float (snd (fst (Worker.getColor 0.3333%float 1))) = true.
Proof. repeat split; reflexivity. Qed.

(** ** Typed-array stores and the loops that perform them *)

Section Buffers.
Local Open Scope Z_scope.

Lemma get_set_ne buf i j v : i <> j -> JS.get (JS.set buf i v) j = JS.get buf j.
Proof.
  intros Hij. unfold JS.get, JS.set.
  destruct (Z.ltb_spec j 0); [reflexivity|].
  destruct (Z.ltb_spec i 0); [reflexivity|].
  rewrite list_lookup_insert_ne by lia. reflexivity.
Qed.

Lemma get_set_eq buf i v :
  0 <= i < Z.of_nat (length buf) -> JS.get (JS.set buf i v) i = v.
Proof.
  intros Hi. unfold JS.get, JS.set.
  destruct (Z.ltb_spec i 0); [lia|].
  rewrite list_lookup_insert_eq by lia. reflexivity.
Qed.

(** Storing the value a cell already holds, anywhere, leaves the cell
    as it is. *)
Lemma get_set_same buf i j v : JS.get buf j = v -> JS.get (JS.set buf i v) j = v.
Proof.
  intros Hj. destruct (Z.eq_dec i j) as [->|Hne]; [|rewrite get_set_ne; assumption].
  unfold JS.get, JS.set in *.
  destruct (Z.ltb_spec j 0); [assumption|].
  destruct (decide (Z.to_nat j < length buf)%nat) as [Hlt|Hge].
  - rewrite list_lookup_insert_eq by assumption. reflexivity.
  - rewrite list_insert_ge by lia. assumption.
Qed.

Lemma length_set buf i v : length (JS.set buf i v) = length buf.
Proof. unfold JS.set. destruct (i <? 0); [reflexivity | apply length_insert]. Qed.

Lemma get_blank n j : JS.get (replicate n 0) j = 0.
Proof.
  unfold JS.get. destruct (j <? 0); [reflexivity|].
  destruct (replicate n 0 !! Z.to_nat j) as [v|] eqn:Hv; [|reflexivity].
  apply lookup_replicate in Hv as [-> _]. reflexivity.
Qed.

(** Two ways a property of the accumulator survives a loop: every
    iteration preserves it, or one iteration establishes it and every
    iteration preserves it.  [I] is a side invariant (the buffer's
    length) and [Q] what is known of the loop variable. *)
Lemma fold_left_preserves {A B} (P : A -> Prop) (Q : B -> Prop)
    (f : A -> B -> A) (l : list B) :
  (forall a b, Q b -> P a -> P (f a b)) ->
  Forall Q l -> forall a, P a -> P (fold_left f l a).
Proof.
  intros Hstep HQ. induction HQ as [|b l Hb _ IH]; intros a Ha; simpl; auto.
Qed.

Lemma fold_left_establishes {A B} (I P : A -> Prop) (Q : B -> Prop)
    (f : A -> B -> A) (l : list B) (b0 : B) :
  (forall a b, Q b -> I a -> I (f a b)) ->
  (forall a b, Q b -> I a -> P a -> P (f a b)) ->
  (forall a, I a -> P (f a b0)) ->
  Forall Q l -> b0 ∈ l -> forall a, I a -> P (fold_left f l a).
Proof.
  intros HI HP H0 HQ. induction HQ as [|b l Hb HQ IH]; intros Hin a Ha.
  - inversion Hin.
  - simpl. apply elem_of_cons in Hin as [<- | Hin].
    + apply (fold_left_preserves (fun a => I a /\ P a) Q f l); auto.
      intros a' b' Hb' [HIa HPa]. split; auto.
    + apply IH; auto.
Qed.
End Buffers.

(** ** What a worker writes, and what the assembly reads *)

Section Assembly.
Context {M : MathLib}.
Local Open Scope Z_scope.

Lemma writePixel_stores p py buf px :
  exists r g b,
    Worker.writePixel p py buf px =
    let idx := (py * Worker.width p + px) * 4 in
    JS.set (JS.set (JS.set (JS.set buf idx r) (idx + 1) g) (idx + 2) b) (idx + 3) 255.
Proof.
  unfold Worker.writePixel, Worker.pixelBytes.
  destruct (fold_left _ _ _) as [[tr tg] tb]. eauto.
Qed.

Lemma writePixel_length p py buf px :
  length (Worker.writePixel p py buf px) = length buf.
Proof.
  destruct (writePixel_stores p py buf px) as (r & g & b & ->).
  cbv zeta. rewrite !length_set. reflexivity.
Qed.

(** A worker never writes below its first row ... *)
Lemma writePixel_below p py buf px j :
  0 <= Worker.width p -> 0 <= px ->
  j < py * Worker.width p * 4 ->
  JS.get (Worker.writePixel p py buf px) j = JS.get buf j.
Proof.
  intros Hw Hpx Hj.
  destruct (writePixel_stores p py buf px) as (r & g & b & ->).
  cbv zeta. rewrite !get_set_ne by lia. reflexivity.
Qed.

(** ... every alpha byte it stores is 255, at the pixel's own position on
    the canvas. *)
Lemma writePixel_alpha_kept p py buf px q :
  JS.get buf (q * 4 + 3) = 255 ->
  JS.get (Worker.writePixel p py buf px) (q * 4 + 3) = 255.
Proof.
  intros Hq.
  destruct (writePixel_stores p py buf px) as (r & g & b & ->).
  cbv zeta. apply get_set_same.
  rewrite !get_set_ne by lia. assumption.
Qed.

Lemma writePixel_alpha p py buf px :
  0 <= (py * Worker.width p + px) * 4 + 3 < Z.of_nat (length buf) ->
  JS.get (Worker.writePixel p py buf px) ((py * Worker.width p + px) * 4 + 3) = 255.
Proof.
  intros Hin.
  destruct (writePixel_stores p py buf px) as (r & g & b & ->).
  cbv zeta. apply get_set_eq. rewrite !length_set. assumption.
Qed.

Lemma writeRow_length p buf py :
  length (Worker.writeRow p buf py) = length buf.
Proof.
  unfold Worker.writeRow.
  apply (fold_left_preserves (fun b => length b = length buf) (fun _ => True)).
  - intros a b _ Ha. rewrite writePixel_length. assumption.
  - apply Forall_true. trivial.
  - reflexivity.
Qed.

Lemma calculateMandelbrot_length p :
  InCanvas p (Worker.calculateMandelbrot p).
Proof.
  unfold Worker.calculateMandelbrot, InCanvas.
  apply (fold_left_preserves
           (fun b => length b = Z.to_nat (Worker.width p * Worker.height p * 4))
           (fun _ => True)).
  - intros a b _ Ha. rewrite writeRow_length. assumption.
  - apply Forall_true. trivial.
  - apply length_replicate.
Qed.

(** The rows above the band stay as allocated: zero. *)
Lemma calculateMandelbrot_below p j :
  0 <= Worker.width p -> 0 <= Worker.startX p ->
  j < Worker.startY p * Worker.width p * 4 ->
  JS.get (Worker.calculateMandelbrot p) j = 0.
Proof.
  intros Hw Hx Hj. unfold Worker.calculateMandelbrot.
  apply (fold_left_preserves (fun b => JS.get b j = 0)
           (fun py => Worker.startY p <= py)).
  - intros buf py Hpy Hbuf. unfold Worker.writeRow.
    apply (fold_left_preserves (fun b => JS.get b j = 0)
             (fun px => Worker.startX p <= px)); [ | | assumption].
    + intros a px Hpx Ha. rewrite writePixel_below; [assumption | lia | lia | nia].
    + apply Forall_seqZ. intros; lia.
  - apply Forall_seqZ. intros; lia.
  - apply get_blank.
Qed.

(** Each pixel of the band is present, at its canvas position, in the
    buffer the worker returns. *)
Lemma calculateMandelbrot_alpha p y x :
  0 <= Worker.width p -> 0 <= Worker.startX p -> 0 <= Worker.startY p ->
  Worker.endX p <= Worker.width p -> Worker.endY p <= Worker.height p ->
  Worker.startY p <= y < Worker.endY p ->
  Worker.startX p <= x < Worker.endX p ->
  JS.get (Worker.calculateMandelbrot p) ((y * Worker.width p + x) * 4 + 3) = 255.
Proof.
  intros Hw Hsx Hsy Hex Hey Hy Hx. unfold Worker.calculateMandelbrot.
  set (P := fun b : list Z => JS.get b ((y * Worker.width p + x) * 4 + 3) = 255).
  assert (Hkeep : forall a py, P a -> P (Worker.writeRow p a py)).
  { intros a py Ha. unfold Worker.writeRow.
    apply (fold_left_preserves P (fun _ => True));
      [ | apply Forall_true; trivial | assumption].
    intros a' px _ Ha'. apply writePixel_alpha_kept. assumption. }
  apply (fold_left_establishes (InCanvas p) P (fun _ => True) _ _ y).
  - intros a b _ Ha. unfold InCanvas. rewrite writeRow_length. exact Ha.
  - intros a py _ _ Ha. apply Hkeep, Ha.
  - intros a Ha. unfold Worker.writeRow.
    apply (fold_left_establishes (InCanvas p) P (fun _ => True) _ _ x).
    + intros a' b _ Ha'. unfold InCanvas. rewrite writePixel_length. exact Ha'.
    + intros a' px _ _ Ha'. apply writePixel_alpha_kept. assumption.
    + intros a' Ha'. apply writePixel_alpha. unfold InCanvas in Ha'. rewrite Ha'. nia.
    + apply Forall_true. trivial.
    + apply elem_of_seqZ. lia.
    + assumption.
  - apply Forall_true. trivial.
  - apply elem_of_seqZ. lia.
  - unfold InCanvas. apply length_replicate.
Qed.
End Assembly.

Section Combine.
Context {M : MathLib}.
Local Open Scope Z_scope.

Lemma copyPixel_stores width result y image x :
  Explorer.copyPixel width result y image x =
  let data := Worker.imageData result in
  let srcIdx := ((y - Worker.r_startY result) * width + x) * 4 in
  let dstIdx := (y * width + x) * 4 in
  JS.set (JS.set (JS.set (JS.set image dstIdx (JS.get data srcIdx))
                         (dstIdx + 1) (JS.get data (srcIdx + 1)))
                 (dstIdx + 2) (JS.get data (srcIdx + 2)))
         (dstIdx + 3) (JS.get data (srcIdx + 3)).
Proof. reflexivity. Qed.

(** The copy reads a band's pixels from the start of the returned buffer:
    row [y] of the image is filled from row [y - startY] of the data. *)
Lemma copyPixel_blank width result y image x T :
  0 <= width -> 0 <= x < width ->
  Worker.r_startY result <= y ->
  (y + 1) * width * 4 <= T \/
  ZeroBelow ((y - Worker.r_startY result + 1) * width * 4) (Worker.imageData result) ->
  BlankFrom T image -> BlankFrom T (Explorer.copyPixel width result y image x).
Proof.
  intros Hw Hx Hy Hcase Himg j Hj. rewrite copyPixel_stores. cbv zeta.
  destruct Hcase as [Hlow | Hzero].
  - rewrite !get_set_ne by nia. apply Himg, Hj.
  - rewrite (Hzero (((y - Worker.r_startY result) * width + x) * 4)) by nia.
    rewrite (Hzero (((y - Worker.r_startY result) * width + x) * 4 + 1)) by nia.
    rewrite (Hzero (((y - Worker.r_startY result) * width + x) * 4 + 2)) by nia.
    rewrite (Hzero (((y - Worker.r_startY result) * width + x) * 4 + 3)) by nia.
    do 4 apply get_set_same. apply Himg, Hj.
Qed.

Lemma copyResult_blank width rows image result :
  0 <= width -> Harmless width rows result ->
  BlankFrom (rows * width * 4) image ->
  BlankFrom (rows * width * 4) (Explorer.copyResult width image result).
Proof.
  intros Hw Hres Himg. unfold Explorer.copyResult.
  apply (fold_left_preserves (BlankFrom (rows * width * 4))
           (fun y => Worker.r_startY result <= y < Worker.r_endY result));
    [ | apply Forall_seqZ; intros; lia | assumption].
  intros img y Hy Hblank. unfold Explorer.copyRow.
  apply (fold_left_preserves (BlankFrom (rows * width * 4))
           (fun x => 0 <= x < width));
    [ | apply Forall_seqZ; intros; lia | assumption].
  intros img' x Hx Hblank'.
  apply copyPixel_blank; [lia | lia | lia | | assumption].
  destruct Hres as [[Hs He] | (Hs & He & Hz)].
  - left. nia.
  - right. intros j Hj. apply Hz. nia.
Qed.

Lemma results_harmless (st : Explorer.State float) :
  1 <= Explorer.numWorkers st ->
  0 <= Explorer.canvasWidth st -> 0 <= Explorer.canvasHeight st ->
  Forall (Harmless (Explorer.canvasWidth st)
            (Explorer.rowsPerWorker (Explorer.canvasHeight st) (Explorer.numWorkers st)))
         (Explorer.results st).
Proof.
  intros Hn Hw Hh. unfold Explorer.results, Explorer.dispatched.
  rewrite <- list_fmap_compose. apply Forall_fmap, Forall_lookup.
  intros k [s e] Hk. apply bands_lookup in Hk as (Hkn & -> & -> & Hs); [ | lia | lia].
  pose proof (rowsPerWorker_ceil (Explorer.canvasHeight st) (Explorer.numWorkers st)
                ltac:(lia)) as Hc.
  set (rows := Explorer.rowsPerWorker _ _) in *.
  assert (0 <= rows) by nia.
  unfold Harmless. simpl.
  destruct k as [|k].
  - left. lia.
  - right. repeat split; [nia | nia | ].
    intros j Hj. apply calculateMandelbrot_below; simpl; [lia | lia | nia].
Qed.

(** *** The first band

    The first band is the one case in which the two layouts coincide: its
    rows start at the top of the worker's buffer. *)

Lemma get_set_copy data image i j :
  JS.get image j = JS.get data j ->
  JS.get (JS.set image i (JS.get data i)) j = JS.get data j.
Proof.
  intros Hj. destruct (Z.eq_dec i j) as [->|Hne].
  - apply get_set_same, Hj.
  - rewrite get_set_ne by assumption. exact Hj.
Qed.

Lemma copyPixel_length width result y image x :
  length (Explorer.copyPixel width result y image x) = length image.
Proof. rewrite copyPixel_stores. cbv zeta. rewrite !length_set. reflexivity. Qed.

Lemma copyRow_length width result image y :
  length (Explorer.copyRow width result image y) = length image.
Proof.
  unfold Explorer.copyRow.
  apply (fold_left_preserves (fun b => length b = length image) (fun _ => True)).
  - intros a b _ Ha. rewrite copyPixel_length. assumption.
  - apply Forall_true. trivial.
  - reflexivity.
Qed.

Lemma copyPixel_first_kept width result y image x j :
  Worker.r_startY result = 0 ->
  JS.get image j = JS.get (Worker.imageData result) j ->
  JS.get (Explorer.copyPixel width result y image x) j
  = JS.get (Worker.imageData result) j.
Proof.
  intros Hs Hj. rewrite copyPixel_stores. cbv zeta. rewrite Hs, Z.sub_0_r.
  do 4 apply get_set_copy. exact Hj.
Qed.

Lemma copyPixel_first_set width result y image x c :
  Worker.r_startY result = 0 -> 0 <= c < 4 ->
  0 <= (y * width + x) * 4 /\ (y * width + x) * 4 + 3 < Z.of_nat (length image) ->
  JS.get (Explorer.copyPixel width result y image x) ((y * width + x) * 4 + c)
  = JS.get (Worker.imageData result) ((y * width + x) * 4 + c).
Proof.
  intros Hs Hc Hin. rewrite copyPixel_stores. cbv zeta. rewrite Hs, Z.sub_0_r.
  assert (Hcases : c = 0 \/ c = 1 \/ c = 2 \/ c = 3) by lia.
  destruct Hcases as [-> | [-> | [-> | ->]]]; rewrite ?Z.add_0_r.
  - rewrite !get_set_ne by lia. apply get_set_eq. lia.
  - rewrite !get_set_ne by lia. apply get_set_eq. rewrite !length_set. lia.
  - rewrite !get_set_ne by lia. apply get_set_eq. rewrite !length_set. lia.
  - apply get_set_eq. rewrite !length_set. lia.
Qed.

(** A later band's copy stays at or below its own first row. *)
Lemma copyResult_above width image result j :
  0 <= width -> j < Worker.r_startY result * width * 4 ->
  JS.get (Explorer.copyResult width image result) j = JS.get image j.
Proof.
  intros Hw Hj. unfold Explorer.copyResult.
  apply (fold_left_preserves (fun b => JS.get b j = JS.get image j)
           (fun y => Worker.r_startY result <= y));
    [ | apply Forall_seqZ; intros; lia | reflexivity].
  intros img y Hy Himg. unfold Explorer.copyRow.
  apply (fold_left_preserves (fun b => JS.get b j = JS.get image j)
           (fun x => 0 <= x));
    [ | apply Forall_seqZ; intros; lia | assumption].
  intros img' x Hx Himg'. rewrite copyPixel_stores. cbv zeta.
  rewrite !get_set_ne by nia. assumption.
Qed.

Lemma copyResult_first width height image result y x c :
  0 <= width ->
  Worker.r_startY result = 0 -> Worker.r_endY result <= height ->
  length image = Z.to_nat (width * height * 4) ->
  0 <= y < Worker.r_endY result -> 0 <= x < width -> 0 <= c < 4 ->
  JS.get (Explorer.copyResult width image result) ((y * width + x) * 4 + c)
  = JS.get (Worker.imageData result) ((y * width + x) * 4 + c).
Proof.
  intros Hw Hs He Hlen Hy Hx Hc. unfold Explorer.copyResult. rewrite Hs, Z.sub_0_r.
  set (j := (y * width + x) * 4 + c).
  set (P := fun b : list Z => JS.get b j = JS.get (Worker.imageData result) j).
  set (I := fun b : list Z => length b = Z.to_nat (width * height * 4)).
  apply (fold_left_establishes I P (fun _ => True) _ _ y).
  - intros a b _ Ha. unfold I. rewrite copyRow_length. exact Ha.
  - intros a y' _ _ Ha. unfold Explorer.copyRow.
    apply (fold_left_preserves P (fun _ => True));
      [ | apply Forall_true; trivial | assumption].
    intros a' x' _ Ha'. apply copyPixel_first_kept; assumption.
  - intros a Ha. unfold Explorer.copyRow.
    apply (fold_left_establishes I P (fun _ => True) _ _ x).
    + intros a' b _ Ha'. unfold I. rewrite copyPixel_length. exact Ha'.
    + intros a' x' _ _ Ha'. apply copyPixel_first_kept; assumption.
    + intros a' Ha'. apply copyPixel_first_set; [assumption | assumption | ].
      unfold I in Ha'. rewrite Ha'. nia.
    + apply Forall_true. trivial.
    + apply elem_of_seqZ. lia.
    + assumption.
  - apply Forall_true. trivial.
  - apply elem_of_seqZ. lia.
  - exact Hlen.
Qed.

(** The rows of the first band reach the image as the worker computed
    them. *)
Lemma first_band_delivered (st : Explorer.State float) :
  Explorer.isRendering st = false ->
  Explorer.useWebGL st = false ->
  1 <= Explorer.numWorkers st ->
  1 <= Explorer.canvasWidth st -> 1 <= Explorer.canvasHeight st ->
  exists image r0,
    Explorer.renderCPU st = Explorer.Drawn image /\
    Explorer.results st !! 0%nat = Some r0 /\
    Worker.r_startY r0 = 0 /\
    forall y x c,
      0 <= y < Worker.r_endY r0 -> 0 <= x < Explorer.canvasWidth st -> 0 <= c < 4 ->
      JS.get image ((y * Explorer.canvasWidth st + x) * 4 + c)
      = JS.get (Worker.imageData r0) ((y * Explorer.canvasWidth st + x) * 4 + c).
Proof.
  intros Hbusy Hgl Hn Hw Hh.
  set (w := Explorer.canvasWidth st) in *.
  set (h := Explorer.canvasHeight st) in *.
  set (rows := Explorer.rowsPerWorker h (Explorer.numWorkers st)).
  pose proof (rowsPerWorker_ceil h (Explorer.numWorkers st) ltac:(lia)) as Hc.
  fold rows in Hc.
  assert (Hrows : 0 < rows) by nia.
  assert (Hlook : forall k s e,
    Explorer.bands h (Explorer.numWorkers st) !! k = Some (s, e) <->
    Z.of_nat k < Explorer.numWorkers st /\ s = Z.of_nat k * rows /\
    e = Z.min ((Z.of_nat k + 1) * rows) h /\ s < h)
    by (intros; apply bands_lookup; lia).
  assert (Hres : forall k r, Explorer.results st !! k = Some r ->
    exists s e, Explorer.bands h (Explorer.numWorkers st) !! k = Some (s, e) /\
                r = Worker.onmessage (Explorer.workerParams st (s, e))).
  { intros k r Hr. unfold Explorer.results, Explorer.dispatched in Hr.
    rewrite <- list_fmap_compose, list_lookup_fmap in Hr. fold h in Hr.
    destruct (Explorer.bands h (Explorer.numWorkers st) !! k) as [[s e]|];
      [ | discriminate].
    simpl in Hr. injection Hr as <-. eauto. }
  assert (Hrender : Explorer.renderCPU st =
    Explorer.Drawn (fold_left (Explorer.copyResult w) (Explorer.results st)
                              (Explorer.blankImage w h))).
  { unfold Explorer.renderCPU. rewrite Hbusy.
    destruct (Z.leb_spec (Explorer.numWorkers st) 0); [lia|]. fold w h.
    destruct (Z.leb_spec w 0); [lia|]. destruct (Z.leb_spec h 0); [lia|].
    cbn [orb]. cbv zeta. rewrite Hgl. reflexivity. }
  destruct (Explorer.results st) as [|r0 rest] eqn:Hrs.
  { exfalso.
    assert (Hb0 : Explorer.bands h (Explorer.numWorkers st) !! 0%nat
                  = Some (0, Z.min ((0 + 1) * rows) h))
      by (apply Hlook; repeat split; lia).
    assert (Hr0 : Explorer.results st !! 0%nat <> None).
    { unfold Explorer.results, Explorer.dispatched.
      rewrite <- list_fmap_compose, list_lookup_fmap. fold h. rewrite Hb0. discriminate. }
    rewrite Hrs in Hr0. apply Hr0. reflexivity. }
  destruct (Hres 0%nat r0 eq_refl) as (s0 & e0 & Hb0 & Hr0).
  apply Hlook in Hb0 as (_ & Hs0 & He0 & _).
  exists (fold_left (Explorer.copyResult w) (r0 :: rest) (Explorer.blankImage w h)), r0.
  split; [exact Hrender|]. split; [reflexivity|].
  assert (Hstart : Worker.r_startY r0 = 0) by (rewrite Hr0; simpl; lia).
  assert (Hend : Worker.r_endY r0 = Z.min rows h) by (rewrite Hr0; simpl; lia).
  split; [exact Hstart|].
  intros y x c Hy Hx Hc4. simpl fold_left.
  set (j := (y * w + x) * 4 + c).
  apply (fold_left_preserves
           (fun b => JS.get b j = JS.get (Worker.imageData r0) j)
           (fun r => Z.min rows h <= Worker.r_startY r)).
  - intros img r Hr Himg. rewrite copyResult_above; [assumption | lia | ].
    unfold j. nia.
  - apply Forall_lookup. intros k r Hk.
    destruct (Hres (S k) r Hk) as (s & e & Hb & ->).
    apply Hlook in Hb as (_ & -> & _ & _). simpl. nia.
  - apply (copyResult_first w h); try lia.
    unfold Explorer.blankImage. apply length_replicate.
Qed.
End Combine.

(** C1: the assembly does not deliver the pixels of any band but the
    first.  A worker stores its band at the band's own rows of a buffer
    sized for the whole canvas; the assembly reads the band from the first
    rows of that buffer.  On a host without WebGL, where the CPU path has
    a 2d context to draw on: for every band after the first, the worker's
    buffer holds alpha 255 at each pixel of the band, and the image that is
    drawn holds 0 in all four bytes of that pixel. *)
Theorem C1_lower_bands_are_blank (M : MathLib) (st : Explorer.State float) :
  Explorer.isRendering st = false ->
  Explorer.useWebGL st = false ->
  1 <= Explorer.numWorkers st ->
  1 <= Explorer.canvasWidth st -> 1 <= Explorer.canvasHeight st ->
  LowerBandsBlank st.
Proof.
  intros Hbusy Hgl Hn Hw Hh. unfold LowerBandsBlank. cbv zeta.
  set (w := Explorer.canvasWidth st) in *.
  set (h := Explorer.canvasHeight st) in *.
  set (rows := Explorer.rowsPerWorker h (Explorer.numWorkers st)).
  eexists. split.
  - unfold Explorer.renderCPU. rewrite Hbusy.
    destruct (Z.leb_spec (Explorer.numWorkers st) 0); [lia|].
    fold w h.
    destruct (Z.leb_spec w 0); [lia|]. destruct (Z.leb_spec h 0); [lia|].
    cbn [orb]. cbv zeta. rewrite Hgl. reflexivity.
  - intros k r Hk1 Hr.
    unfold Explorer.results, Explorer.dispatched in Hr.
    rewrite <- list_fmap_compose, list_lookup_fmap in Hr. fold h in Hr.
    destruct (Explorer.bands h (Explorer.numWorkers st) !! k) as [[s e]|] eqn:Hk;
      [ | discriminate].
    simpl in Hr. injection Hr as <-. simpl.
    pose proof Hk as Hband.
    apply bands_lookup in Hband as (Hkn & Hs & He & Hsh); [ | lia | lia].
    fold rows in Hs, He.
    pose proof (rowsPerWorker_ceil h (Explorer.numWorkers st) ltac:(lia)) as Hc.
    fold rows in Hc.
    assert (0 < rows) by nia.
    split; [reflexivity|].
    split.
    { pose proof (calculateMandelbrot_length (Explorer.workerParams st (s, e))) as Hlen.
      unfold InCanvas in Hlen. exact Hlen. }
    intros y x Hy Hx. split.
    + apply calculateMandelbrot_alpha; simpl; fold w h; lia.
    + intros c Hc4.
      assert (Hblank : BlankFrom (rows * w * 4)
                (fold_left (Explorer.copyResult w) (Explorer.results st)
                           (Explorer.blankImage w h))).
      { apply (fold_left_preserves (BlankFrom (rows * w * 4)) (Harmless w rows)).
        - intros img r Hr Himg. apply copyResult_blank; [lia | assumption | assumption].
        - apply results_harmless; lia.
        - intros j _. apply get_blank. }
      apply Hblank. nia.
Qed.

(** The initial view on an 800 x 600 canvas and four workers: rows 150 to
    599 are drawn blank. *)
Lemma C1_lower_bands_are_blank_witness :
  LowerBandsBlank (M := RefMath.host) Inputs.initial.
Proof.
  apply C1_lower_bands_are_blank;
    [reflexivity | reflexivity | simpl; lia | simpl; lia | simpl; lia].
Defined.

(** The smallest failing input, evaluated: a canvas of one column and two
    rows on two workers.  The second worker returns its pixel in bytes
    4 to 7 of its buffer; the image keeps bytes 4 to 7 at zero. *)
Lemma renderCPU_two_rows :
  map Worker.imageData (Explorer.results (M := RefMath.host) Inputs.tiny)
    = [[0; 18; 38; 255; 0; 0; 0; 0]; [0; 0; 0; 0; 0; 18; 38; 255]] /\
  Explorer.renderCPU (M := RefMath.host) Inputs.tiny
    = Explorer.Drawn [0; 18; 38; 255; 0; 0; 0; 0].
Proof. split; vm_compute; reflexivity. Qed.

(** * Beyond the design document: the rest of the code *)

(** ** The order of binary64 values

    [<?] and [<=?] on primitive floats are the IEEE comparisons; these are
    the order facts the clamps and thresholds of the program rest on. *)

Section FloatOrder.
Local Open Scope Z_scope.

Lemma SFcompare_antisym x y :
  SFcompare y x = option_map CompOpp (SFcompare x y).
Proof.
  destruct x as [sx|sx| |sx mx ex], y as [sy|sy| |sy my ey]; simpl;
    try reflexivity;
    try (destruct sx; reflexivity); try (destruct sy; reflexivity);
    try (destruct sx, sy; reflexivity).
  change (Pos.compare_cont Eq my mx) with (Pos.compare my mx).
  change (Pos.compare_cont Eq mx my) with (Pos.compare mx my).
  rewrite (Z.compare_antisym ex ey), (Pos.compare_antisym mx my).
  destruct sx, sy; simpl; try reflexivity;
    destruct (ex ?= ey); simpl; try reflexivity;
    destruct (mx ?= my)%positive; reflexivity.
Qed.

Lemma SFcompare_refl x : x <> S754_nan -> SFcompare x x = Some Eq.
Proof.
  destruct x as [s|s| |s m e]; simpl; intros Hx; try congruence.
  - destruct s; reflexivity.
  - change (Pos.compare_cont Eq m m) with (Pos.compare m m).
    rewrite Z.compare_refl, Pos.compare_refl. destruct s; reflexivity.
Qed.

Lemma SFcompare_None x y :
  SFcompare x y = None <-> x = S754_nan \/ y = S754_nan.
Proof.
  split.
  - destruct x as [sx|sx| |sx mx ex], y as [sy|sy| |sy my ey]; simpl; auto;
      try discriminate; try (destruct sx; discriminate);
      try (destruct sx, sy; discriminate);
      destruct sx, sy; try discriminate;
      destruct (ex ?= ey); try discriminate;
      destruct (Pos.compare_cont Eq mx my); discriminate.
  - intros [-> | ->]; [reflexivity | destruct x; reflexivity].
Qed.

Lemma SFleb_trans x y z :
  SFleb x y = true -> SFleb y z = true -> SFleb x z = true.
Proof.
  unfold SFleb.
  destruct x as [sx|sx| |sx mx ex], y as [sy|sy| |sy my ey], z as [sz|sz| |sz mz ez];
    simpl; try discriminate; try reflexivity;
    try (destruct sx; simpl; try discriminate; try reflexivity);
    try (destruct sy; simpl; try discriminate; try reflexivity);
    try (destruct sz; simpl; try discriminate; try reflexivity).
  all: change (Pos.compare_cont Eq ?a ?b) with (Pos.compare a b).
  all: destruct (Z.compare_spec ex ey), (Z.compare_spec ey ez), (Z.compare_spec ex ez);
       try lia; try discriminate; try reflexivity; subst.
  all: destruct (Pos.compare_spec mx my), (Pos.compare_spec my mz), (Pos.compare_spec mx mz);
       simpl; try lia; try discriminate; try reflexivity.
Qed.

Local Open Scope float_scope.

Lemma is_nan_spec x : is_nan x = true <-> Prim2SF x = S754_nan.
Proof.
  unfold is_nan. rewrite FloatAxioms.eqb_spec. unfold SFeqb. split.
  - intros Hx. destruct (Prim2SF x) eqn:E; try reflexivity;
      rewrite SFcompare_refl in Hx by discriminate; discriminate.
  - intros ->. reflexivity.
Qed.

Lemma is_nan_false x : is_nan x = false <-> Prim2SF x <> S754_nan.
Proof.
  rewrite <- is_nan_spec. destruct (is_nan x); split; congruence.
Qed.

Lemma leb_trans x y z : (x <=? y) = true -> (y <=? z) = true -> (x <=? z) = true.
Proof. rewrite !FloatAxioms.leb_spec. apply SFleb_trans. Qed.

Lemma leb_not_nan x y : (x <=? y) = true -> is_nan x = false /\ is_nan y = false.
Proof.
  rewrite FloatAxioms.leb_spec, !is_nan_false. unfold SFleb. intros Hxy.
  split; intros E; rewrite E in Hxy;
    [|destruct (Prim2SF x)]; discriminate.
Qed.

Lemma ltb_leb x y : (x <? y) = true -> (x <=? y) = true.
Proof.
  rewrite FloatAxioms.ltb_spec, FloatAxioms.leb_spec. unfold SFltb, SFleb.
  destruct (SFcompare _ _) as [[]|]; congruence.
Qed.

(** Of two comparable values, one is at most the other or strictly above
    it, never both. *)
Lemma ltb_flip x y :
  is_nan x = false -> is_nan y = false -> (y <? x) = negb (x <=? y).
Proof.
  rewrite !is_nan_false, FloatAxioms.ltb_spec, FloatAxioms.leb_spec. unfold SFltb, SFleb. intros Hx Hy.
  rewrite (SFcompare_antisym (Prim2SF x) (Prim2SF y)).
  destruct (SFcompare (Prim2SF x) (Prim2SF y)) as [[]|] eqn:E; try reflexivity.
  apply SFcompare_None in E. tauto.
Qed.

Lemma leb_refl x : is_nan x = false -> (x <=? x) = true.
Proof.
  rewrite is_nan_false, FloatAxioms.leb_spec. unfold SFleb. intros Hx.
  rewrite SFcompare_refl by assumption. reflexivity.
Qed.

Lemma ltb_leb_trans x y z : (x <? y) = true -> (y <=? z) = true -> (x <? z) = true.
Proof.
  intros Hxy Hyz.
  destruct (leb_not_nan _ _ (ltb_leb _ _ Hxy)) as [Hx _].
  destruct (leb_not_nan _ _ Hyz) as [Hy Hz].
  rewrite (ltb_flip z x) by assumption.
  destruct (z <=? x) eqn:Hzx; [|reflexivity].
  pose proof (leb_trans _ _ _ Hyz Hzx) as Hyx.
  rewrite (ltb_flip y x) in Hxy by assumption. rewrite Hyx in Hxy. discriminate.
Qed.

Lemma leb_ltb_trans x y z : (x <=? y) = true -> (y <? z) = true -> (x <? z) = true.
Proof.
  intros Hxy Hyz.
  destruct (leb_not_nan _ _ Hxy) as [Hx Hy].
  destruct (leb_not_nan _ _ (ltb_leb _ _ Hyz)) as [_ Hz].
  rewrite (ltb_flip z x) by assumption.
  destruct (z <=? x) eqn:Hzx; [|reflexivity].
  pose proof (leb_trans _ _ _ Hzx Hxy) as Hzy.
  rewrite (ltb_flip z y) in Hyz by assumption. rewrite Hzy in Hyz. discriminate.
Qed.
End FloatOrder.

(** ** Start-up *)

Section StartupFacts.
Import Startup.
Local Open Scope Z_scope.

Lemma tier_condition_monotone (k : Z) (kf : float) (c c' : Z) (m m' : float) :
  c <= c' -> (m <=? m')%float = true ->
  (k <=? c) && (kf <=? m)%float = true ->
  (k <=? c') && (kf <=? m')%float = true.
Proof.
  intros Hc Hm Hk. apply andb_true_iff in Hk as [Hk1 Hk2].
  apply andb_true_iff. split.
  - apply Z.leb_le. apply Z.leb_le in Hk1. lia.
  - apply (leb_trans _ _ _ Hk2 Hm).
Qed.

(** A four-core host that does not report its memory and has no WebGL is
    the state the statements above start from. *)
Example construct_initial :
  construct (Some 4) None false 800 600 = Inputs.initial.
Proof. reflexivity. Qed.

Lemma detectPerformance_tiers hc dm :
  In (maxIterations (detectPerformance hc dm)) [1000; 2000; 4000; 8000].
Proof.
  unfold detectPerformance.
  repeat (destruct (_ && _); [simpl; tauto|]). simpl; tauto.
Qed.

(** X1: [detectPerformance] is monotone: a host that reports at least as many
    cores and at least as much memory as another (after the defaults for
    missing values) is never given a lower iteration ceiling. *)
Theorem detectPerformance_monotone (hc hc' : option Z) (dm dm' : option float) :
  coresOr4 hc <= coresOr4 hc' ->
  (memoryOr4 dm <=? memoryOr4 dm')%float = true ->
  maxIterations (detectPerformance hc dm)
    <= maxIterations (detectPerformance hc' dm').
Proof.
  intros Hc Hm. unfold detectPerformance.
  pose proof (fun k kf => tier_condition_monotone k kf _ _ _ _ Hc Hm) as T.
  destruct ((8 <=? coresOr4 hc) && (8 <=? memoryOr4 dm)%float) eqn:E1;
    [rewrite (T _ _ E1); simpl; clear; lia|].
  destruct ((8 <=? coresOr4 hc') && (8 <=? memoryOr4 dm')%float);
    [repeat destruct (_ && _); simpl; clear; lia|].
  destruct ((6 <=? coresOr4 hc) && (6 <=? memoryOr4 dm)%float) eqn:E2;
    [rewrite (T _ _ E2); simpl; clear; lia|].
  destruct ((6 <=? coresOr4 hc') && (6 <=? memoryOr4 dm')%float);
    [repeat destruct (_ && _); simpl; clear; lia|].
  destruct ((4 <=? coresOr4 hc) && (4 <=? memoryOr4 dm)%float) eqn:E3;
    [rewrite (T _ _ E3); simpl; clear; lia|].
  repeat destruct (_ && _); simpl; clear; lia.
Qed.

Lemma detectPerformance_monotone_witness :
  maxIterations (detectPerformance (Some 4) None)
    <= maxIterations (detectPerformance (Some 12) (Some 8%float)).
Proof.
  apply detectPerformance_monotone.
  - simpl. lia.
  - reflexivity.
Defined.
End StartupFacts.

(** ** The buffer a worker returns *)

Section WorkerBuffer.
Context {M : MathLib}.
Local Open Scope Z_scope.

Lemma pixel_index_inj w px py x y :
  0 <= px < w -> 0 <= x < w -> py * w + px = y * w + x -> py = y /\ px = x.
Proof. intros Hpx Hx He. assert (py = y) by nia. subst. lia. Qed.

(** The four stores of one pixel leave every other pixel as it was ... *)
Lemma writePixel_other p py buf px x y :
  0 <= px < Worker.width p -> 0 <= x < Worker.width p ->
  (px, py) <> (x, y) ->
  pixelAt (Worker.width p) (Worker.writePixel p py buf px) x y
  = pixelAt (Worker.width p) buf x y.
Proof.
  intros Hpx Hx Hne.
  assert (Hidx : py * Worker.width p + px <> y * Worker.width p + x).
  { intros He. apply pixel_index_inj in He as [-> ->]; [congruence | lia | lia]. }
  destruct (writePixel_stores p py buf px) as (r & g & b & ->).
  unfold pixelAt. cbv zeta. rewrite !get_set_ne by lia. reflexivity.
Qed.

(** ... and put [pixelBytes] at the pixel's own place. *)
Lemma writePixel_self p py buf px :
  0 <= (py * Worker.width p + px) * 4 ->
  (py * Worker.width p + px) * 4 + 3 < Z.of_nat (length buf) ->
  pixelAt (Worker.width p) (Worker.writePixel p py buf px) px py
  = Worker.pixelBytes p px py.
Proof.
  intros H0 H3. unfold Worker.writePixel, pixelAt.
  destruct (Worker.pixelBytes p px py) as [[[r g] b] a]. cbv zeta.
  repeat f_equal.
  - rewrite !get_set_ne by lia. apply get_set_eq. lia.
  - rewrite !get_set_ne by lia. apply get_set_eq. rewrite !length_set. lia.
  - rewrite !get_set_ne by lia. apply get_set_eq. rewrite !length_set. lia.
  - apply get_set_eq. rewrite !length_set. lia.
Qed.

Lemma writePixel_keeps p py buf px x y :
  0 <= px < Worker.width p -> 0 <= py < Worker.height p ->
  0 <= x < Worker.width p ->
  InCanvas p buf ->
  pixelAt (Worker.width p) buf x y = Worker.pixelBytes p x y ->
  pixelAt (Worker.width p) (Worker.writePixel p py buf px) x y
  = Worker.pixelBytes p x y.
Proof.
  intros Hpx Hpy Hx Hbuf Hxy.
  destruct (decide ((px, py) = (x, y))) as [[= -> ->]|Hne].
  - apply writePixel_self; unfold InCanvas in Hbuf; rewrite ?Hbuf; nia.
  - rewrite writePixel_other by assumption. exact Hxy.
Qed.

Lemma calculateMandelbrot_pixel (p : Worker.Params) x y :
  0 <= Worker.startX p -> Worker.endX p <= Worker.width p ->
  0 <= Worker.startY p -> Worker.endY p <= Worker.height p ->
  0 <= x < Worker.width p -> 0 <= y < Worker.height p ->
  pixelAt (Worker.width p) (Worker.calculateMandelbrot p) x y
  = if inRequest p x y then Worker.pixelBytes p x y else (0, 0, 0, 0).
Proof.
  intros Hsx Hex Hsy Hey Hx Hy.
  set (w := Worker.width p) in *.
  set (rowQ := fun py => Worker.startY p <= py < Worker.endY p).
  set (colQ := fun px => Worker.startX p <= px < Worker.endX p).
  assert (HrowQ : Forall rowQ (seqZ (Worker.startY p) (Worker.endY p - Worker.startY p)))
    by (apply Forall_seqZ; intros; unfold rowQ; lia).
  assert (HcolQ : Forall colQ (seqZ (Worker.startX p) (Worker.endX p - Worker.startX p)))
    by (apply Forall_seqZ; intros; unfold colQ; lia).
  assert (HlenRow : forall a py, InCanvas p a -> InCanvas p (Worker.writeRow p a py)).
  { intros a py Ha. unfold InCanvas. rewrite writeRow_length. exact Ha. }
  assert (HlenPix : forall a py px, InCanvas p a -> InCanvas p (Worker.writePixel p py a px)).
  { intros a py px Ha. unfold InCanvas. rewrite writePixel_length. exact Ha. }
  unfold Worker.calculateMandelbrot.
  destruct (inRequest p x y) eqn:Hin.
  - unfold inRequest in Hin.
    apply andb_true_iff in Hin as [Hin Hin4]. apply andb_true_iff in Hin as [Hin Hin3].
    apply andb_true_iff in Hin as [Hin1 Hin2].
    set (P := fun b : list Z => pixelAt w b x y = Worker.pixelBytes p x y).
    assert (Hkeep : forall a py, rowQ py -> InCanvas p a -> P a ->
                      P (Worker.writeRow p a py)).
    { intros a py Hpy Ha HP. unfold Worker.writeRow.
      refine (proj2 (fold_left_preserves (fun b => InCanvas p b /\ P b) colQ
                       _ _ _ HcolQ a (conj Ha HP))).
      intros a' px Hpx [Ha' HP']. split; [apply HlenPix, Ha'|].
      apply writePixel_keeps; unfold colQ, rowQ in *; fold w; try lia; assumption. }
    apply (fold_left_establishes (InCanvas p) P rowQ _ _ y).
    + intros a py _ Ha. apply HlenRow, Ha.
    + exact Hkeep.
    + intros a Ha. unfold Worker.writeRow.
      apply (fold_left_establishes (InCanvas p) P colQ _ _ x).
      * intros a' px _ Ha'. apply HlenPix, Ha'.
      * intros a' px Hpx Ha' HP'.
        apply writePixel_keeps; unfold colQ in *; fold w; try lia; assumption.
      * intros a' Ha'. apply writePixel_self; unfold InCanvas in Ha'; rewrite ?Ha'; fold w; nia.
      * exact HcolQ.
      * apply elem_of_seqZ. lia.
      * exact Ha.
    + exact HrowQ.
    + apply elem_of_seqZ. lia.
    + unfold InCanvas. apply length_replicate.
  - set (P := fun b : list Z => pixelAt w b x y = (0, 0, 0, 0)).
    apply (fold_left_preserves P rowQ); [ | exact HrowQ | ].
    + intros a py Hpy HP. unfold Worker.writeRow.
      apply (fold_left_preserves P colQ); [ | exact HcolQ | exact HP].
      intros a' px Hpx HP'. unfold P, w in *. rewrite writePixel_other; [exact HP' | | | ].
      * unfold colQ in Hpx. lia.
      * lia.
      * intros [= -> ->]. unfold inRequest, colQ, rowQ in *.
        destruct (Z.leb_spec (Worker.startX p) x); [|lia].
        destruct (Z.ltb_spec x (Worker.endX p)); [|lia].
        destruct (Z.leb_spec (Worker.startY p) y); [|lia].
        destruct (Z.ltb_spec y (Worker.endY p)); [|lia].
        discriminate.
    + unfold P, pixelAt. rewrite !get_blank. reflexivity.
Qed.

(** X2: What a worker's answer holds: a buffer for the whole canvas, in which
    each pixel of the requested rectangle carries its four bytes at the
    pixel's canvas position and every other pixel is still zero,
    transparent black.  The request has to lie within the canvas. *)
Theorem calculateMandelbrot_contents (p : Worker.Params) :
  0 <= Worker.startX p -> Worker.endX p <= Worker.width p ->
  0 <= Worker.startY p -> Worker.endY p <= Worker.height p ->
  length (Worker.calculateMandelbrot p)
    = Z.to_nat (Worker.width p * Worker.height p * 4) /\
  forall x y, 0 <= x < Worker.width p -> 0 <= y < Worker.height p ->
    pixelAt (Worker.width p) (Worker.calculateMandelbrot p) x y
    = if inRequest p x y then Worker.pixelBytes p x y else (0, 0, 0, 0).
Proof.
  intros Hsx Hex Hsy Hey. split.
  - pose proof (calculateMandelbrot_length p) as Hlen. exact Hlen.
  - intros x y Hx Hy. apply calculateMandelbrot_pixel; assumption.
Qed.

End WorkerBuffer.

Lemma calculateMandelbrot_contents_witness :
  length (Worker.calculateMandelbrot (M := RefMath.host) Inputs.originPixel) = 4%nat /\
  forall x y, 0 <= x < 1 -> 0 <= y < 1 ->
    pixelAt 1 (Worker.calculateMandelbrot (M := RefMath.host) Inputs.originPixel) x y
    = if inRequest Inputs.originPixel x y
      then Worker.pixelBytes (M := RefMath.host) Inputs.originPixel x y
      else (0, 0, 0, 0).
Proof.
  apply (calculateMandelbrot_contents (M := RefMath.host) Inputs.originPixel); simpl; lia.
Defined.

(** ** The image a CPU render draws *)

Section RenderImage.
Context {M : MathLib}.
Import Explorer.
Local Open Scope Z_scope.

Lemma copyResult_length width image result :
  length (copyResult width image result) = length image.
Proof.
  unfold copyResult.
  apply (fold_left_preserves (fun b => length b = length image) (fun _ => True)).
  - intros a y _ Ha. rewrite copyRow_length. exact Ha.
  - apply Forall_true. trivial.
  - reflexivity.
Qed.

Lemma simplePixel_stores st y data x :
  exists r g b,
    simplePixel st y data x =
    let idx := (y * canvasWidth st + x) * 4 in
    JS.set (JS.set (JS.set (JS.set data idx r) (idx + 1) g) (idx + 2) b) (idx + 3) 255.
Proof.
  unfold simplePixel. destruct (simpleLoop _ _ _ _ _ _ _) as [[iter zx] zy].
  cbv zeta. destruct (PrimFloat.eqb _ _); eauto.
Qed.

Lemma simplePixel_length st y data x :
  length (simplePixel st y data x) = length data.
Proof.
  destruct (simplePixel_stores st y data x) as (r & g & b & ->).
  cbv zeta. rewrite !length_set. reflexivity.
Qed.

Lemma simpleCPURender_length st image :
  simpleCPURender st = Drawn image ->
  1 <= canvasWidth st /\ 1 <= canvasHeight st /\
  length image = Z.to_nat (canvasWidth st * canvasHeight st * 4).
Proof.
  unfold simpleCPURender. destruct (useWebGL st); [discriminate|].
  destruct (Z.leb_spec (canvasWidth st) 0); [discriminate|].
  destruct (Z.leb_spec (canvasHeight st) 0); [discriminate|].
  simpl. intros [= <-]. split; [lia|]. split; [lia|].
  apply (fold_left_preserves
           (fun b => length b = Z.to_nat (canvasWidth st * canvasHeight st * 4))
           (fun _ => True)).
  - intros a y _ Ha.
    apply (fold_left_preserves
             (fun b => length b = Z.to_nat (canvasWidth st * canvasHeight st * 4))
             (fun _ => True)); [ | apply Forall_true; trivial | exact Ha].
    intros a' x _ Ha'. rewrite simplePixel_length. exact Ha'.
  - apply Forall_true. trivial.
  - apply length_replicate.
Qed.

(** Without pixels a render throws, at the [ImageData] constructor or,
    in the fallback of a WebGL host, already at [this.ctx.fillStyle]. *)
Lemma renderCPU_empty (st : State float) :
  isRendering st = false ->
  canvasWidth st <= 0 \/ canvasHeight st <= 0 ->
  renderCPU st = IndexSizeError \/ renderCPU st = TypeError.
Proof.
  intros Hbusy Hempty. unfold renderCPU, simpleCPURender. rewrite Hbusy.
  assert (Hor : (canvasWidth st <=? 0) || (canvasHeight st <=? 0) = true).
  { apply orb_true_iff. destruct Hempty; [left | right]; apply Z.leb_le; assumption. }
  rewrite Hor. destruct (numWorkers st <=? 0), (useWebGL st); auto.
Qed.


Lemma renderCPU_draws (st : State float) :
  isRendering st = false -> useWebGL st = false ->
  1 <= canvasWidth st -> 1 <= canvasHeight st ->
  exists image, renderCPU st = Drawn image.
Proof.
  intros Hbusy Hgl Hw Hh. unfold renderCPU, simpleCPURender. rewrite Hbusy, Hgl.
  destruct (Z.leb_spec (canvasWidth st) 0); [lia|].
  destruct (Z.leb_spec (canvasHeight st) 0); [lia|].
  destruct (numWorkers st <=? 0); simpl; eauto.
Qed.

(** The bytes a worker computes for a pixel do not depend on the band it
    was asked for. *)
Lemma pixelBytes_any_band (st : State float) (band band' : Z * Z) x y :
  Worker.pixelBytes (workerParams st band) x y
  = Worker.pixelBytes (workerParams st band') x y.
Proof.
  unfold Worker.pixelBytes. cbn [workerParams Worker.antialiasing].
  assert (Hadd : forall total off,
            Worker.addSample (workerParams st band) x y total off
            = Worker.addSample (workerParams st band') x y total off)
    by reflexivity.
  assert (Hfold : forall l total,
            fold_left (Worker.addSample (workerParams st band) x y) l total
            = fold_left (Worker.addSample (workerParams st band') x y) l total).
  { induction l as [|off l IH]; intros total; [reflexivity|].
    cbn [fold_left]. rewrite Hadd. apply IH. }
  rewrite Hfold. reflexivity.
Qed.

(** X4: The picture of a CPU render on a host without WebGL, pixel by
    pixel.  With [rows] the number of rows per band, every pixel above
    row [rows] carries the four bytes
    that a single worker rendering the whole canvas computes for it, and
    every pixel from row [rows] on is transparent black.  With one worker
    the first band is the whole canvas and the picture is complete. *)
Theorem renderCPU_image (st : State float) :
  isRendering st = false ->
  useWebGL st = false ->
  1 <= numWorkers st ->
  1 <= canvasWidth st -> 1 <= canvasHeight st ->
  let w := canvasWidth st in
  let h := canvasHeight st in
  let rows := rowsPerWorker h (numWorkers st) in
  exists image,
    renderCPU st = Drawn image /\
    forall x y, 0 <= x < w -> 0 <= y < h ->
      pixelAt w image x y =
      if y <? rows
      then Worker.pixelBytes (workerParams st (0, h)) x y
      else (0, 0, 0, 0).
Proof.
  intros Hbusy Hgl Hn Hw Hh w h rows.
  pose proof (rowsPerWorker_ceil h (numWorkers st) ltac:(lia)) as Hc.
  fold rows in Hc.
  assert (Hrows : 0 < rows) by nia.
  destruct (first_band_delivered st Hbusy Hgl Hn Hw Hh) as (image & r0 & Hrender & Hr0 & Hs0 & Hfirst).
  fold w in Hfirst.
  exists image. split; [exact Hrender|].
  assert (Hband0 : bands h (numWorkers st) !! 0%nat = Some (0, Z.min rows h)).
  { apply bands_lookup; [lia | lia | ]. fold rows. repeat split; try lia; f_equal; lia. }
  assert (Hr0' : r0 = Worker.onmessage (workerParams st (0, Z.min rows h))).
  { unfold results, dispatched in Hr0.
    rewrite <- list_fmap_compose, list_lookup_fmap in Hr0. fold h in Hr0.
    rewrite Hband0 in Hr0. simpl in Hr0. congruence. }
  assert (Himage : image = fold_left (copyResult w) (results st) (blankImage w h)).
  { unfold renderCPU in Hrender. rewrite Hbusy in Hrender.
    destruct (Z.leb_spec (numWorkers st) 0); [lia|]. fold w h in Hrender.
    destruct (Z.leb_spec w 0); [lia|]. destruct (Z.leb_spec h 0); [lia|].
    cbn [orb] in Hrender. cbv zeta in Hrender. rewrite Hgl in Hrender. congruence. }
  intros x y Hx Hy.
  destruct (Z.ltb_spec y rows) as [Hlt|Hge].
  - assert (Hend : Worker.r_endY r0 = Z.min rows h) by (rewrite Hr0'; reflexivity).
    unfold pixelAt. cbv zeta.
    replace ((y * w + x) * 4) with ((y * w + x) * 4 + 0) at 1 by lia.
    rewrite !Hfirst by lia.
    replace ((y * w + x) * 4 + 0) with ((y * w + x) * 4) by lia.
    rewrite Hr0'. simpl Worker.imageData.
    set (p := workerParams st (0, Z.min rows h)).
    pose proof (calculateMandelbrot_pixel p x y) as Hpix.
    simpl Worker.width in Hpix. simpl Worker.height in Hpix.
    simpl Worker.startX in Hpix. simpl Worker.endX in Hpix.
    simpl Worker.startY in Hpix. simpl Worker.endY in Hpix.
    fold w h in Hpix. unfold pixelAt in Hpix. cbv zeta in Hpix.
    rewrite Hpix by lia.
    unfold inRequest. simpl. fold w.
    destruct (Z.ltb_spec x w); [|lia].
    destruct (Z.leb_spec 0 x); [|lia].
    destruct (Z.leb_spec 0 y); [|lia].
    destruct (Z.ltb_spec y (Z.min rows h)); [|lia].
    apply pixelBytes_any_band.
  - assert (Hblank : BlankFrom (rows * w * 4) image).
    { rewrite Himage.
      apply (fold_left_preserves (BlankFrom (rows * w * 4)) (Harmless w rows)).
      - intros img r Hr Himg. apply copyResult_blank; [lia | assumption | assumption].
      - apply results_harmless; lia.
      - intros j _. apply get_blank. }
    unfold pixelAt. cbv zeta. rewrite !Hblank by nia. reflexivity.
Qed.


(** X5: The single-threaded fallback.  [simpleCPURender] stores alpha 255 with
    every pixel it visits and visits every pixel, so on a host without
    WebGL and a canvas with pixels it draws a fully opaque image of the
    canvas size. *)
Theorem simpleCPURender_opaque (st : State float) :
  useWebGL st = false ->
  1 <= canvasWidth st -> 1 <= canvasHeight st ->
  exists image,
    simpleCPURender st = Drawn image /\
    length image = Z.to_nat (canvasWidth st * canvasHeight st * 4) /\
    forall x y, 0 <= x < canvasWidth st -> 0 <= y < canvasHeight st ->
      JS.get image ((y * canvasWidth st + x) * 4 + 3) = 255.
Proof.
  intros Hgl Hw Hh.
  destruct (simpleCPURender st) as [| | |image] eqn:Hs;
    try (unfold simpleCPURender in Hs; rewrite Hgl in Hs;
         destruct (Z.leb_spec (canvasWidth st) 0); [lia|];
         destruct (Z.leb_spec (canvasHeight st) 0); [lia|]; discriminate).
  exists image. split; [reflexivity|].
  destruct (simpleCPURender_length st image Hs) as (_ & _ & Hlen).
  split; [exact Hlen|].
  intros x y Hx Hy.
  unfold simpleCPURender in Hs. rewrite Hgl in Hs.
  destruct (Z.leb_spec (canvasWidth st) 0); [lia|].
  destruct (Z.leb_spec (canvasHeight st) 0); [lia|].
  simpl in Hs. injection Hs as <-.
  set (w := canvasWidth st) in *. set (h := canvasHeight st) in *.
  set (I := fun b : list Z => length b = Z.to_nat (w * h * 4)).
  set (P := fun b : list Z => JS.get b ((y * w + x) * 4 + 3) = 255).
  assert (Hkept : forall a py px, P a -> P (simplePixel st py a px)).
  { intros a py px Ha.
    destruct (simplePixel_stores st py a px) as (r & g & b & ->).
    cbv zeta. unfold P. apply get_set_same. rewrite !get_set_ne by lia. exact Ha. }
  assert (Hlenp : forall a py px, I a -> I (simplePixel st py a px)).
  { intros a py px Ha. unfold I. rewrite simplePixel_length. exact Ha. }
  assert (Hrow : forall a py, I a ->
            I (fold_left (simplePixel st py) (seqZ 0 w) a)).
  { intros a py Ha.
    apply (fold_left_preserves I (fun _ => True));
      [ | apply Forall_true; trivial | exact Ha].
    intros a' px _ Ha'. apply Hlenp, Ha'. }
  apply (fold_left_establishes I P (fun _ => True) _ _ y).
  - intros a py _ Ha. apply Hrow, Ha.
  - intros a py _ _ Ha.
    apply (fold_left_preserves P (fun _ => True));
      [ | apply Forall_true; trivial | exact Ha].
    intros a' px _ Ha'. apply Hkept, Ha'.
  - intros a Ha.
    apply (fold_left_establishes I P (fun _ => True) _ _ x).
    + intros a' px _ Ha'. apply Hlenp, Ha'.
    + intros a' px _ _ Ha'. apply Hkept, Ha'.
    + intros a' Ha'.
      destruct (simplePixel_stores st y a' x) as (r & g & b & ->).
      cbv zeta. fold w. unfold P. apply get_set_eq.
      rewrite !length_set. unfold I in Ha'. rewrite Ha'. nia.
    + apply Forall_true. trivial.
    + apply elem_of_seqZ. lia.
    + exact Ha.
  - apply Forall_true. trivial.
  - apply elem_of_seqZ. lia.
  - unfold I, blankImage. apply length_replicate.
Qed.
End RenderImage.

Lemma simpleCPURender_opaque_witness :
  exists image,
    Explorer.simpleCPURender (M := RefMath.host) Inputs.tiny = Explorer.Drawn image /\
    length image = 8%nat /\
    forall x y, 0 <= x < 1 -> 0 <= y < 2 ->
      JS.get image ((y * 1 + x) * 4 + 3) = 255.
Proof.
  apply (simpleCPURender_opaque (M := RefMath.host) Inputs.tiny);
    [reflexivity | simpl; lia | simpl; lia].
Defined.

Lemma renderCPU_image_witness :
  exists image,
    Explorer.renderCPU (M := RefMath.host) Inputs.initial = Explorer.Drawn image /\
    forall x y, 0 <= x < 800 -> 0 <= y < 600 ->
      pixelAt 800 image x y =
      if y <? 150
      then Worker.pixelBytes (M := RefMath.host)
             (Explorer.workerParams (M := RefMath.host) Inputs.initial (0, 600)) x y
      else (0, 0, 0, 0).
Proof.
  apply (renderCPU_image (M := RefMath.host) Inputs.initial);
    [reflexivity | reflexivity | simpl; lia | simpl; lia | simpl; lia].
Defined.

(** ** The event handlers *)

Section Events.
Import Explorer Handlers.
Context {F : Type} `{Arith F}.
Variable renderBusy : State F -> bool.
Variable hasThemeButton : Z -> bool.
Local Open Scope Z_scope.

Lemma step_settings s ev :
  settings (fst (step renderBusy hasThemeButton s ev)) = settings (fst s).
Proof.
  destruct s as [st d].
  destruct ev as [x y|x y| |e|touches|touches| |w h|c]; simpl; try reflexivity.
  - unfold handleMouseMove. destruct (isDragging d); reflexivity.
  - unfold handleTouchMove. destruct touches as [|[x y] [|? ?]]; try reflexivity.
    unfold handleMouseMove. destruct (isDragging d); reflexivity.
  - destruct c; simpl; try reflexivity.
    unfold setColorScheme. destruct (hasThemeButton scheme); reflexivity.
Qed.

Lemma run_settings evs : forall s,
  settings (fst (run renderBusy hasThemeButton s evs)) = settings (fst s).
Proof.
  unfold run. induction evs as [|ev evs IH]; intros s; simpl; [reflexivity|].
  rewrite IH. apply step_settings.
Qed.

Lemma step_hovering st d ev :
  hovering ev = true -> isDragging d = false ->
  fst (step renderBusy hasThemeButton (st, d) ev) = st /\
  isDragging (snd (step renderBusy hasThemeButton (st, d) ev)) = false.
Proof.
  intros Hev Hd.
  destruct ev as [x y|x y| |e|touches|touches| |w h|c]; simpl in *; try discriminate.
  - unfold handleMouseMove. rewrite Hd. auto.
  - auto.
  - destruct touches as [|[x y] [|? ?]]; simpl in *; auto; discriminate.
  - destruct touches as [|[x y] [|? ?]]; simpl in *; auto; discriminate.
  - auto.
Qed.

(** X6: Moving the pointer without a button held, releasing, and touching
    with two or more fingers never change the application state, however
    many such events arrive: only a press or a single-finger touch arms
    panning. *)
Theorem hovering_changes_nothing (st : State F) (d : Drag F)
    (evs : list (Event F)) :
  isDragging d = false ->
  Forall (fun ev => hovering ev = true) evs ->
  fst (run renderBusy hasThemeButton (st, d) evs) = st.
Proof.
  intros Hd Hevs. revert d Hd. unfold run.
  induction Hevs as [|ev evs Hev _ IH]; intros d Hd; [reflexivity|].
  cbn [fold_left].
  destruct (step_hovering st d ev Hev Hd) as [Hst Hd'].
  destruct (step renderBusy hasThemeButton (st, d) ev) as [st' d'].
  simpl in Hst, Hd'. subst st'. apply IH, Hd'.
Qed.
End Events.

Lemma hovering_changes_nothing_witness :
  fst (Handlers.run (Handlers.renderBusy (M := RefMath.host)) (fun _ => true)
         (Inputs.initial, idle)
         [Handlers.MouseMove 10%float 20%float;
          Handlers.TouchMove [(1%float, 2%float); (3%float, 4%float)];
          Handlers.MouseUp])
  = Inputs.initial.
Proof.
  apply (hovering_changes_nothing (Handlers.renderBusy (M := RefMath.host))
           (fun _ => true)).
  - reflexivity.
  - repeat constructor.
Defined.

(** *** Dragging and zooming in exact arithmetic *)

Lemma last_cons_default {A : Type} (q : list A) : forall a d,
  List.last (a :: q) d = List.last q a.
Proof.
  induction q as [|b q IH]; intros a d; [reflexivity|].
  change (List.last (a :: b :: q) d) with (List.last (b :: q) d).
  rewrite (IH b d), (IH b a). reflexivity.
Qed.

Section ExactEvents.
Import Explorer Handlers.
Variable renderBusy : State R -> bool.
Variable hasThemeButton : Z -> bool.
Local Open Scope R_scope.

Lemma handleMouseMove_exact (st : State R) (d : Drag R) (x y : R) :
  (1 <= canvasWidth st)%Z -> (1 <= canvasHeight st)%Z -> zoom st <> 0 ->
  isDragging d = true ->
  let s' := handleMouseMove renderBusy st d x y in
  cursorToComplex (fst s') x y
    = cursorToComplex st (lastMouseX d) (lastMouseY d) /\
  zoom (fst s') = zoom st /\
  canvasWidth (fst s') = canvasWidth st /\
  canvasHeight (fst s') = canvasHeight st /\
  snd s' = {| isDragging := true; lastMouseX := x; lastMouseY := y |}.
Proof.
  intros Hw Hh Hz Hd. unfold handleMouseMove. rewrite Hd. cbv zeta.
  assert (IZR (canvasWidth st) <> 0) by (apply not_0_IZR; lia).
  assert (IZR (canvasHeight st) <> 0) by (apply not_0_IZR; lia).
  split; [|repeat split].
  unfold cursorToComplex, pan, rendered, withRendering, withView. simpl.
  f_equal; field; auto.
Qed.

(** X7: Dragging is exact in exact arithmetic: from the press on, whatever
    path the pointer takes, the complex point that was under the pointer
    at the press is the point under the pointer after every move, and the
    zoom is untouched. *)
Theorem drag_keeps_point_under_pointer (st : State R) (d : Drag R)
    (x0 y0 : R) (path : list (R * R)) :
  (1 <= canvasWidth st)%Z -> (1 <= canvasHeight st)%Z -> zoom st <> 0 ->
  let st' :=
    fst (run renderBusy hasThemeButton (st, d)
           (MouseDown x0 y0 :: map (fun p => MouseMove (fst p) (snd p)) path)) in
  let '(x, y) := List.last path (x0, y0) in
  cursorToComplex st' x y = cursorToComplex st x0 y0 /\ zoom st' = zoom st.
Proof.
  intros Hw Hh Hz. unfold run. cbn [fold_left step]. unfold handleMouseDown.
  set (target := cursorToComplex st x0 y0).
  set (z := zoom st).
  assert (Hinv : forall (q : list (R * R)) (s : State R) (lx ly : R),
    (1 <= canvasWidth s)%Z -> (1 <= canvasHeight s)%Z -> zoom s = z ->
    cursorToComplex s lx ly = target ->
    let st' := fst (fold_left (step renderBusy hasThemeButton)
                      (map (fun p => MouseMove (fst p) (snd p)) q)
                      (s, {| isDragging := true; lastMouseX := lx; lastMouseY := ly |})) in
    let '(x, y) := List.last q (lx, ly) in
    cursorToComplex st' x y = target /\ zoom st' = z).
  { induction q as [|[x y] q IH]; intros s lx ly Hsw Hsh Hsz Hs.
    - simpl. auto.
    - cbn [map fold_left step fst snd].
      destruct (handleMouseMove_exact s
                  {| isDragging := true; lastMouseX := lx; lastMouseY := ly |} x y
                  Hsw Hsh ltac:(unfold z in Hsz; congruence) eq_refl)
        as (Hc & Hz' & Hw' & Hh' & Hd').
      cbv zeta in Hc, Hz', Hw', Hh', Hd'. simpl lastMouseX in Hc. simpl lastMouseY in Hc.
      destruct (handleMouseMove renderBusy s _ x y) as [s1 d1].
      simpl in Hc, Hz', Hw', Hh', Hd'. subst d1.
      specialize (IH s1 x y ltac:(lia) ltac:(lia) ltac:(congruence) ltac:(congruence)).
      cbv zeta in IH.
      rewrite last_cons_default. exact IH. }
  apply Hinv; auto.
Qed.

(** X8: The zoom after any run of wheel events, in exact arithmetic: the
    starting zoom times 0.9 for every notch out and 1.1 for every notch
    in, wherever the pointer was and in whatever order they came. *)
Theorem wheel_zoom_product (st : State R) (d : Drag R)
    (es : list (WheelEvent R)) :
  zoom (fst (run renderBusy hasThemeButton (st, d) (map Wheel es)))
  = zoom st
    * (9 / 10) ^ length (List.filter deltaY_positive es)
    * (11 / 10) ^ length (List.filter (fun e => negb (deltaY_positive e)) es).
Proof.
  unfold run. revert st.
  induction es as [|e es IH]; intros st.
  - simpl. ring.
  - cbn [map fold_left step]. rewrite IH.
    unfold handleWheel. destruct (cursorToComplex _ _ _) as [cx cy].
    cbn [rendered withRendering withView zoom List.filter].
    destruct (deltaY_positive e); cbn [negb length pow n_mul n_lit exact_reals]; field.
Qed.
End ExactEvents.

Lemma drag_keeps_point_under_pointer_witness :
  let st' :=
    fst (Handlers.run (fun _ => false) (fun _ => true) (exactInitial, idle)
           [Handlers.MouseDown 100%R 100%R; Handlers.MouseMove 130%R 90%R;
            Handlers.MouseMove 160%R 120%R]) in
  Explorer.cursorToComplex st' 160%R 120%R
    = Explorer.cursorToComplex exactInitial 100%R 100%R /\
  Explorer.zoom st' = Explorer.zoom exactInitial.
Proof.
  apply (drag_keeps_point_under_pointer (fun _ => false) (fun _ => true)
           exactInitial idle 100%R 100%R [(130%R, 90%R); (160%R, 120%R)]).
  - simpl. lia.
  - simpl. lia.
  - simpl. lra.
Defined.

(** *** Sessions of the running application *)

Section Sessions.
Import Explorer Handlers.
Context {M : MathLib}.
Variable hasThemeButton : Z -> bool.
Local Open Scope Z_scope.

Lemma renderBusy_sticks (st : State float) :
  isRendering st = true -> renderBusy st = true.
Proof.
  intros Hst. unfold renderBusy, renderCPU. rewrite Hst.
  destruct (shouldUseGPU st); reflexivity.
Qed.

Lemma step_rendering s ev :
  isRendering (fst s) = true ->
  isRendering (fst (step renderBusy hasThemeButton s ev)) = true.
Proof.
  destruct s as [st d]. simpl. intros Hst.
  assert (Hr : forall st', isRendering st' = true ->
                 isRendering (rendered renderBusy st') = true).
  { intros st' Hst'. simpl. apply renderBusy_sticks, Hst'. }
  assert (Hm : forall x y,
            isRendering (fst (handleMouseMove renderBusy st d x y)) = true).
  { intros x y. unfold handleMouseMove.
    destruct (isDragging d); [apply Hr|]; exact Hst. }
  destruct ev as [x y|x y| |e|touches|touches| |w h|c]; simpl; try exact Hst.
  - apply Hm.
  - apply renderBusy_sticks. unfold handleWheel.
    destruct (cursorToComplex _ _ _). exact Hst.
  - destruct touches as [|[x y] [|? ?]]; simpl; try exact Hst. apply Hm.
  - apply renderBusy_sticks. exact Hst.
  - destruct c; simpl; try (apply renderBusy_sticks; exact Hst).
    unfold setColorScheme. destruct (hasThemeButton scheme); [apply Hr|]; exact Hst.
Qed.

Lemma run_rendering evs : forall s,
  isRendering (fst s) = true ->
  isRendering (fst (run renderBusy hasThemeButton s evs)) = true.
Proof.
  unfold run. induction evs as [|ev evs IH]; intros s Hs; [exact Hs|].
  cbn [fold_left]. apply IH, step_rendering, Hs.
Qed.

(** X9: A page that starts without WebGL in a window without pixels never
    draws: the first render throws between setting [isRendering] and
    clearing it, and from then on every CPU render returns at once,
    whatever the user does and however the window is resized. *)
Theorem empty_window_never_draws (hardwareConcurrency : option Z)
    (deviceMemory : option float) (innerWidth innerHeight : Z)
    (evs : list (Event float)) :
  innerWidth <= 0 \/ innerHeight <= 0 ->
  renderCPU
    (fst (run renderBusy hasThemeButton
            (start hardwareConcurrency deviceMemory false innerWidth innerHeight)
            evs))
  = Busy.
Proof.
  intros Hempty.
  set (s0 := start hardwareConcurrency deviceMemory false innerWidth innerHeight).
  assert (H0 : isRendering (fst s0) = true).
  { unfold s0, start. cbv zeta. cbn [fst].
    apply renderBusy_sticks. unfold resizeCanvas. simpl isRendering.
    unfold renderBusy at 1. unfold shouldUseGPU. simpl useWebGL. cbn [andb].
    destruct (renderCPU_empty
                (withCanvas
                   (Startup.construct hardwareConcurrency deviceMemory false 0 0)
                   innerWidth innerHeight) eq_refl Hempty) as [-> | ->];
      reflexivity. }
  pose proof (run_rendering evs s0 H0) as Hrun.
  unfold renderCPU. rewrite Hrun. reflexivity.
Qed.

Lemma renderBusy_clear (st : State float) :
  isRendering st = false -> useWebGL st = false ->
  1 <= canvasWidth st -> 1 <= canvasHeight st ->
  renderBusy st = false.
Proof.
  intros Hbusy Hgl Hw Hh. unfold renderBusy.
  destruct (shouldUseGPU st); [exact Hbusy|].
  destruct (renderCPU_draws st Hbusy Hgl Hw Hh) as [image ->]. reflexivity.
Qed.

Lemma step_ready s ev :
  keepsPixels ev = true -> ready (fst s) ->
  ready (fst (step renderBusy hasThemeButton s ev)).
Proof.
  destruct s as [st d]. cbn [fst]. intros Hev (Hbusy & Hgl & Hw & Hh).
  assert (Hr : forall st', isRendering st' = false -> useWebGL st' = false ->
                 canvasWidth st' = canvasWidth st -> canvasHeight st' = canvasHeight st ->
                 ready (rendered renderBusy st')).
  { intros st' Hb' Hg' Hw' Hh'. unfold ready.
    cbn [rendered withRendering isRendering useWebGL canvasWidth canvasHeight].
    rewrite Hw', Hh'. split; [|split; [|split]; assumption].
    apply renderBusy_clear; [assumption | assumption | rewrite Hw'; assumption
                            | rewrite Hh'; assumption]. }
  assert (Hst : ready st) by (unfold ready; auto).
  assert (Hm : forall x y, ready (fst (handleMouseMove renderBusy st d x y))).
  { intros x y. unfold handleMouseMove.
    destruct (isDragging d); cbn [fst]; [apply Hr; auto | exact Hst]. }
  destruct ev as [x y|x y| |e|touches|touches| |w h|c]; cbn [step fst].
  - exact Hst.
  - apply Hm.
  - exact Hst.
  - apply Hr; unfold handleWheel; destruct (cursorToComplex _ _ _); auto.
  - exact Hst.
  - destruct touches as [|[x y] [|? ?]]; cbn [handleTouchMove fst];
      try exact Hst. apply Hm.
  - exact Hst.
  - simpl in Hev. apply andb_true_iff in Hev as [Hw' Hh'].
    apply Z.leb_le in Hw', Hh'.
    unfold resizeCanvas, ready.
    cbn [rendered withRendering withCanvas isRendering useWebGL canvasWidth canvasHeight].
    split; [|split; [|split]; assumption].
    apply renderBusy_clear; assumption.
  - destruct c; cbn [command]; try (apply Hr; auto).
    unfold setColorScheme. destruct (hasThemeButton scheme); [apply Hr; auto | exact Hst].
Qed.

(** X10: On a host without WebGL, in a window that has pixels and keeps
    having them, no render is ever skipped, as long as the workers of one
    render answer before the next event arrives.  After the constructor
    and after every handler [isRendering] is clear again, and a CPU
    render of the state draws. *)
Theorem ready_after_every_event (hardwareConcurrency : option Z)
    (deviceMemory : option float) (innerWidth innerHeight : Z)
    (evs : list (Event float)) :
  1 <= innerWidth -> 1 <= innerHeight ->
  Forall (fun ev => keepsPixels ev = true) evs ->
  let st :=
    fst (run renderBusy hasThemeButton
           (start hardwareConcurrency deviceMemory false innerWidth innerHeight)
           evs) in
  isRendering st = false /\
  exists image, renderCPU st = Drawn image.
Proof.
  intros Hw Hh Hevs.
  set (s0 := start hardwareConcurrency deviceMemory false innerWidth innerHeight).
  assert (H0 : ready (fst s0)).
  { unfold s0, start, resizeCanvas, ready. cbv zeta.
    cbn [fst rendered withRendering withCanvas isRendering useWebGL
         canvasWidth canvasHeight Startup.construct].
    split; [|split; [reflexivity|split; assumption]].
    apply renderBusy_clear;
      cbn [withRendering withCanvas isRendering useWebGL canvasWidth canvasHeight
           Startup.construct];
      try assumption; try reflexivity.
    apply renderBusy_clear; assumption || reflexivity. }
  assert (Hrun : forall evs s,
            Forall (fun ev => keepsPixels ev = true) evs ->
            ready (fst s) -> ready (fst (run renderBusy hasThemeButton s evs))).
  { unfold run. clear -hasThemeButton. intros evs s Hevs. revert s.
    induction Hevs as [|ev evs Hev _ IH]; intros s Hs; [exact Hs|].
    cbn [fold_left]. apply IH. apply step_ready; assumption. }
  cbv zeta. destruct (Hrun evs s0 Hevs H0) as (Hb & Hg & Hw' & Hh').
  split; [exact Hb|]. apply renderCPU_draws; assumption.
Qed.


(** X11: What no event changes.  In every state the running application can
    reach, there is at least one worker, so the single-threaded fallback
    is never taken; the adaptive budget is on, so the fixed quality
    setting is never used; the ceiling is one of the four tiers; and the
    choice between WebGL and CPU support is the one made at start-up. *)
Theorem reachable_settings (hardwareConcurrency : option Z)
    (deviceMemory : option float) (webgl : bool) (innerWidth innerHeight : Z)
    (evs : list (Event float)) :
  (forall c, hardwareConcurrency = Some c -> 0 <= c) ->
  let st :=
    fst (run renderBusy hasThemeButton
           (start hardwareConcurrency deviceMemory webgl innerWidth innerHeight)
           evs) in
  1 <= numWorkers st /\
  adaptiveQuality st = true /\
  In (maxIterations st) [1000; 2000; 4000; 8000] /\
  useWebGL st = webgl.
Proof.
  intros Hc st.
  assert (Hs : settings st =
               (Startup.coresOr4 hardwareConcurrency, true,
                Startup.maxIterations
                  (Startup.detectPerformance hardwareConcurrency deviceMemory),
                2000, webgl)).
  { unfold st. rewrite run_settings. reflexivity. }
  unfold settings in Hs. injection Hs as Hn Ha Hm _ Hg.
  split; [|split; [exact Ha|split; [|exact Hg]]].
  - rewrite Hn. unfold Startup.coresOr4.
    destruct hardwareConcurrency as [c|]; [|lia].
    specialize (Hc c eq_refl). destruct (Z.eqb_spec c 0); lia.
  - rewrite Hm. apply detectPerformance_tiers.
Qed.
End Sessions.

Lemma empty_window_never_draws_witness :
  Explorer.renderCPU (M := RefMath.host)
    (fst (Handlers.run (Handlers.renderBusy (M := RefMath.host)) (fun _ => true)
            (Handlers.start (M := RefMath.host) (Some 4) None false 0 0)
            [Handlers.Resize 800 600; Handlers.Do Handlers.Reset]))
  = Explorer.Busy.
Proof.
  apply (empty_window_never_draws (M := RefMath.host) (fun _ => true)
           (Some 4) None 0 0).
  left. lia.
Defined.

Lemma reachable_settings_witness :
  let st :=
    fst (Handlers.run (Handlers.renderBusy (M := RefMath.host)) (fun _ => true)
           (Handlers.start (M := RefMath.host) (Some 8) (Some 8%float) true 800 600)
           [Handlers.Do Handlers.ToggleSmoothing;
            Handlers.Wheel (Inputs.wheelAt 400 300 false)]) in
  1 <= Explorer.numWorkers st /\
  Explorer.adaptiveQuality st = true /\
  In (Explorer.maxIterations st) [1000; 2000; 4000; 8000] /\
  Explorer.useWebGL st = true.
Proof.
  apply (reachable_settings (M := RefMath.host) (fun _ => true)
           (Some 8) (Some 8%float) true 800 600).
  intros c [= <-]. lia.
Defined.

Lemma ready_after_every_event_witness :
  let st :=
    fst (Handlers.run (Handlers.renderBusy (M := RefMath.host)) (fun _ => true)
           (Handlers.start (M := RefMath.host) (Some 4) None false 2 2)
           [Handlers.Resize 3 1; Handlers.Do Handlers.ToggleSmoothing]) in
  Explorer.isRendering st = false /\
  exists image, Explorer.renderCPU (M := RefMath.host) st = Explorer.Drawn image.
Proof.
  apply (ready_after_every_event (M := RefMath.host) (fun _ => true)
           (Some 4) None 2 2).
  - lia.
  - lia.
  - repeat constructor.
Defined.

(** The CPU path is reached on a host with WebGL: 350 notches of zooming
    in, here on a canvas of one pixel, take the zoom past the limit of the
    GPU path; the render that follows throws and leaves [isRendering]
    set. *)
Example deep_zoom_on_webgl_host :
  let st :=
    fst (Handlers.run (Handlers.renderBusy (M := RefMath.host)) (fun _ => true)
           (Handlers.start (M := RefMath.host) (Some 4) None true 1 1)
           (repeat (Handlers.Wheel (Inputs.wheelAt 0 0 false)) 350)) in
  Explorer.shouldUseGPU st = false /\
  Explorer.isRendering st = true /\
  Explorer.renderCPU (M := RefMath.host)
    (Handlers.withRendering st false) = Explorer.TypeError.
Proof. vm_compute. repeat split. Qed.

(** ** The fragment shader *)

Section ShaderFacts.
Import Shader.
Context {F : Type} {A : Arith F} {G : GLSL F}.
Local Open Scope Z_scope.

Lemma mandelbrot_scheme (u u' : Uniforms F) (c : vec2) :
  u_colorScheme u = u_colorScheme u' -> mandelbrot u c = mandelbrot u' c.
Proof.
  intros Hs. unfold mandelbrot, getColor. rewrite Hs. reflexivity.
Qed.

(** X12: The picture the GPU draws depends on the view, the canvas size and the
    colour scheme, and on nothing else: the iteration budget the host
    computes, the smoothing flag and the clock are passed as uniforms but
    never read by the shader. *)
Theorem renderWebGL_reads_view_only (M M' : MathLib)
    (st st' : Explorer.State float) (now now' : float) (v_texCoord : vec2) :
  Explorer.centerX st = Explorer.centerX st' ->
  Explorer.centerY st = Explorer.centerY st' ->
  Explorer.zoom st = Explorer.zoom st' ->
  Explorer.canvasWidth st = Explorer.canvasWidth st' ->
  Explorer.canvasHeight st = Explorer.canvasHeight st' ->
  Explorer.colorScheme st = Explorer.colorScheme st' ->
  renderWebGL (M := M) st now v_texCoord
  = renderWebGL (M := M') st' now' v_texCoord.
Proof.
  intros Hx Hy Hz Hw Hh Hs. unfold renderWebGL, main, fragmentPoint, uniforms.
  cbn [u_resolution u_center u_zoom fst snd].
  rewrite Hx, Hy, Hz, Hw, Hh.
  f_equal. apply mandelbrot_scheme. exact Hs.
Qed.

(** The shader's two tests are the regions of the design document, read
    with the GPU's arithmetic and its [<=]; one round of its loop is one
    step of the orbit, and its exit test is the escape condition. *)
Lemma shader_cardioidTest c :
  cardioidTest c = Spec.inCardioid gl_leb (fst c) (snd c).
Proof. destruct c; reflexivity. Qed.

Lemma shader_bulbTest c :
  bulbTest c = Spec.inBulb gl_leb (fst c) (snd c).
Proof. destruct c; reflexivity. Qed.

Lemma shader_next c n :
  next c (Spec.orbitOver c n) = Spec.orbitOver c (S n).
Proof.
  cbn [Spec.orbitOver]. unfold next, complexSquare.
  destruct (Spec.orbitOver c n); reflexivity.
Qed.

Lemma shader_outside z : outside z = Spec.beyond gl_ltb gl_dot z.
Proof. reflexivity. Qed.

(** X13: A point of the main cardioid,
    [q * (q + (x - 0.25)) <= 0.25 * y^2] with [q = (x - 0.25)^2 + y^2], or
    of the period-2 bulb, [(x + 1)^2 + y^2 <= 0.0625], both read in the
    GPU's arithmetic, is painted opaque black by the shader without a
    single round of its iteration loop, and so is every fragment that
    [main] maps to such a point. *)
Theorem shader_interior_is_black (u : Uniforms F) (c : vec2) :
  Spec.inCardioid gl_leb (fst c) (snd c) = true \/
  Spec.inBulb gl_leb (fst c) (snd c) = true ->
  mandelbrot u c = ((n_int 0, n_int 0, n_int 0, n_int 1), O) /\
  (forall v_texCoord, fragmentPoint u v_texCoord = c ->
     main u v_texCoord = ((n_int 0, n_int 0, n_int 0, n_int 1), O)).
Proof.
  intros Hin. rewrite <- shader_cardioidTest, <- shader_bulbTest in Hin.
  assert (Hblack : mandelbrot u c = ((n_int 0, n_int 0, n_int 0, n_int 1), O)).
  { unfold mandelbrot.
    destruct (cardioidTest c); [reflexivity|].
    destruct Hin as [Hin|Hin]; [discriminate|]. rewrite Hin. reflexivity. }
  split; [exact Hblack|].
  intros v Hv. unfold main. rewrite Hv. exact Hblack.
Qed.

Lemma shaderLoop_S c fuel i z iterations steps :
  mandelbrotLoop c (S fuel) i z iterations steps =
  if outside (next c z) then (i, S steps)
  else mandelbrotLoop c fuel (i + 1) (next c z) i (S steps).
Proof. reflexivity. Qed.

(** The loop walks along the orbit: as long as no point is beyond the
    radius, it moves on, leaving the index of its last round in
    [iterations]. *)
Lemma shaderLoop_advance c : forall fuel1 fuel2 m iterations,
  (forall k, (m <= k < m + fuel1)%nat ->
     Spec.beyond gl_ltb gl_dot (Spec.orbitOver c (S k)) = false) ->
  mandelbrotLoop c (fuel1 + fuel2) (Z.of_nat m) (Spec.orbitOver c m) iterations m =
  mandelbrotLoop c fuel2 (Z.of_nat (m + fuel1)) (Spec.orbitOver c (m + fuel1))
    (if Nat.eqb fuel1 O then iterations else Z.of_nat (m + fuel1) - 1)
    (m + fuel1).
Proof.
  induction fuel1 as [|fuel1 IH]; intros fuel2 m iterations Hin.
  - rewrite Nat.add_0_r. reflexivity.
  - cbn [Nat.add]. rewrite shaderLoop_S, shader_next, shader_outside.
    rewrite Hin by lia.
    replace (Z.of_nat m + 1) with (Z.of_nat (S m)) by lia.
    rewrite IH by (intros; apply Hin; lia).
    replace (S m + fuel1)%nat with (m + S fuel1)%nat by lia.
    cbn [Nat.eqb]. destruct (Nat.eqb fuel1 O) eqn:E; [|reflexivity].
    apply Nat.eqb_eq in E. subst fuel1.
    replace (Z.of_nat (S m)) with (Z.of_nat (m + 1) - 1 + 1) by lia.
    f_equal. lia.
Qed.

Lemma shaderLoop_escape c fuel n :
  (n < fuel)%nat ->
  (forall k, (k < n)%nat ->
     Spec.beyond gl_ltb gl_dot (Spec.orbitOver c (S k)) = false) ->
  Spec.beyond gl_ltb gl_dot (Spec.orbitOver c (S n)) = true ->
  mandelbrotLoop c fuel 0 (n_int 0, n_int 0) 0 O = (Z.of_nat n, S n).
Proof.
  intros Hn Hin Hout.
  replace fuel with (n + S (fuel - S n))%nat by lia.
  change (n_int 0, n_int 0) with (Spec.orbitOver c O).
  change 0 with (Z.of_nat O) at 1.
  rewrite shaderLoop_advance by (intros; apply Hin; lia).
  cbn [Nat.add]. rewrite shaderLoop_S, shader_next, shader_outside, Hout.
  reflexivity.
Qed.

Lemma shaderLoop_last c fuel :
  (forall k, (k < fuel)%nat ->
     Spec.beyond gl_ltb gl_dot (Spec.orbitOver c (S k)) = false) ->
  mandelbrotLoop c (S fuel) 0 (n_int 0, n_int 0) 0 O = (Z.of_nat fuel, S fuel).
Proof.
  intros Hin.
  replace (S fuel) with (fuel + 1)%nat at 1 by lia.
  change (n_int 0, n_int 0) with (Spec.orbitOver c O).
  change 0 with (Z.of_nat O) at 1.
  rewrite shaderLoop_advance by (intros; apply Hin; lia).
  cbn [Nat.add]. rewrite shaderLoop_S. cbn [mandelbrotLoop].
  destruct (outside _); [reflexivity|].
  f_equal.
Qed.

(** A run of [Spec.staysWithin] covers the orbit point by point. *)
Lemma staysWithin_covers c : forall n m,
  Spec.staysWithin gl_ltb gl_dot c (Spec.orbitOver c m) n = true ->
  forall k, (m <= k < m + n)%nat ->
    Spec.beyond gl_ltb gl_dot (Spec.orbitOver c (S k)) = false.
Proof.
  induction n as [|n IH]; intros m Hs k Hk; [lia|].
  cbn [Spec.staysWithin] in Hs. cbv zeta in Hs.
  assert (Hstep : forall z, z = Spec.orbitOver c m ->
            (n_add (n_sub (n_mul (fst z) (fst z)) (n_mul (snd z) (snd z))) (fst c),
             n_add (n_mul (n_mul (n_int 2) (fst z)) (snd z)) (snd c))
            = Spec.orbitOver c (S m)).
  { intros z ->. cbn [Spec.orbitOver]. destruct (Spec.orbitOver c m); reflexivity. }
  rewrite (Hstep _ eq_refl) in Hs. apply andb_prop in Hs. destruct Hs as [Hb Hs].
  destruct (Nat.eq_dec k m) as [->|Hne].
  - destruct (Spec.beyond _ _ _); [discriminate | reflexivity].
  - apply (IH (S m) Hs). lia.
Qed.

(** X14: The escape-time loop of the shader, along the orbit [z_0 = 0],
    [z_(k+1) = z_k^2 + c] in the GPU's arithmetic.  For a point outside
    the cardioid and the bulb: if [z_(n+1)] is the first with
    [dot(z, z) > 256 * 256] and [n < 7999], the fragment is the palette
    colour of [n / 8000], opaque, after [n + 1] rounds; if none of
    [z_1 .. z_7999] is, the fragment is black after all 8000 rounds, also
    when [z_8000], the last one, is beyond the radius. *)
Theorem shader_escape_time (u : Uniforms F) (c : vec2) :
  Spec.inCardioid gl_leb (fst c) (snd c) = false ->
  Spec.inBulb gl_leb (fst c) (snd c) = false ->
  (forall n : nat,
     Z.of_nat n < 7999 ->
     (forall k, (k < n)%nat ->
        Spec.beyond gl_ltb gl_dot (Spec.orbitOver c (S k)) = false) ->
     Spec.beyond gl_ltb gl_dot (Spec.orbitOver c (S n)) = true ->
     mandelbrot u c =
       (let '(r, g, b) := getColor u (n_div (n_int (Z.of_nat n)) (n_int 8000)) in
        (r, g, b, n_int 1), S n)) /\
  ((forall k, Z.of_nat k < 7999 ->
      Spec.beyond gl_ltb gl_dot (Spec.orbitOver c (S k)) = false) ->
   mandelbrot u c = ((n_int 0, n_int 0, n_int 0, n_int 1), Z.to_nat 8000)).
Proof.
  intros Hc Hb. rewrite <- shader_cardioidTest in Hc.
  rewrite <- shader_bulbTest in Hb.
  unfold mandelbrot. rewrite Hc, Hb. split.
  - intros n Hn Hin Hout.
    rewrite (shaderLoop_escape c (Z.to_nat 8000) n) by (try lia; assumption).
    destruct (Z.leb_spec 7999 (Z.of_nat n)); [lia|].
    destruct (getColor u _) as [[r g] b]. reflexivity.
  - intros Hin.
    replace (Z.to_nat 8000) with (S (Z.to_nat 7999)) by lia.
    rewrite (shaderLoop_last c (Z.to_nat 7999))
      by (intros k Hk; apply Hin; lia).
    destruct (Z.leb_spec 7999 (Z.of_nat (Z.to_nat 7999))); [reflexivity|lia].
Qed.

Lemma shaderLoop_bounds c : forall fuel i z iterations steps,
  let r := mandelbrotLoop c fuel i z iterations steps in
  (fst r = iterations \/ i <= fst r < i + Z.of_nat fuel) /\
  (steps <= snd r <= steps + fuel)%nat.
Proof.
  induction fuel as [|fuel IH]; intros i z iterations steps; cbv zeta.
  - simpl. split; [left; reflexivity | lia].
  - rewrite shaderLoop_S. destruct (outside _).
    + simpl. split; [right; lia | lia].
    + specialize (IH (i + 1) (next c z) i (S steps)). cbv zeta in IH.
      destruct IH as [[Hi|Hi] Hs]; split; try lia; right; lia.
Qed.

(** X15: Every fragment is opaque, and is either black or the palette colour of
    [k / 8000] for a whole number [k] from 0 to 7998: the shader looks the
    palette up at 7999 values only, never above 0.99975, and runs at most
    8000 rounds of the loop. *)
Theorem shader_fragment_range (u : Uniforms F) (c : vec2) :
  let '(r, g, b, a, steps) := mandelbrot u c in
  a = n_int 1 /\ (steps <= Z.to_nat 8000)%nat /\
  ((r, g, b, a) = black \/
   exists k, 0 <= k < 7999 /\
     (r, g, b) = getColor u (n_div (n_int k) (n_int 8000))).
Proof.
  unfold mandelbrot.
  destruct (cardioidTest c); [repeat split; [lia | left; reflexivity]|].
  destruct (bulbTest c); [repeat split; [lia | left; reflexivity]|].
  pose proof (shaderLoop_bounds c (Z.to_nat 8000) 0 (n_int 0, n_int 0) 0 O) as Hb.
  cbv zeta in Hb.
  destruct (mandelbrotLoop c (Z.to_nat 8000) 0 _ 0 O) as [iterations steps].
  simpl in Hb. destruct Hb as [Hi Hs].
  destruct (Z.leb_spec 7999 iterations).
  - repeat split; [lia | left; reflexivity].
  - destruct (getColor u _) as [[r g] b] eqn:Hcol.
    repeat split; [lia|]. right. exists iterations. split; [lia|].
    symmetry. exact Hcol.
Qed.
End ShaderFacts.

(** X16: The GPU path and the pointer handlers do not use the same map from
    the canvas to the complex plane.  In exact arithmetic, for the
    fragment at the canvas point [(x, y)]: measured from the centre of the
    view, the point the wheel handler takes to be under the pointer is
    twice as far out vertically, and [2 * height / width] times as far
    out horizontally, as the point the shader draws there. *)
Theorem shader_and_pointer_maps_differ (st : Explorer.State R)
    (u : Shader.Uniforms R) (x y : R) :
  (1 <= Explorer.canvasWidth st)%Z -> (1 <= Explorer.canvasHeight st)%Z ->
  Explorer.zoom st <> 0%R ->
  Shader.u_resolution u
    = (IZR (Explorer.canvasWidth st), IZR (Explorer.canvasHeight st)) ->
  Shader.u_center u = (Explorer.centerX st, Explorer.centerY st) ->
  Shader.u_zoom u = Explorer.zoom st ->
  let w := IZR (Explorer.canvasWidth st) in
  let h := IZR (Explorer.canvasHeight st) in
  let v_texCoord := snd (Shader.vertexMain (clipPosition w h x y)) in
  let drawn := Shader.fragmentPoint u v_texCoord in
  let held := Explorer.cursorToComplex st x y in
  (fst held - Explorer.centerX st
   = 2 * h / w * (fst drawn - Explorer.centerX st))%R /\
  (snd held - Explorer.centerY st
   = 2 * (snd drawn - Explorer.centerY st))%R.
Proof.
  intros Hw Hh Hz Hres Hcen Hzoom w h.
  assert (Hw0 : (w <> 0)%R) by (apply not_0_IZR; lia).
  assert (Hh0 : (h <> 0)%R) by (apply not_0_IZR; lia).
  unfold Shader.fragmentPoint, Shader.vertexMain, clipPosition,
    Explorer.cursorToComplex.
  rewrite Hres, Hcen, Hzoom. simpl. subst w h.
  split; field; auto.
Qed.

Lemma shader_and_pointer_maps_differ_witness :
  let u := {| Shader.u_resolution := (800, 600)%R;
              Shader.u_center := (- (1 / 2), 0)%R;
              Shader.u_zoom := (1 / 2)%R;
              Shader.u_iterations := 1000;
              Shader.u_colorScheme := 0;
              Shader.u_smoothing := true;
              Shader.u_time := 0%R |} in
  let v_texCoord := snd (Shader.vertexMain (clipPosition 800 600 200 150)) in
  let drawn := Shader.fragmentPoint u v_texCoord in
  let held := Explorer.cursorToComplex exactInitial 200%R 150%R in
  (fst held - - (1 / 2) = 2 * 600 / 800 * (fst drawn - - (1 / 2)))%R /\
  (snd held - 0 = 2 * (snd drawn - 0))%R.
Proof.
  apply (shader_and_pointer_maps_differ exactInitial
           {| Shader.u_resolution := (800, 600)%R;
              Shader.u_center := (- (1 / 2), 0)%R;
              Shader.u_zoom := (1 / 2)%R;
              Shader.u_iterations := 1000;
              Shader.u_colorScheme := 0;
              Shader.u_smoothing := true;
              Shader.u_time := 0%R |} 200%R 150%R).
  - simpl. lia.
  - simpl. lia.
  - simpl. lra.
  - reflexivity.
  - reflexivity.
  - reflexivity.
Defined.

Section ShaderOnReferenceGPU.
Import RefGLSL.

Lemma renderWebGL_reads_view_only_witness :
  Shader.renderWebGL (M := RefMath.host)
    Inputs.initial 0%float (0.25, 0.75)%float
  = Shader.renderWebGL (M := RefMath.host)
      (Handlers.withSmoothing (Inputs.withZoom Inputs.initial 0.5) false)
      5000%float (0.25, 0.75)%float.
Proof.
  apply (renderWebGL_reads_view_only);
    reflexivity.
Defined.

(** The point -1.3 is in neither region, and its binary64 orbit stays
    within radius 256 for 7999 steps. *)
Lemma realAxisPoint_stays :
  Spec.staysWithin Shader.gl_ltb Shader.gl_dot (-1.3, 0)%float
    (Spec.orbitOver (-1.3, 0)%float O) (Z.to_nat 7999) = true.
Proof. vm_compute. reflexivity. Qed.

(** The origin is in the cardioid, the point -1 in the bulb and not in the
    cardioid, and the middle of the initial view is the point -0.5 of
    the cardioid. *)
Lemma shader_interior_is_black_witness :
  let u := Shader.uniforms (M := RefMath.host) Inputs.initial 0%float in
  (Spec.inCardioid PrimFloat.leb 0%float 0%float = true /\
   Shader.mandelbrot u (0, 0)%float = ((0, 0, 0, 1)%float, O)) /\
  (Spec.inCardioid PrimFloat.leb (-1)%float 0%float = false /\
   Spec.inBulb PrimFloat.leb (-1)%float 0%float = true /\
   Shader.mandelbrot u (-1, 0)%float = ((0, 0, 0, 1)%float, O)) /\
  Shader.main u (0.5, 0.5)%float = ((0, 0, 0, 1)%float, O).
Proof.
  intros u. split; [|split].
  - split; [reflexivity|].
    exact (proj1 (shader_interior_is_black u (0, 0)%float (or_introl eq_refl))).
  - split; [reflexivity|]. split; [reflexivity|].
    exact (proj1 (shader_interior_is_black u (-1, 0)%float (or_intror eq_refl))).
  - exact (proj2 (shader_interior_is_black u (-0.5, 0)%float (or_introl eq_refl))
             (0.5, 0.5)%float eq_refl).
Defined.

(** The point 2 + 2i is beyond the radius at its fourth step, and gets the
    palette colour of 3 / 8000; the point -1.3 runs all 8000 rounds and is
    black. *)
Lemma shader_escape_time_witness :
  let u := Shader.uniforms (M := RefMath.host) Inputs.initial 0%float in
  Shader.mandelbrot u (2, 2)%float =
    (let '(r, g, b) := Shader.getColor u (3 / 8000)%float in
     (r, g, b, 1%float), 4%nat) /\
  Shader.mandelbrot u (-1.3, 0)%float = ((0, 0, 0, 1)%float, Z.to_nat 8000).
Proof.
  intros u. split.
  - refine (proj1 (shader_escape_time u (2, 2)%float eq_refl eq_refl) 3%nat _ _ _).
    + lia.
    + intros [|[|[|k]]] Hk; [reflexivity | reflexivity | reflexivity | lia].
    + reflexivity.
  - refine (proj2 (shader_escape_time u (-1.3, 0)%float eq_refl eq_refl) _).
    intros k Hk.
    refine (staysWithin_covers _ _ O realAxisPoint_stays k _).
    lia.
Defined.
End ShaderOnReferenceGPU.

(** ** Clamps: the palette argument and the iteration budget *)

Section Clamps.
Local Open Scope float_scope.

Lemma SFcompare_Eq_finite s m e x :
  SFcompare (S754_finite s m e) x = Some Eq -> x = S754_finite s m e.
Proof.
  destruct x as [sx|sx| |sx mx ex]; simpl;
    try (destruct s; discriminate); try (destruct s, sx; discriminate).
  change (Pos.compare_cont Eq ?a ?b) with (Pos.compare a b).
  destruct s, sx; try discriminate;
    destruct (Z.compare_spec e ex); try discriminate;
    destruct (Pos.compare_spec m mx); try discriminate;
    intros _; subst; reflexivity.
Qed.

(** Two comparable values neither of which is below the other are equal
    as numbers; when one of them is a non-zero finite value they are the
    same float. *)
Lemma leb_antisym_finite c x s m e :
  Prim2SF c = S754_finite s m e ->
  (c <=? x) = true -> (x <=? c) = true -> x = c.
Proof.
  intros Hc Hcx Hxc. apply Prim2SF_inj. rewrite Hc.
  apply SFcompare_Eq_finite. rewrite <- Hc.
  rewrite FloatAxioms.leb_spec in Hcx, Hxc. unfold SFleb in Hcx, Hxc.
  rewrite (SFcompare_antisym (Prim2SF c) (Prim2SF x)) in Hxc.
  destruct (SFcompare (Prim2SF c) (Prim2SF x)) as [[]|]; try discriminate.
  reflexivity.
Qed.

Lemma Math_min_cases a b :
  is_nan a = false -> is_nan b = false ->
  (JS.Math_min a b = a \/ JS.Math_min a b = b) /\
  (JS.Math_min a b <=? a) = true /\ (JS.Math_min a b <=? b) = true.
Proof.
  intros Ha Hb. unfold JS.Math_min. rewrite Ha, Hb. cbn [orb].
  destruct (a <? b) eqn:Hab.
  { repeat split; [left; reflexivity | apply leb_refl, Ha | apply ltb_leb, Hab]. }
  destruct (b <? a) eqn:Hba.
  { repeat split; [right; reflexivity | apply ltb_leb, Hba | apply leb_refl, Hb]. }
  rewrite (ltb_flip b a) in Hab by assumption.
  rewrite (ltb_flip a b) in Hba by assumption.
  apply negb_false_iff in Hab, Hba.
  destruct (get_sign a); repeat split; auto using leb_refl.
Qed.

Lemma Math_max_cases a b :
  is_nan a = false -> is_nan b = false ->
  (JS.Math_max a b = a \/ JS.Math_max a b = b) /\
  (a <=? JS.Math_max a b) = true /\ (b <=? JS.Math_max a b) = true.
Proof.
  intros Ha Hb. unfold JS.Math_max. rewrite Ha, Hb. cbn [orb].
  destruct (a <? b) eqn:Hab.
  { repeat split; [right; reflexivity | apply ltb_leb, Hab | apply leb_refl, Hb]. }
  destruct (b <? a) eqn:Hba.
  { repeat split; [left; reflexivity | apply leb_refl, Ha | apply ltb_leb, Hba]. }
  rewrite (ltb_flip b a) in Hab by assumption.
  rewrite (ltb_flip a b) in Hba by assumption.
  apply negb_false_iff in Hab, Hba.
  destruct (get_sign a); repeat split; auto using leb_refl.
Qed.

Lemma Math_max_nan a b :
  is_nan (JS.Math_max a b) = true -> is_nan a = true \/ is_nan b = true.
Proof.
  destruct (is_nan a) eqn:Ha; [auto|]. destruct (is_nan b) eqn:Hb; [auto|].
  destruct (Math_max_cases a b Ha Hb) as [[-> | ->] _]; congruence.
Qed.

(** [Math.max(0, Math.min(1, t))] at and beyond the ends of [0, 1]. *)
Lemma clamp_high t : (1 <=? t) = true -> JS.Math_max 0 (JS.Math_min 1 t) = 1.
Proof.
  intros Ht. destruct (leb_not_nan _ _ Ht) as [_ Hnan].
  assert (Hmin : JS.Math_min 1 t = 1).
  { unfold JS.Math_min. rewrite Hnan. cbn [is_nan orb].
    change (is_nan 1) with false. cbn [orb].
    destruct (1 <? t) eqn:H1t; [reflexivity|].
    rewrite (ltb_flip 1 t) by (try assumption; reflexivity). rewrite Ht. cbn [negb].
    change (get_sign 1) with false. cbv iota.
    rewrite (ltb_flip t 1) in H1t by (try assumption; reflexivity).
    apply negb_false_iff in H1t.
    apply (leb_antisym_finite 1 t false 4503599627370496%positive (-52)%Z);
      [reflexivity | assumption | assumption]. }
  rewrite Hmin. reflexivity.
Qed.

Lemma clamp_low t : (t <=? 0) = true -> JS.Math_max 0 (JS.Math_min 1 t) = 0.
Proof.
  intros Ht. destruct (leb_not_nan _ _ Ht) as [Hnan _].
  assert (Ht1 : (t <? 1) = true) by (apply (leb_ltb_trans t 0 1); [assumption | reflexivity]).
  assert (Hmin : JS.Math_min 1 t = t).
  { unfold JS.Math_min. rewrite Hnan. change (is_nan 1) with false. cbn [orb].
    rewrite (ltb_flip t 1) by (try assumption; reflexivity).
    rewrite (ltb_leb _ _ Ht1). cbn [negb]. rewrite Ht1. reflexivity. }
  rewrite Hmin. unfold JS.Math_max. rewrite Hnan. change (is_nan 0) with false.
  cbn [orb].
  rewrite (ltb_flip t 0) by (try assumption; reflexivity). rewrite Ht. cbn [negb].
  destruct (t <? 0); reflexivity.
Qed.

Section Palette.
Context {M : MathLib}.

(** X17: The palette saturates: [getColor] gives every argument from 1 up the
    colour of 1 and every argument from 0 down the colour of 0, in every
    scheme.  Smoothed iteration counts that leave [0, 1] after
    normalisation are therefore painted with the end colours. *)
Theorem getColor_saturates (t : float) (colorScheme : Z) :
  Worker.getColor t colorScheme =
  Worker.getColor (if 1 <=? t then 1 else if t <=? 0 then 0 else t) colorScheme.
Proof.
  destruct (1 <=? t) eqn:H1.
  - unfold Worker.getColor. rewrite (clamp_high t H1).
    replace (JS.Math_max 0 (JS.Math_min 1 1)) with 1 by reflexivity. reflexivity.
  - destruct (t <=? 0) eqn:H0; [|reflexivity].
    unfold Worker.getColor. rewrite (clamp_low t H0).
    replace (JS.Math_max 0 (JS.Math_min 1 0)) with 0 by reflexivity. reflexivity.
Qed.
End Palette.
End Clamps.

(** ** The iteration budget *)

Section FloorBounds.
Local Open Scope Z_scope.

Lemma digits2_pos_bounds m :
  2 ^ (Z.pos (digits2_pos m) - 1) <= Z.pos m < 2 ^ Z.pos (digits2_pos m).
Proof.
  induction m as [p IH|p IH|]; cbn [digits2_pos]; [ | | simpl; lia].
  - rewrite Pos2Z.inj_succ. change (Z.pos p~1) with (2 * Z.pos p + 1).
    replace (Z.succ (Z.pos (digits2_pos p)) - 1)
      with (Z.succ (Z.pos (digits2_pos p) - 1)) by lia.
    rewrite !Z.pow_succ_r by lia. lia.
  - rewrite Pos2Z.inj_succ. change (Z.pos p~0) with (2 * Z.pos p).
    replace (Z.succ (Z.pos (digits2_pos p)) - 1)
      with (Z.succ (Z.pos (digits2_pos p) - 1)) by lia.
    rewrite !Z.pow_succ_r by lia. lia.
Qed.

(** The mantissa of a finite binary64 value has at most 53 bits, and
    exactly 53 unless the value is subnormal. *)
Lemma finite_mantissa x s m e :
  Prim2SF x = S754_finite s m e ->
  Z.pos m < 2 ^ 53 /\ (- 1074 < e -> 2 ^ 52 <= Z.pos m).
Proof.
  intros Hx. pose proof (Prim2SF_valid x) as Hv. rewrite Hx in Hv.
  unfold valid_binary, bounded, canonical_mantissa in Hv.
  apply andb_true_iff in Hv as [Hc _]. apply Z.eqb_eq in Hc.
  change (Z.max (Z.pos (digits2_pos m) + e - 53) (- 1074) = e) in Hc.
  pose proof (digits2_pos_bounds m) as Hd.
  set (d := Z.pos (digits2_pos m)) in *.
  assert (Hd53 : d <= 53) by lia.
  split.
  - apply Z.lt_le_trans with (2 ^ d); [lia|]. apply Z.pow_le_mono_r; lia.
  - intros He. assert (d = 53) by lia. subst d. replace (2 ^ 52) with (2 ^ (53 - 1)) by reflexivity.
    rewrite <- H. lia.
Qed.

Lemma finite_exponent x s m e :
  Prim2SF x = S754_finite s m e -> - 1074 <= e <= 971.
Proof.
  intros Hx. pose proof (Prim2SF_valid x) as Hv. rewrite Hx in Hv.
  unfold valid_binary, bounded, canonical_mantissa in Hv.
  apply andb_true_iff in Hv as [Hc He]. apply Z.eqb_eq in Hc.
  change (Z.max (Z.pos (digits2_pos m) + e - 53) (- 1074) = e) in Hc.
  change ((e <=? 971) = true) in He. apply Z.leb_le in He. lia.
Qed.

(** [floorZ] against an integer constant [c = a] with mantissa [mc] and
    exponent [ec]. *)
Lemma floorZ_ge c a mc ec x sx m e :
  Prim2SF c = S754_finite false mc ec -> ec <= 0 ->
  Z.pos mc = a * 2 ^ (- ec) ->
  Prim2SF x = S754_finite sx m e ->
  PrimFloat.leb c x = true ->
  a <= JS.floorZ x.
Proof.
  intros Hc Hec Hmc Hx Hle.
  destruct (finite_mantissa c false mc ec Hc) as [Hmc53 _].
  destruct (finite_mantissa x sx m e Hx) as [_ Hm52].
  rewrite FloatAxioms.leb_spec, Hc, Hx in Hle. unfold SFleb, SFcompare in Hle.
  destruct sx; [discriminate|].
  change (Pos.compare_cont Eq mc m) with (Pos.compare mc m) in Hle.
  unfold JS.floorZ. rewrite Hx.
  assert (Hpc : 0 < 2 ^ (- ec)) by (apply Z.pow_pos_nonneg; lia).
  destruct (Z.compare_spec ec e) as [Heq|Hlt|Hgt]; [ | | discriminate].
  - subst e. assert (Hmm : Z.pos mc <= Z.pos m).
    { destruct (Pos.compare_spec mc m); try discriminate; subst; lia. }
    destruct (Z.leb_spec 0 ec).
    + assert (ec = 0) by lia. subst ec. simpl in *. lia.
    + apply Z.div_le_lower_bound; [lia|]. lia.
  - destruct (finite_exponent c false mc ec Hc) as [Hemin _].
    specialize (Hm52 ltac:(lia)).
    destruct (Z.leb_spec 0 e).
    + assert (Hpe : 1 <= 2 ^ e) by (pose proof (Z.pow_pos_nonneg 2 e); lia).
      destruct (Z.eq_dec ec 0) as [->|Hne].
      * simpl in Hmc. assert (2 <= 2 ^ e).
        { replace 2 with (2 ^ 1) at 1 by reflexivity. apply Z.pow_le_mono_r; lia. }
        nia.
      * assert (2 <= 2 ^ (- ec)).
        { replace 2 with (2 ^ 1) at 1 by reflexivity. apply Z.pow_le_mono_r; lia. }
        nia.
    + assert (Hpe : 0 < 2 ^ (- e)) by (apply Z.pow_pos_nonneg; lia).
      apply Z.div_le_lower_bound; [lia|].
      assert (Hsplit : 2 ^ (- ec) = 2 ^ (- e) * 2 ^ (e - ec)).
      { rewrite <- Z.pow_add_r by lia. f_equal. lia. }
      assert (2 <= 2 ^ (e - ec)).
      { replace 2 with (2 ^ 1) at 1 by reflexivity. apply Z.pow_le_mono_r; lia. }
      rewrite Hsplit in Hmc. nia.
Qed.

Lemma floorZ_le c b mc ec x :
  Prim2SF c = S754_finite false mc ec -> ec <= 0 ->
  Z.pos mc = b * 2 ^ (- ec) -> 2 ^ 52 <= Z.pos mc ->
  PrimFloat.leb x c = true ->
  JS.floorZ x <= b.
Proof.
  intros Hc Hec Hmc Hmc52 Hle.
  assert (Hpc : 0 < 2 ^ (- ec)) by (apply Z.pow_pos_nonneg; lia).
  assert (Hb : 0 <= b) by nia.
  rewrite FloatAxioms.leb_spec, Hc in Hle. unfold JS.floorZ.
  destruct (Prim2SF x) as [sx|sx| |sx m e] eqn:Hx; try lia.
  destruct (finite_mantissa x sx m e Hx) as [Hm53 _].
  unfold SFleb, SFcompare in Hle.
  change (Pos.compare_cont Eq m mc) with (Pos.compare m mc) in Hle.
  destruct sx.
  { assert (0 <= (if 0 <=? e then Z.pos m * 2 ^ e else Z.pos m / 2 ^ (- e))).
    { destruct (Z.leb_spec 0 e).
      - pose proof (Z.pow_pos_nonneg 2 e). nia.
      - apply Z.div_pos; [lia | apply Z.pow_pos_nonneg; lia]. }
    destruct (if 0 <=? e then true else Z.pos m mod 2 ^ (- e) =? 0); lia. }
  destruct (Z.compare_spec e ec) as [Heq|Hlt|Hgt]; [ | | discriminate].
  - subst e. assert (Hmm : Z.pos m <= Z.pos mc).
    { destruct (Pos.compare_spec m mc); try discriminate; subst; lia. }
    destruct (Z.leb_spec 0 ec).
    + assert (ec = 0) by lia. subst ec. simpl in *. lia.
    + apply Z.div_le_upper_bound; [lia|]. nia.
  - destruct (Z.leb_spec 0 e); [lia|].
    assert (Hpe : 0 < 2 ^ (- e)) by (apply Z.pow_pos_nonneg; lia).
    assert (Hsplit : 2 ^ (- e) = 2 ^ (- ec) * 2 ^ (ec - e)).
    { rewrite <- Z.pow_add_r by lia. f_equal. lia. }
    assert (2 <= 2 ^ (ec - e)).
    { replace 2 with (2 ^ 1) at 1 by reflexivity. apply Z.pow_le_mono_r; lia. }
    apply Z.div_le_upper_bound; [lia|]. rewrite Hsplit. nia.
Qed.
End FloorBounds.

Section Budget.
Context {M : MathLib}.
Import Explorer.
Local Open Scope Z_scope.

Lemma budget_shape (ceiling base f : float) :
  is_nan ceiling = false -> is_nan base = false ->
  PrimFloat.leb base ceiling = true ->
  let r := JS.Math_min ceiling (JS.Math_max base f) in
  is_nan r = true \/
  (PrimFloat.leb base r = true /\ PrimFloat.leb r ceiling = true).
Proof.
  intros Hc Hb Hbc r.
  destruct (is_nan f) eqn:Hf.
  - left. unfold r, JS.Math_max, JS.Math_min. rewrite Hf, orb_true_r.
    change (is_nan nan) with true. rewrite orb_true_r. reflexivity.
  - right.
    destruct (Math_max_cases base f Hb Hf) as (Hy & Hby & _).
    assert (Hyn : is_nan (JS.Math_max base f) = false)
      by (destruct Hy as [-> | ->]; assumption).
    destruct (Math_min_cases ceiling (JS.Math_max base f) Hc Hyn) as (Hr & Hrc & _).
    fold r in Hr, Hrc. split; [|exact Hrc].
    destruct Hr as [-> | ->]; assumption.
Qed.

Lemma between_is_finite c1 c2 x m1 e1 m2 e2 :
  Prim2SF c1 = S754_finite false m1 e1 ->
  Prim2SF c2 = S754_finite false m2 e2 ->
  PrimFloat.leb c1 x = true -> PrimFloat.leb x c2 = true ->
  exists m e, Prim2SF x = S754_finite false m e.
Proof.
  intros H1 H2 Hlo Hhi.
  rewrite FloatAxioms.leb_spec in Hlo, Hhi. rewrite H1 in Hlo. rewrite H2 in Hhi.
  unfold SFleb, SFcompare in Hlo, Hhi.
  destruct (Prim2SF x) as [s|s| |s m e]; try discriminate.
  - destruct s; discriminate.
  - destruct s; [discriminate|]. eauto.
Qed.

Lemma floorZ_nan x : is_nan x = true -> JS.floorZ x = 0.
Proof. intros Hx. apply is_nan_spec in Hx. unfold JS.floorZ. rewrite Hx. reflexivity. Qed.

(** X18: The adaptive iteration budget stays within its bounds.  Under any of
    the four device ceilings and whatever the host's [Math.log10]
    returns, the budget of the WebGL path is NaN or lies between 500 and
    the ceiling, and the Number posted to a worker as [maxIterations] is
    NaN or lies between 1000 and the ceiling; in the latter case the
    count the worker's loop runs to, its integer part, is in the same
    range. *)
Theorem iteration_budget_range (st : State float) (band : Z * Z) :
  adaptiveQuality st = true ->
  In (maxIterations st) [1000; 2000; 4000; 8000] ->
  (is_nan (iterationsWebGL st) = true \/
   (PrimFloat.leb 500 (iterationsWebGL st) = true /\
    PrimFloat.leb (iterationsWebGL st) (JS.num (maxIterations st)) = true)) /\
  (is_nan (p_maxIterations (posted st band)) = true \/
   (PrimFloat.leb 1000 (p_maxIterations (posted st band)) = true /\
    PrimFloat.leb (p_maxIterations (posted st band))
      (JS.num (maxIterations st)) = true /\
    1000 <= Worker.maxIterations (received (posted st band)) <= maxIterations st)).
Proof.
  intros Ha Hmax.
  assert (Hgpu : forall c, maxIterations st = c -> In c [1000; 2000; 4000; 8000] ->
            is_nan (iterationsWebGL st) = true \/
            (PrimFloat.leb 500 (iterationsWebGL st) = true /\
             PrimFloat.leb (iterationsWebGL st) (JS.num c) = true)).
  { intros c Hc Hin. unfold iterationsWebGL. rewrite Ha, Hc.
    apply budget_shape;
      simpl in Hin; destruct Hin as [<-|[<-|[<-|[<-|[]]]]]; reflexivity. }
  assert (Hcpu : forall c, maxIterations st = c -> In c [1000; 2000; 4000; 8000] ->
            is_nan (iterationsCPU st) = true \/
            (PrimFloat.leb 1000 (iterationsCPU st) = true /\
             PrimFloat.leb (iterationsCPU st) (JS.num c) = true)).
  { intros c Hc Hin. unfold iterationsCPU. rewrite Ha, Hc.
    apply budget_shape;
      simpl in Hin; destruct Hin as [<-|[<-|[<-|[<-|[]]]]]; reflexivity. }
  split; [apply (Hgpu _ eq_refl Hmax)|].
  change (Worker.maxIterations (received (posted st band)))
    with (JS.floorZ (iterationsCPU st)).
  change (p_maxIterations (posted st band)) with (iterationsCPU st).
  destruct (Hcpu _ eq_refl Hmax) as [Hnan|[Hlo Hhi]].
  { left. exact Hnan. }
  right. split; [exact Hlo|]. split; [exact Hhi|].
  set (r := iterationsCPU st) in *.
  assert (Hceil : exists ec,
            - 43 <= ec <= - 40 /\
            Prim2SF (JS.num (maxIterations st))
              = S754_finite false 8796093022208000 ec /\
            8796093022208000 = maxIterations st * 2 ^ (- ec)).
  { simpl in Hmax. destruct Hmax as [<-|[<-|[<-|[<-|[]]]]];
      [exists (- 43) | exists (- 42) | exists (- 41) | exists (- 40)];
      (split; [lia | split; reflexivity]). }
  destruct Hceil as (ec & Hec & Hsf & Hval).
  destruct (between_is_finite 1000 (JS.num (maxIterations st)) r
              8796093022208000 (- 43) 8796093022208000 ec eq_refl Hsf Hlo Hhi)
    as (m & e & Hr).
  split.
  - apply (floorZ_ge 1000 1000 8796093022208000 (- 43) r false m e);
      [reflexivity | lia | reflexivity | exact Hr | exact Hlo].
  - apply (floorZ_le (JS.num (maxIterations st)) (maxIterations st)
             8796093022208000 ec r); [exact Hsf | lia | | lia | exact Hhi].
    rewrite <- Hval. reflexivity.
Qed.
End Budget.

(** On the initial view the budgets are 1000 and 2000 ... *)
Lemma iteration_budget_range_witness :
  (is_nan (Explorer.iterationsWebGL (M := RefMath.host) Inputs.initial) = true \/
   (PrimFloat.leb 500 (Explorer.iterationsWebGL (M := RefMath.host) Inputs.initial) = true /\
    PrimFloat.leb (Explorer.iterationsWebGL (M := RefMath.host) Inputs.initial)
      (JS.num 2000) = true)) /\
  (is_nan (Explorer.p_maxIterations
             (Explorer.posted (M := RefMath.host) Inputs.initial (0, 150))) = true \/
   (PrimFloat.leb 1000
      (Explorer.p_maxIterations
         (Explorer.posted (M := RefMath.host) Inputs.initial (0, 150))) = true /\
    PrimFloat.leb
      (Explorer.p_maxIterations
         (Explorer.posted (M := RefMath.host) Inputs.initial (0, 150)))
      (JS.num 2000) = true /\
    1000 <= Worker.maxIterations
              (Explorer.received
                 (Explorer.posted (M := RefMath.host) Inputs.initial (0, 150)))
         <= 2000)).
Proof.
  apply (iteration_budget_range (M := RefMath.host) Inputs.initial (0, 150)).
  - reflexivity.
  - simpl. tauto.
Defined.

(** ... and a view whose zoom is NaN posts NaN, which the worker's
    comparisons [iterations < maxIterations] all reject. *)
Example nan_budget_is_posted :
  is_nan (Explorer.p_maxIterations
            (Explorer.posted (M := RefMath.host)
               (Inputs.withZoom Inputs.initial nan) (0, 150))) = true.
Proof. reflexivity. Qed.

(** ** Rounding of binary64 sums and differences *)

Section Rounding.
Import Binary64.
Local Open Scope Z_scope.

Lemma iter_pos_nat {A : Type} (f : A -> A) (p : positive) : forall x,
  SpecFloat.iter_pos f p x = Nat.iter (Pos.to_nat p) f x.
Proof.
  induction p as [p IH|p IH|]; intros x; cbn [SpecFloat.iter_pos].
  - rewrite !IH, Pos2Nat.inj_xI. cbn [Nat.mul]. rewrite Nat.add_0_r.
    rewrite Nat.iter_succ_r, Nat.iter_add. reflexivity.
  - rewrite !IH, Pos2Nat.inj_xO. cbn [Nat.mul].
    rewrite Nat.add_0_r, Nat.iter_add. reflexivity.
  - reflexivity.
Qed.

Lemma shr_1_nonneg m r s :
  0 <= m ->
  shr_1 {| shr_m := m; shr_r := r; shr_s := s |} =
  {| shr_m := m / 2; shr_r := Z.odd m; shr_s := r || s |}.
Proof.
  intros Hm. rewrite <- Z.div2_div.
  destruct m as [|[p|p|]|p]; try reflexivity; lia.
Qed.

Ltac split_bools :=
  repeat match goal with
         | |- context [?a <=? ?b] => destruct (Z.leb_spec a b)
         | |- context [?a =? ?b] => destruct (Z.eqb_spec a b)
         end.

(** [n] one-bit shifts of [M] leave its quotient by [2^n], and record
    how the remainder compares with half of [2^n]. *)
Lemma shr_iter M : 0 <= M -> forall n : nat,
  Nat.iter n shr_1 {| shr_m := M; shr_r := false; shr_s := false |} =
  {| shr_m := M / 2 ^ Z.of_nat n;
     shr_r := 2 ^ Z.of_nat n <=? 2 * (M mod 2 ^ Z.of_nat n);
     shr_s := negb (M mod 2 ^ Z.of_nat n =? 0)
              && negb (2 * (M mod 2 ^ Z.of_nat n) =? 2 ^ Z.of_nat n) |}.
Proof.
  intros HM. induction n as [|n IH].
  - cbn [Nat.iter nat_rect]. change (2 ^ Z.of_nat 0) with 1.
    rewrite Z.div_1_r, Z.mod_1_r. reflexivity.
  - rewrite Nat.iter_succ, IH.
    assert (HP : 0 < 2 ^ Z.of_nat n) by (apply Z.pow_pos_nonneg; lia).
    rewrite shr_1_nonneg by (apply Z.div_pos; lia).
    replace (2 ^ Z.of_nat (S n)) with (2 ^ Z.of_nat n * 2)
      by (rewrite Nat2Z.inj_succ, Z.pow_succ_r; lia).
    set (P := 2 ^ Z.of_nat n) in *.
    rewrite Z.rem_mul_r by lia.
    rewrite Z.div_div by lia.
    pose proof (Z.mod_pos_bound M P HP) as Hrem.
    rewrite (Zmod_odd (M / P)).
    set (rem := M mod P) in *.
    destruct (Z.odd (M / P)); f_equal; split_bools; simpl; try reflexivity; lia.
Qed.

Lemma shr_nat mrs e n :
  shr mrs e n = (Nat.iter (Z.to_nat n) shr_1 mrs, e + Z.max n 0).
Proof.
  destruct n as [|p|p]; cbn [shr].
  - f_equal; lia.
  - rewrite iter_pos_nat. f_equal; lia.
  - f_equal; lia.
Qed.

(** Rounding the shifted record to nearest, ties to even, moves the
    value by at most half of [2^n]. *)
Lemma round_shifted M (n : nat) :
  0 <= M ->
  let P := 2 ^ Z.of_nat n in
  let mrs := Nat.iter n shr_1 {| shr_m := M; shr_r := false; shr_s := false |} in
  let m := round_nearest_even (shr_m mrs) (loc_of_shr_record mrs) in
  M / P <= m <= M / P + 1 /\
  2 * Z.abs (m * P - M) <= P /\
  (P = 1 -> m = M).
Proof.
  intros HM P mrs m. subst m mrs. rewrite (shr_iter M HM n). fold P.
  assert (HP : 0 < P) by (apply Z.pow_pos_nonneg; lia).
  pose proof (Z.mod_pos_bound M P HP) as Hrem.
  pose proof (Z.div_mod M P ltac:(lia)) as Hdiv.
  set (q := M / P) in *. set (rem := M mod P) in *.
  cbn [shr_m loc_of_shr_record].
  destruct (Z.leb_spec P (2 * rem)); destruct (Z.eqb_spec rem 0);
    destruct (Z.eqb_spec (2 * rem) P); cbn [negb andb round_nearest_even];
    try destruct (Z.even q); nia.
Qed.

Lemma digits_le p k :
  0 <= k -> Z.pos p < 2 ^ k -> Z.pos (digits2_pos p) <= k.
Proof.
  intros Hk Hp. pose proof (digits2_pos_bounds p) as [Hlo _].
  destruct (Z.le_gt_cases (Z.pos (digits2_pos p)) k) as [|Hgt]; [assumption|].
  assert (2 ^ k <= 2 ^ (Z.pos (digits2_pos p) - 1))
    by (apply Z.pow_le_mono_r; lia).
  lia.
Qed.

Lemma iter_xO_value m d : Z.pos (Pos.iter xO m d) = Z.pos m * 2 ^ Z.pos d.
Proof.
  induction d as [|d IH] using Pos.peano_ind.
  - cbn [Pos.iter]. lia.
  - rewrite Pos.iter_succ, Pos2Z.inj_succ, Z.pow_succ_r by lia.
    change (Z.pos (Pos.iter xO m d)~0) with (2 * Z.pos (Pos.iter xO m d)).
    rewrite IH. ring.
Qed.

Lemma iter_xO_digits m d :
  Z.pos (digits2_pos (Pos.iter xO m d)) = Z.pos (digits2_pos m) + Z.pos d.
Proof.
  induction d as [|d IH] using Pos.peano_ind.
  - cbn [Pos.iter digits2_pos]. lia.
  - rewrite Pos.iter_succ. cbn [digits2_pos]. lia.
Qed.

(** [binary_round_aux] on an exact mantissa that is not too short for its
    exponent: the result has the exponent [t] of the last place, or the
    next one when rounding carries into a new bit, or it overflows. *)
Lemma round_aux_spec s (M : positive) e :
  - 1074 <= e ->
  let t := Z.max (Z.pos (digits2_pos M) + e - 53) (- 1074) in
  e <= t ->
  (binary_round_aux prec emax s (Z.pos M) e loc_Exact = S754_infinity s /\
   971 <= t) \/
  (exists m e',
     binary_round_aux prec emax s (Z.pos M) e loc_Exact = S754_finite s m e' /\
     t <= e' <= t + 1 /\
     2 * Z.abs (Z.pos m * 2 ^ (e' + 1074) - Z.pos M * 2 ^ (e + 1074))
     <= 2 ^ (t + 1074)).
Proof.
  intros He t Het.
  unfold binary_round_aux, shr_fexp. cbn [Zdigits2 shr_record_of_loc].
  change (fexp prec emax (Z.pos (digits2_pos M) + e)) with t.
  rewrite shr_nat. cbv beta iota.
  replace (e + Z.max (t - e) 0) with t by lia.
  pose proof (round_shifted (Z.pos M) (Z.to_nat (t - e)) ltac:(lia)) as Hr.
  cbv zeta in Hr. rewrite Z2Nat.id in Hr by lia.
  set (m2 := round_nearest_even _ _) in *.
  assert (HE : 0 < 2 ^ (e + 1074)) by (apply Z.pow_pos_nonneg; lia).
  assert (HP : 0 < 2 ^ (t - e)) by (apply Z.pow_pos_nonneg; lia).
  assert (Hsplit : 2 ^ (t + 1074) = 2 ^ (t - e) * 2 ^ (e + 1074)).
  { rewrite <- Z.pow_add_r by lia. f_equal. lia. }
  pose proof (digits2_pos_bounds M) as HdM.
  set (d := Z.pos (digits2_pos M)) in *.
  assert (Hd : 0 < d) by (subst d; lia).
  assert (Hupper : Z.pos M < 2 ^ 53 * 2 ^ (t - e)).
  { rewrite <- Z.pow_add_r by lia.
    apply Z.lt_le_trans with (2 ^ d); [lia|]. apply Z.pow_le_mono_r; lia. }
  assert (Hq : Z.pos M / 2 ^ (t - e) < 2 ^ 53)
    by (apply Z.div_lt_upper_bound; lia).
  assert (Hm2pos : 0 < m2).
  { destruct (Z.eq_dec t e) as [Heq|Hne].
    - destruct Hr as (_ & _ & Hone). rewrite Hone; [lia|].
      rewrite Heq, Z.sub_diag. reflexivity.
    - assert (Ht : t = d + e - 53) by lia.
      assert (2 ^ 52 * 2 ^ (t - e) <= Z.pos M).
      { rewrite <- Z.pow_add_r by lia.
        replace (52 + (t - e)) with (d - 1) by lia. lia. }
      assert (2 ^ 52 <= Z.pos M / 2 ^ (t - e))
        by (apply Z.div_le_lower_bound; lia).
      assert (0 < 2 ^ 52) by reflexivity. lia. }
  destruct Hr as (Hm2 & Herr & _).
  assert (Hm2le : m2 <= 2 ^ 53) by lia.
  assert (Hscale : forall m,
            2 * Z.abs (m * 2 ^ (t - e) - Z.pos M) <= 2 ^ (t - e) ->
            2 * Z.abs (m * 2 ^ (t + 1074) - Z.pos M * 2 ^ (e + 1074))
            <= 2 ^ (t + 1074)).
  { intros m Hm. rewrite Hsplit.
    replace (m * (2 ^ (t - e) * 2 ^ (e + 1074)) - Z.pos M * 2 ^ (e + 1074))
      with ((m * 2 ^ (t - e) - Z.pos M) * 2 ^ (e + 1074)) by ring.
    rewrite Z.abs_mul, (Z.abs_eq (2 ^ (e + 1074))) by lia. nia. }
  destruct m2 as [|p|p] eqn:Hp; [lia | | lia].
  cbn [Zdigits2].
  change (fexp prec emax (Z.pos (digits2_pos p) + t))
    with (Z.max (Z.pos (digits2_pos p) + t - 53) (- 1074)).
  change (emax - prec) with 971.
  destruct (Z.eq_dec (Z.pos p) (2 ^ 53)) as [Hcarry|Hnc].
  - assert (Hp53 : p = 9007199254740992%positive) by (injection Hcarry; auto).
    rewrite Hp53.
    change (Z.pos (digits2_pos 9007199254740992)) with 54.
    replace (Z.max (54 + t - 53) (- 1074) - t) with 1 by lia.
    rewrite shr_nat.
    change (Nat.iter (Z.to_nat 1) shr_1
              {| shr_m := 9007199254740992; shr_r := false; shr_s := false |})
      with {| shr_m := 4503599627370496; shr_r := false; shr_s := false |}.
    cbv beta iota. cbn [shr_m]. change (Z.max 1 0) with 1.
    destruct (Z.leb_spec (t + 1) 971).
    + right. exists 4503599627370496%positive, (t + 1). split; [reflexivity|].
      split; [lia|].
      replace (4503599627370496 * 2 ^ (t + 1 + 1074))
        with (Z.pos p * 2 ^ (t + 1074)).
      * apply Hscale. exact Herr.
      * rewrite Hcarry. replace (t + 1 + 1074) with (Z.succ (t + 1074)) by lia.
        rewrite Z.pow_succ_r by lia. change (2 ^ 53) with (4503599627370496 * 2).
        ring.
    + left. split; [reflexivity | lia].
  - assert (Hdp : Z.pos (digits2_pos p) <= 53) by (apply digits_le; lia).
    rewrite shr_nat.
    replace (Z.to_nat (Z.max (Z.pos (digits2_pos p) + t - 53) (- 1074) - t))
      with O by lia.
    cbn [Nat.iter nat_rect]. cbv beta iota. cbn [shr_m].
    replace (t + Z.max (Z.max (Z.pos (digits2_pos p) + t - 53) (- 1074) - t) 0)
      with t by lia.
    destruct (Z.leb_spec t 971).
    + right. exists p, t. split; [reflexivity|]. split; [lia|].
      apply Hscale. exact Herr.
    + left. split; [reflexivity | lia].
Qed.

(** [binary_round]: the same for any mantissa. *)
Lemma binary_round_spec s (M : positive) e :
  - 1074 <= e ->
  let t := Z.max (Z.pos (digits2_pos M) + e - 53) (- 1074) in
  (binary_round prec emax s M e = S754_infinity s /\ 971 <= t) \/
  (exists m e',
     binary_round prec emax s M e = S754_finite s m e' /\
     t <= e' <= t + 1 /\
     2 * Z.abs (Z.pos m * 2 ^ (e' + 1074) - Z.pos M * 2 ^ (e + 1074))
     <= 2 ^ (t + 1074)).
Proof.
  intros He t. unfold binary_round, shl_align.
  change (fexp prec emax (Z.pos (digits2_pos M) + e)) with t.
  destruct (t - e) as [|dd|dd] eqn:Hdd.
  - apply (round_aux_spec s M e He). fold t. lia.
  - apply (round_aux_spec s M e He). fold t. lia.
  - pose proof (round_aux_spec s (Pos.iter xO M dd) t ltac:(lia)) as Hr.
    cbv zeta in Hr. rewrite iter_xO_digits in Hr.
    replace (Z.max (Z.pos (digits2_pos M) + Z.pos dd + t - 53) (- 1074))
      with t in Hr by lia.
    replace (Z.pos (Pos.iter xO M dd) * 2 ^ (t + 1074))
      with (Z.pos M * 2 ^ (e + 1074)) in Hr.
    + apply Hr. lia.
    + rewrite iter_xO_value, <- Z.mul_assoc, <- Z.pow_add_r by lia.
      do 2 f_equal. lia.
Qed.

Lemma shl_align_value m e ez :
  - 1074 <= ez -> ez <= e ->
  Z.pos (fst (shl_align m e ez)) * 2 ^ (ez + 1074) = Z.pos m * 2 ^ (e + 1074).
Proof.
  intros Hmin Hle. unfold shl_align.
  destruct (ez - e) as [|dd|dd] eqn:Hdd; cbn [fst]; [ | lia | ].
  - replace ez with e by lia. reflexivity.
  - rewrite iter_xO_value, <- Z.mul_assoc, <- Z.pow_add_r by lia.
    do 2 f_equal. lia.
Qed.

(** A finite value is its own rounding. *)
Lemma exact_rounds r :
  finiteSF r = true -> - 1074 <= exponentSF r -> roundsTo (scaledSF r) r.
Proof.
  intros Hf He. exists (- 1074). split; [lia|]. split; [left; reflexivity|].
  right. split; [exact Hf|]. split; [|exact He].
  rewrite Z.sub_diag. simpl. lia.
Qed.

Lemma normalize_rounds (S : Z) ez :
  - 1074 <= ez ->
  roundsTo (S * 2 ^ (ez + 1074)) (binary_normalize prec emax S ez false).
Proof.
  intros He.
  assert (HE : 0 < 2 ^ (ez + 1074)) by (apply Z.pow_pos_nonneg; lia).
  assert (Hcases : forall (s : bool) (M : positive),
            roundsTo (cond_Zopp s (Z.pos M * 2 ^ (ez + 1074)))
                     (binary_round prec emax s M ez)).
  { intros s M.
    pose proof (binary_round_spec s M ez He) as Hr. cbv zeta in Hr.
    pose proof (digits2_pos_bounds M) as Hd.
    set (d := Z.pos (digits2_pos M)) in *.
    set (t := Z.max (d + ez - 53) (- 1074)) in *.
    exists t. split; [lia|]. split.
    { destruct (Z.eq_dec t (- 1074)) as [|Hne]; [left; assumption|right].
      assert (Ht : t = d + ez - 53) by lia.
      replace (52 + t + 1074) with ((d - 1) + (ez + 1074)) by lia.
      rewrite Z.pow_add_r by lia.
      replace (Z.abs (cond_Zopp s (Z.pos M * 2 ^ (ez + 1074))))
        with (Z.pos M * 2 ^ (ez + 1074)) by (destruct s; cbn [cond_Zopp]; lia).
      apply Z.mul_le_mono_nonneg_r; lia. }
    destruct Hr as [[Hinf Ht] | (m & e' & Hfin & He' & Herr)].
    - left. split; [exists s; exact Hinf | exact Ht].
    - right. rewrite Hfin. cbn [finiteSF scaledSF exponentSF].
      split; [reflexivity|]. split; [|lia].
      destruct s; cbn [cond_Zopp]; [|exact Herr].
      replace (- (Z.pos m * 2 ^ (e' + 1074)) - - (Z.pos M * 2 ^ (ez + 1074)))
        with (- (Z.pos m * 2 ^ (e' + 1074) - Z.pos M * 2 ^ (ez + 1074))) by ring.
      rewrite Z.abs_opp. exact Herr. }
  destruct S as [|M|M]; cbn [binary_normalize].
  - rewrite Z.mul_0_l. apply (exact_rounds (S754_zero false)); [reflexivity|].
    cbn [exponentSF]. lia.
  - apply (Hcases false M).
  - rewrite <- Pos2Z.opp_pos, Z.mul_opp_l. apply (Hcases true M).
Qed.

Lemma aligned_sum sx mx ex sy my ey :
  - 1074 <= ex -> - 1074 <= ey ->
  forall op : Z -> Z -> Z,
  (forall a b c, op a b * c = op (a * c) (b * c)) ->
  op (cond_Zopp sx (Z.pos (fst (shl_align mx ex (Z.min ex ey)))))
     (cond_Zopp sy (Z.pos (fst (shl_align my ey (Z.min ex ey)))))
  * 2 ^ (Z.min ex ey + 1074)
  = op (scaledSF (S754_finite sx mx ex)) (scaledSF (S754_finite sy my ey)).
Proof.
  intros Hx Hy op Hop. rewrite Hop. cbn [scaledSF].
  rewrite <- (shl_align_value mx ex (Z.min ex ey)) by lia.
  rewrite <- (shl_align_value my ey (Z.min ex ey)) by lia.
  f_equal; [destruct sx | destruct sy]; cbn [cond_Zopp]; ring.
Qed.

Lemma SFadd_rounds x y :
  finiteSF x = true -> finiteSF y = true ->
  - 1074 <= exponentSF x -> - 1074 <= exponentSF y ->
  roundsTo (scaledSF x + scaledSF y) (SFadd prec emax x y).
Proof.
  intros Hx Hy Hex Hey.
  destruct x as [sx|sx| |sx mx ex]; try discriminate;
    destruct y as [sy|sy| |sy my ey]; try discriminate.
  - destruct sx, sy; apply (exact_rounds (S754_zero _)); (reflexivity || exact Hex).
  - cbn [SFadd scaledSF]. rewrite Z.add_0_l.
    apply (exact_rounds (S754_finite sy my ey)); assumption.
  - cbn [SFadd]. change (scaledSF (S754_zero sy)) with 0. rewrite Z.add_0_r.
    apply (exact_rounds (S754_finite sx mx ex)); assumption.
  - cbn [SFadd]. cbv zeta. cbn [exponentSF] in Hex, Hey.
    rewrite <- (aligned_sum sx mx ex sy my ey Hex Hey Z.add)
      by (intros; ring).
    apply normalize_rounds. lia.
Qed.

Lemma SFsub_rounds x y :
  finiteSF x = true -> finiteSF y = true ->
  - 1074 <= exponentSF x -> - 1074 <= exponentSF y ->
  roundsTo (scaledSF x - scaledSF y) (SFsub prec emax x y).
Proof.
  intros Hx Hy Hex Hey.
  destruct x as [sx|sx| |sx mx ex]; try discriminate;
    destruct y as [sy|sy| |sy my ey]; try discriminate.
  - destruct sx, sy; apply (exact_rounds (S754_zero _)); (reflexivity || exact Hex).
  - cbn [SFsub].
    replace (scaledSF (S754_zero sx) - scaledSF (S754_finite sy my ey))
      with (scaledSF (S754_finite (negb sy) my ey))
      by (cbn [scaledSF]; destruct sy; cbn [negb cond_Zopp]; lia).
    apply exact_rounds; [reflexivity | exact Hey].
  - cbn [SFsub]. change (scaledSF (S754_zero sy)) with 0. rewrite Z.sub_0_r.
    apply (exact_rounds (S754_finite sx mx ex)); assumption.
  - cbn [SFsub]. cbv zeta. cbn [exponentSF] in Hex, Hey.
    rewrite <- (aligned_sum sx mx ex sy my ey Hex Hey Z.sub)
      by (intros; ring).
    apply normalize_rounds. lia.
Qed.

(** *** The same on Numbers *)

Lemma exponent_min x : - 1074 <= exponent x.
Proof.
  unfold exponent. destruct (Prim2SF x) as [s|s| |s m e] eqn:Hx;
    cbn [exponentSF]; try lia.
  destruct (finite_exponent x s m e Hx). lia.
Qed.

Lemma add_rounds x y :
  isFinite x = true -> isFinite y = true ->
  roundsTo (scaled x + scaled y) (Prim2SF (x + y)).
Proof.
  intros Hx Hy. rewrite FloatAxioms.add_spec.
  apply SFadd_rounds; try assumption; apply exponent_min.
Qed.

Lemma sub_rounds x y :
  isFinite x = true -> isFinite y = true ->
  roundsTo (scaled x - scaled y) (Prim2SF (x - y)).
Proof.
  intros Hx Hy. rewrite FloatAxioms.sub_spec.
  apply SFsub_rounds; try assumption; apply exponent_min.
Qed.

(** A finite operand and a finite result leave no room for an infinite
    or NaN second operand. *)
Lemma add_finite_inv x y :
  isFinite x = true -> isFinite (x + y) = true -> isFinite y = true.
Proof.
  unfold isFinite. rewrite FloatAxioms.add_spec.
  destruct (Prim2SF x) as [sx|sx| |sx mx ex]; try discriminate;
    destruct (Prim2SF y) as [sy|sy| |sy my ey]; intros _ H;
    try reflexivity; exact H.
Qed.

Lemma sub_finite_inv x y :
  isFinite x = true -> isFinite (x - y) = true -> isFinite y = true.
Proof.
  unfold isFinite. rewrite FloatAxioms.sub_spec.
  destruct (Prim2SF x) as [sx|sx| |sx mx ex]; try discriminate;
    destruct (Prim2SF y) as [sy|sy| |sy my ey]; intros _ H;
    try reflexivity; exact H.
Qed.

Lemma scaled_magnitude x s m e :
  Prim2SF x = S754_finite s m e ->
  Z.abs (scaled x) = Z.pos m * 2 ^ (e + 1074).
Proof.
  intros Hx. unfold scaled. rewrite Hx. cbn [scaledSF].
  destruct (finite_exponent x s m e Hx).
  assert (0 < 2 ^ (e + 1074)) by (apply Z.pow_pos_nonneg; lia).
  destruct s; cbn [cond_Zopp]; lia.
Qed.

(** A value below [2^(k + 53)] units has its last place at [k] or
    below. *)
Lemma exponent_le x k :
  - 1074 <= k -> Z.abs (scaled x) < 2 ^ (k + 53 + 1074) -> exponent x <= k.
Proof.
  intros Hk Hx. unfold exponent.
  destruct (Prim2SF x) as [s|s| |s m e] eqn:Hsf; cbn [exponentSF]; try lia.
  rewrite (scaled_magnitude x s m e Hsf) in Hx.
  destruct (Z.le_gt_cases e k) as [|Hgt]; [assumption|exfalso].
  destruct (finite_mantissa x s m e Hsf) as [_ Hm52].
  specialize (Hm52 ltac:(lia)).
  assert (2 ^ (k + 53 + 1074) <= 2 ^ 52 * 2 ^ (e + 1074)).
  { rewrite <- Z.pow_add_r by lia. apply Z.pow_le_mono_r; lia. }
  assert (0 < 2 ^ (e + 1074)) by (apply Z.pow_pos_nonneg; lia).
  nia.
Qed.

(** From the size of the result to the size of the error ... *)
Lemma rounds_back V r k :
  roundsTo V (Prim2SF r) -> isFinite r = true ->
  - 1074 <= k -> Z.abs (scaled r) < 2 ^ (k + 53 + 1074) ->
  2 * Z.abs (scaled r - V) <= 2 ^ (k + 1074).
Proof.
  intros (t & Ht & _ & Hr) Hf Hk Hsize.
  destruct Hr as [[[s Hinf] _] | (_ & Herr & Hexp)].
  { unfold isFinite in Hf. rewrite Hinf in Hf. discriminate. }
  pose proof (exponent_le r k Hk Hsize) as He. unfold exponent in He.
  apply Z.le_trans with (2 ^ (t + 1074)); [exact Herr|].
  apply Z.pow_le_mono_r; lia.
Qed.

(** ... and from the size of the exact value. *)
Lemma rounds_fwd V r k :
  roundsTo V (Prim2SF r) ->
  - 1074 <= k <= 970 -> Z.abs V < 2 ^ (k + 53 + 1074) ->
  isFinite r = true /\ 2 * Z.abs (scaled r - V) <= 2 ^ (k + 1074).
Proof.
  intros (t & Ht & Hmag & Hr) Hk Hsize.
  assert (Htk : t <= k).
  { destruct Hmag as [->|Hmag]; [lia|].
    assert (Hlt : 2 ^ (52 + t + 1074) < 2 ^ (k + 53 + 1074)) by lia.
    apply Z.pow_lt_mono_r_iff in Hlt; lia. }
  destruct Hr as [[_ Hover] | (Hf & Herr & _)]; [lia|].
  split; [exact Hf|].
  apply Z.le_trans with (2 ^ (t + 1074)); [exact Herr|].
  apply Z.pow_le_mono_r; lia.
Qed.

(** *** Comparisons *)

Lemma canonical_compare x1 s1 m1 e1 x2 s2 m2 e2 :
  Prim2SF x1 = S754_finite s1 m1 e1 -> Prim2SF x2 = S754_finite s2 m2 e2 ->
  match e1 ?= e2 with
  | Lt => Lt
  | Gt => Gt
  | Eq => Pos.compare_cont Eq m1 m2
  end
  = (Z.pos m1 * 2 ^ (e1 + 1074) ?= Z.pos m2 * 2 ^ (e2 + 1074)).
Proof.
  intros H1 H2.
  destruct (finite_mantissa x1 s1 m1 e1 H1) as [Hm1 Hn1].
  destruct (finite_mantissa x2 s2 m2 e2 H2) as [Hm2 Hn2].
  destruct (finite_exponent x1 s1 m1 e1 H1) as [He1 _].
  destruct (finite_exponent x2 s2 m2 e2 H2) as [He2 _].
  assert (Hstep : forall lo hi, - 1074 <= lo < hi ->
            2 ^ (hi + 1074) = 2 ^ (lo + 1074) * 2 ^ (hi - lo) /\
            2 <= 2 ^ (hi - lo) /\ 0 < 2 ^ (lo + 1074)).
  { intros lo hi Hlh. split; [|split].
    - rewrite <- Z.pow_add_r by lia. f_equal. lia.
    - change 2 with (2 ^ 1) at 1. apply Z.pow_le_mono_r; lia.
    - apply Z.pow_pos_nonneg; lia. }
  assert (H53 : 2 ^ 53 = 2 * 2 ^ 52) by reflexivity.
  destruct (Z.compare_spec e1 e2) as [Heq|Hlt|Hgt].
  - subst e2. change (Pos.compare_cont Eq m1 m2) with (Pos.compare m1 m2).
    assert (HE : 0 < 2 ^ (e1 + 1074)) by (apply Z.pow_pos_nonneg; lia).
    symmetry.
    destruct (Pos.compare_spec m1 m2) as [->|Hlt|Hgt];
      [apply Z.compare_eq_iff; reflexivity
      | apply Z.compare_lt_iff | apply Z.compare_gt_iff]; nia.
  - symmetry. apply Z.compare_lt_iff.
    destruct (Hstep e1 e2 ltac:(lia)) as (-> & Hp & HE).
    specialize (Hn2 ltac:(lia)).
    assert (Hm : Z.pos m1 < Z.pos m2 * 2 ^ (e2 - e1)) by nia.
    rewrite (Z.mul_comm (2 ^ (e1 + 1074))), Z.mul_assoc.
    apply Z.mul_lt_mono_pos_r; assumption.
  - symmetry. apply Z.compare_gt_iff.
    destruct (Hstep e2 e1 ltac:(lia)) as (-> & Hp & HE).
    specialize (Hn1 ltac:(lia)).
    assert (Hm : Z.pos m2 < Z.pos m1 * 2 ^ (e1 - e2)) by nia.
    rewrite (Z.mul_comm (2 ^ (e2 + 1074))), Z.mul_assoc.
    apply Z.mul_lt_mono_pos_r; assumption.
Qed.

(** On finite Numbers [<=] is [<=] of the values. *)
Lemma leb_scaled x y :
  isFinite x = true -> isFinite y = true ->
  PrimFloat.leb x y = (scaled x <=? scaled y).
Proof.
  unfold isFinite, scaled. intros Hx Hy. rewrite FloatAxioms.leb_spec.
  destruct (Prim2SF x) as [sx|sx| |sx mx ex] eqn:Ex; try discriminate;
    destruct (Prim2SF y) as [sy|sy| |sy my ey] eqn:Ey; try discriminate;
    cbn [scaledSF].
  - reflexivity.
  - assert (0 < Z.pos my * 2 ^ (ey + 1074)).
    { destruct (finite_exponent y sy my ey Ey).
      apply Z.mul_pos_pos; [lia | apply Z.pow_pos_nonneg; lia]. }
    unfold SFleb, SFcompare. symmetry.
    destruct sy; cbn [cond_Zopp]; [apply Z.leb_gt | apply Z.leb_le]; lia.
  - assert (0 < Z.pos mx * 2 ^ (ex + 1074)).
    { destruct (finite_exponent x sx mx ex Ex).
      apply Z.mul_pos_pos; [lia | apply Z.pow_pos_nonneg; lia]. }
    unfold SFleb, SFcompare. symmetry.
    destruct sx; cbn [cond_Zopp]; [apply Z.leb_le | apply Z.leb_gt]; lia.
  - pose proof (canonical_compare x sx mx ex y sy my ey Ex Ey) as Hc.
    assert (Hpx : 0 < Z.pos mx * 2 ^ (ex + 1074)).
    { destruct (finite_exponent x sx mx ex Ex).
      apply Z.mul_pos_pos; [lia | apply Z.pow_pos_nonneg; lia]. }
    assert (Hpy : 0 < Z.pos my * 2 ^ (ey + 1074)).
    { destruct (finite_exponent y sy my ey Ey).
      apply Z.mul_pos_pos; [lia | apply Z.pow_pos_nonneg; lia]. }
    set (a := Z.pos mx * 2 ^ (ex + 1074)) in *.
    set (b := Z.pos my * 2 ^ (ey + 1074)) in *.
    unfold SFleb, SFcompare. symmetry.
    destruct sx, sy; cbn [cond_Zopp].
    + replace (match ex ?= ey with
               | Eq => CompOpp (Pos.compare_cont Eq mx my)
               | Lt => Gt
               | Gt => Lt
               end)
        with (CompOpp (match ex ?= ey with
                       | Eq => Pos.compare_cont Eq mx my
                       | Lt => Lt
                       | Gt => Gt
                       end))
        by (destruct (ex ?= ey); reflexivity).
      rewrite Hc.
      destruct (Z.compare_spec a b); cbn [CompOpp];
        [apply Z.leb_le | apply Z.leb_gt | apply Z.leb_le]; lia.
    + apply Z.leb_le. lia.
    + apply Z.leb_gt. lia.
    + rewrite Hc.
      destruct (Z.compare_spec a b);
        [apply Z.leb_le | apply Z.leb_le | apply Z.leb_gt]; lia.
Qed.

Lemma scaled_abs x : scaled (abs x) = Z.abs (scaled x).
Proof.
  unfold scaled. rewrite FloatAxioms.abs_spec.
  destruct (Prim2SF x) as [s|s| |s m e]; cbn [SFabs scaledSF]; try reflexivity.
  assert (0 <= Z.pos m * 2 ^ (e + 1074))
    by (apply Z.mul_nonneg_nonneg; [lia | apply Z.pow_nonneg; lia]).
  destruct s; cbn [cond_Zopp]; lia.
Qed.

Lemma isFinite_abs x : isFinite (abs x) = isFinite x.
Proof.
  unfold isFinite. rewrite FloatAxioms.abs_spec.
  destruct (Prim2SF x); reflexivity.
Qed.

Lemma moderate_units : scaled 8388607 = 8388607 * 2 ^ 1074.
Proof. vm_compute. reflexivity. Qed.

(** A moderate coordinate is finite and below [2^23]. *)
Lemma moderate_bound v :
  Spec.moderate v = true ->
  isFinite v = true /\ Z.abs (scaled v) <= 8388607 * 2 ^ 1074.
Proof.
  unfold Spec.moderate. intros H.
  assert (Hf : isFinite (abs v) = true).
  { rewrite FloatAxioms.leb_spec, FloatAxioms.abs_spec in H.
    unfold isFinite. rewrite FloatAxioms.abs_spec.
    change (Prim2SF 8388607) with (S754_finite false 9007198180999168 (- 30)) in H.
    destruct (Prim2SF v) as [s|s| |s m e]; try reflexivity;
      cbn in H; discriminate H. }
  rewrite leb_scaled in H by (exact Hf || reflexivity).
  apply Z.leb_le in H. rewrite scaled_abs, moderate_units in H.
  rewrite isFinite_abs in Hf. split; assumption.
Qed.

Lemma units_facts :
  2 ^ (- 30 + 53 + 1074) = 8388608 * 2 ^ 1074 /\
  2 ^ (- 30 + 1074) = 2 ^ 1044 /\
  2 ^ 1044 < 2 ^ 1074 /\
  2 ^ (- 82 + 53 + 1074) = 2 * 2 ^ 1044 /\
  2 ^ (- 82 + 1074) = 2 * 2 ^ 991 /\
  2 ^ 1044 + 2 ^ 991 <= scaled 1e-9.
Proof. vm_compute. repeat split; discriminate. Qed.

(** The last two roundings of either axis: the cursor's coordinate [X]
    is rebuilt from the new centre [c], itself off its exact value [V1] by
    at most [2^-31], and compared with [X]. *)
Lemma drift_tail (X c after d : float) (V1 : Z) :
  isFinite X = true -> Z.abs (scaled X) <= 8388607 * 2 ^ 1074 ->
  2 * Z.abs (scaled c - V1) <= 2 ^ 1044 ->
  roundsTo (scaled X + (scaled c - V1)) (Prim2SF after) ->
  (isFinite after = true -> roundsTo (scaled X - scaled after) (Prim2SF d)) ->
  PrimFloat.leb (abs d) 1e-9 = true.
Proof.
  intros HfX HbX Herr1 Hafter Hd.
  destruct units_facts as (H1097 & H1044 & Hsmall & H1045 & H992 & Htol).
  destruct (rounds_fwd _ after (- 30) Hafter ltac:(lia)) as [Hfa Herr2].
  { rewrite H1097. lia. }
  rewrite H1044 in Herr2.
  destruct (rounds_fwd _ d (- 82) (Hd Hfa) ltac:(lia)) as [Hfd Herr3].
  { rewrite H1045. lia. }
  rewrite H992 in Herr3.
  rewrite leb_scaled by (rewrite ?isFinite_abs; (exact Hfd || reflexivity)).
  apply Z.leb_le. rewrite scaled_abs. lia.
Qed.

Lemma drift_x (X a : float) :
  Spec.moderate X = true -> Spec.moderate (X - a) = true ->
  PrimFloat.leb (abs (X - (a + (X - a)))) 1e-9 = true.
Proof.
  intros HX Hc.
  destruct (moderate_bound X HX) as [HfX HbX].
  destruct (moderate_bound _ Hc) as [Hfc Hbc].
  pose proof (sub_finite_inv X a HfX Hfc) as Hfa.
  destruct units_facts as (H1097 & H1044 & _).
  apply (drift_tail X (X - a) (a + (X - a)) _ (scaled X - scaled a));
    try assumption.
  - rewrite <- H1044.
    apply (rounds_back _ (X - a)%float (- 30));
      [apply sub_rounds; assumption | exact Hfc | lia | rewrite H1097; lia].
  - replace (scaled X + (scaled (X - a) - (scaled X - scaled a)))
      with (scaled a + scaled (X - a)) by ring.
    apply add_rounds; assumption.
  - intros Hfafter. apply sub_rounds; assumption.
Qed.

Lemma drift_y (Y b : float) :
  Spec.moderate Y = true -> Spec.moderate (Y + b) = true ->
  PrimFloat.leb (abs (Y - (Y + b - b))) 1e-9 = true.
Proof.
  intros HY Hc.
  destruct (moderate_bound Y HY) as [HfY HbY].
  destruct (moderate_bound _ Hc) as [Hfc Hbc].
  pose proof (add_finite_inv Y b HfY Hfc) as Hfb.
  destruct units_facts as (H1097 & H1044 & _).
  apply (drift_tail Y (Y + b) (Y + b - b) _ (scaled Y + scaled b));
    try assumption.
  - rewrite <- H1044.
    apply (rounds_back _ (Y + b)%float (- 30));
      [apply add_rounds; assumption | exact Hfc | lia | rewrite H1097; lia].
  - replace (scaled Y + (scaled (Y + b) - (scaled Y + scaled b)))
      with (scaled (Y + b) - scaled b) by ring.
    apply sub_rounds; assumption.
  - intros Hfafter. apply sub_rounds; assumption.
Qed.
End Rounding.

(** ** Zoom at the cursor *)

(** In binary64 the coordinate under the cursor is not preserved to within
    1e-9 on every view: after 144 wheel-out steps at pixel (1, 1) from the
    initial view (zoom about 1.29e-7, centre about (1.5e7, -1.5e7)), one
    more step moves the real part of the cursor's coordinate by about
    1.86e-9. *)
Lemma C8_binary64_tolerance_counterexample :
  Explorer.zoom Inputs.zoomedOut = 1.2879273433794994e-07%float /\
  Explorer.centerX Inputs.zoomedOut = 15489999.742421634%float /\
  fst (Explorer.cursorToComplex Inputs.zoomedOut 1%float 1%float)
  = (-4.4900000002235174)%float /\
  fst (Explorer.cursorToComplex
         (Explorer.handleWheel Inputs.zoomedOut Inputs.wheelOut) 1%float 1%float)
  = (-4.4900000020861626)%float /\
  fst (Spec.wheelDrift Inputs.zoomedOut Inputs.wheelOut) = 1.862645149230957e-09%float /\
  PrimFloat.ltb 1e-9%float (fst (Spec.wheelDrift Inputs.zoomedOut Inputs.wheelOut)) = true /\
  Spec.moderate
    (Explorer.centerX (Explorer.handleWheel Inputs.zoomedOut Inputs.wheelOut)) = false.
Proof. repeat split; vm_compute; reflexivity. Qed.

Section WheelDrift.
Local Open Scope float_scope.

(** Each axis of the drift depends on the cursor's coordinate on that axis
    only. *)
Lemma wheelDrift_axes st x y out :
  Spec.wheelDrift st (Inputs.wheelAt x y out) =
  (fst (Spec.wheelDrift st (Inputs.wheelAt x 0 out)),
   snd (Spec.wheelDrift st (Inputs.wheelAt 0 y out))).
Proof. reflexivity. Qed.

Lemma initial_drift_columns :
  forallb (fun x => (fst (Spec.wheelDrift Inputs.initial (Inputs.wheelAt x 0 true)) <=? 1e-9)
                 && (fst (Spec.wheelDrift Inputs.initial (Inputs.wheelAt x 0 false)) <=? 1e-9))
          (seqZ 0 801) = true.
Proof. vm_compute. reflexivity. Qed.

Lemma initial_drift_rows :
  forallb (fun y => (snd (Spec.wheelDrift Inputs.initial (Inputs.wheelAt 0 y true)) <=? 1e-9)
                 && (snd (Spec.wheelDrift Inputs.initial (Inputs.wheelAt 0 y false)) <=? 1e-9))
          (seqZ 0 601) = true.
Proof. vm_compute. reflexivity. Qed.

Lemma initial_drift x y out :
  (0 <= x <= 800)%Z -> (0 <= y <= 600)%Z ->
  withinTolerance (Spec.wheelDrift Inputs.initial (Inputs.wheelAt x y out)) = true.
Proof.
  intros Hx Hy. rewrite wheelDrift_axes. unfold withinTolerance. simpl fst. simpl snd.
  pose proof initial_drift_columns as Hc. pose proof initial_drift_rows as Hr.
  rewrite forallb_forall in Hc, Hr.
  specialize (Hc x). specialize (Hr y).
  rewrite <- list_elem_of_In, elem_of_seqZ in Hc, Hr.
  specialize (Hc ltac:(lia)). specialize (Hr ltac:(lia)).
  apply andb_prop in Hc as [Hc1 Hc2]. apply andb_prop in Hr as [Hr1 Hr2].
  destruct out; apply andb_true_intro; split; assumption.
Qed.
End WheelDrift.

(** In binary64, one wheel event moves the coordinate under the cursor
    by at most 1e-9 on either axis whenever that coordinate and the new
    centre of the view are moderate. *)
Lemma wheel_drift_moderate (st : Explorer.State float)
    (e : Explorer.WheelEvent float) :
  let held :=
    Explorer.cursorToComplex st (Explorer.clientX e) (Explorer.clientY e) in
  let st' := Explorer.handleWheel st e in
  Spec.moderate (fst held) = true -> Spec.moderate (snd held) = true ->
  Spec.moderate (Explorer.centerX st') = true ->
  Spec.moderate (Explorer.centerY st') = true ->
  withinTolerance (Spec.wheelDrift st e) = true.
Proof.
  intros held st' HX HY HcX HcY.
  unfold withinTolerance, Spec.wheelDrift. cbn [fst snd].
  apply andb_true_intro. split.
  - exact (drift_x _ _ HX HcX).
  - exact (drift_y _ _ HY HcY).
Qed.

(** C8 (amended): read in real arithmetic, [handleWheel] leaves the
    complex coordinate under the cursor unchanged, for every view, canvas,
    cursor position and wheel direction.  In binary64 the coordinate moves
    by at most 1e-9 on either axis, for every view, canvas, cursor position
    and wheel direction for which the cursor's coordinate and the new
    centre of the view are at most [2^23 - 1] in magnitude; this covers
    every cursor pixel of the initial 800 x 600 view.  Beyond that
    magnitude the movement is not bounded by 1e-9. *)
Theorem C8_zoom_at_cursor_invariance :
  (forall (st : Explorer.State R) (e : Explorer.WheelEvent R),
     Explorer.cursorToComplex (Explorer.handleWheel st e)
       (Explorer.clientX e) (Explorer.clientY e)
     = Explorer.cursorToComplex st (Explorer.clientX e) (Explorer.clientY e)) /\
  (forall (st : Explorer.State float) (e : Explorer.WheelEvent float),
     let held :=
       Explorer.cursorToComplex st (Explorer.clientX e) (Explorer.clientY e) in
     let st' := Explorer.handleWheel st e in
     Spec.moderate (fst held) = true -> Spec.moderate (snd held) = true ->
     Spec.moderate (Explorer.centerX st') = true ->
     Spec.moderate (Explorer.centerY st') = true ->
     withinTolerance (Spec.wheelDrift st e) = true) /\
  (forall x y out, 0 <= x <= 800 -> 0 <= y <= 600 ->
     withinTolerance (Spec.wheelDrift Inputs.initial (Inputs.wheelAt x y out)) = true).
Proof.
  split; [|split].
  - intros st e.
    unfold Explorer.handleWheel, Explorer.cursorToComplex, Explorer.withView; simpl.
    f_equal; ring.
  - exact wheel_drift_moderate.
  - intros x y out. apply initial_drift.
Qed.

(** A wheel-in event off the centre of a 1920 x 1080 canvas at zoom 1e6:
    the cursor's coordinate and the new centre are moderate, and the
    cursor's coordinate stays within the tolerance. *)
Lemma C8_zoom_at_cursor_invariance_witness :
  let held :=
    Explorer.cursorToComplex Inputs.deepView
      (Explorer.clientX Inputs.deepWheel) (Explorer.clientY Inputs.deepWheel) in
  let st' := Explorer.handleWheel Inputs.deepView Inputs.deepWheel in
  (Spec.moderate (fst held) = true /\ Spec.moderate (snd held) = true /\
   Spec.moderate (Explorer.centerX st') = true /\
   Spec.moderate (Explorer.centerY st') = true) /\
  withinTolerance (Spec.wheelDrift Inputs.deepView Inputs.deepWheel) = true.
Proof.
  split; [repeat split|].
  apply (proj1 (proj2 C8_zoom_at_cursor_invariance)
           Inputs.deepView Inputs.deepWheel); reflexivity.
Defined.
